(** * XraySubRefiner: the normalization pipeline of cmd/xraysubrefiner/main.go

    A shallow embedding of the pipeline (payload decoding, line extraction,
    multi-URI splitting, scheme filtering, de-duplication, the two output
    projections and the temp-file-and-rename writer), followed by the
    properties of the specification that were checked against it.

    Go strings and byte slices are byte sequences: [list ascii].  Go [int]
    values are [Z]; lengths and slice indices, which are never negative, are
    [nat]; runes are [Z].  The Go standard-library functions the program
    calls are modelled in the modules [GoUTF8], [GoStrings], [GoRegexp],
    [GoBase64], [GoBufio] and [GoSort]; the program itself is in [Refiner].
    The lower-case table of package unicode is not part of the program: it
    is a parameter, [CaseTable], of everything that lower-cases a text. *)

From Stdlib Require Import ZArith Lia Ascii String Permutation Sorted.
From stdpp Require Import base list strings gmap sets sorting.

Local Open Scope list_scope.

(** A string literal as a Go string. *)
Definition str (s : string) : list ascii := list_ascii_of_string s.

Definition LF : ascii := "010"%char.
Definition CR : ascii := "013"%char.

Definition isNewline (c : ascii) : bool := Ascii.eqb c LF || Ascii.eqb c CR.

Definition isEmpty (s : list ascii) : bool :=
  match s with [] => true | _ => false end.

(** ** Package unicode/utf8 *)
Module GoUTF8.

Definition RuneError : Z := 65533.
Definition MaxRune : Z := 1114111.

Definition byteVal (c : ascii) : Z := Z.of_N (N_of_ascii c).

(** The conversion [byte(r)]: the low eight bits. *)
Definition byteOf (z : Z) : ascii := ascii_of_N (Z.to_N (z mod 256)).

Definition between (lo hi c : ascii) : bool := ((lo <=? c) && (c <=? hi))%char.

(** The size the table [first] gives for a leading byte: 1 for ASCII, 0
    for a byte that starts no rune (0x80..0xC1 and 0xF5..0xFF). *)
Definition runeLen (s0 : ascii) : nat :=
  if (s0 <? "128")%char then 1
  else if between "194" "223" s0 then 2
  else if between "224" "239" s0 then 3
  else if between "240" "244" s0 then 4
  else 0.

(** [acceptRanges]: the second byte allowed after [s0]; the narrower
    ranges shut out over-long forms, surrogates and runes above
    [MaxRune]. *)
Definition acceptSecond (s0 s1 : ascii) : bool :=
  if Ascii.eqb s0 "224" then between "160" "191" s1
  else if Ascii.eqb s0 "237" then between "128" "159" s1
  else if Ascii.eqb s0 "240" then between "144" "191" s1
  else if Ascii.eqb s0 "244" then between "128" "143" s1
  else between "128" "191" s1.

Definition continuation (c : ascii) : bool := between "128" "191" c.

Definition low (mask : Z) (c : ascii) : Z := Z.land (byteVal c) mask.

(** [utf8.DecodeRuneInString], which is also what [range] over a string
    does: the first rune and its width; a byte that starts no well-formed
    encoding is [RuneError] of width 1. *)
Definition DecodeRuneInString (s : list ascii) : Z * nat :=
  match s with
  | [] => (RuneError, 0)
  | s0 :: rest =>
      match runeLen s0, rest with
      | 1, _ => (byteVal s0, 1)
      | 2, s1 :: _ =>
          if acceptSecond s0 s1
          then (Z.lor (Z.shiftl (low 31 s0) 6) (low 63 s1), 2)
          else (RuneError, 1)
      | 3, s1 :: s2 :: _ =>
          if acceptSecond s0 s1 && continuation s2
          then (Z.lor (Z.lor (Z.shiftl (low 15 s0) 12) (Z.shiftl (low 63 s1) 6))
                      (low 63 s2), 3)
          else (RuneError, 1)
      | 4, s1 :: s2 :: s3 :: _ =>
          if acceptSecond s0 s1 && continuation s2 && continuation s3
          then (Z.lor (Z.lor (Z.lor (Z.shiftl (low 7 s0) 18)
                                    (Z.shiftl (low 63 s1) 12))
                             (Z.shiftl (low 63 s2) 6))
                      (low 63 s3), 4)
          else (RuneError, 1)
      | _, _ => (RuneError, 1)
      end
  end.

Definition tail6 (r : Z) : ascii := byteOf (Z.lor 128 (Z.land r 63)).

(** [utf8.AppendRune], the bytes [Builder.WriteRune] writes; [i] is
    [uint32(r)].  A surrogate or a value above [MaxRune] is written as
    [RuneError]. *)
Definition AppendRune (r : Z) : list ascii :=
  let i := (r mod 4294967296)%Z in
  if (i <=? 127)%Z then [byteOf r]
  else if (i <=? 2047)%Z then [byteOf (Z.lor 192 (Z.shiftr r 6)); tail6 r]
  else if (MaxRune <? i)%Z || ((55296 <=? i) && (i <=? 57343))%Z
       then ["239"; "191"; "189"]%char
  else if (i <=? 65535)%Z
       then [byteOf (Z.lor 224 (Z.shiftr r 12)); tail6 (Z.shiftr r 6); tail6 r]
  else [byteOf (Z.lor 240 (Z.shiftr r 18)); tail6 (Z.shiftr r 12);
        tail6 (Z.shiftr r 6); tail6 r].

End GoUTF8.

(** ** Package strings (and the same functions of package bytes) *)
Module GoStrings.
Import GoUTF8.

Fixpoint HasPrefix (s p : list ascii) {struct p} : bool :=
  match p, s with
  | [], _ => true
  | _ :: _, [] => false
  | c :: p', d :: s' => Ascii.eqb c d && HasPrefix s' p'
  end.

(** [strings.Index]: the position of the first occurrence, [None] for the
    Go result -1. *)
Fixpoint Index (s sub : list ascii) : option nat :=
  if HasPrefix s sub then Some 0
  else match s with
       | [] => None
       | _ :: r => option_map S (Index r sub)
       end.

Definition Contains (s sub : list ascii) : bool :=
  match Index s sub with Some _ => true | None => false end.

(** [strings.Count] for a non-empty [sub]: occurrences are counted left to
    right without overlap; [skip] is the number of bytes still covered by
    the occurrence just counted. *)
Fixpoint countFrom (skip : nat) (s sub : list ascii) : nat :=
  match s with
  | [] => 0
  | _ :: r =>
      match skip with
      | S k => countFrom k r sub
      | O => if HasPrefix s sub
             then S (countFrom (length sub - 1) r sub)
             else countFrom 0 r sub
      end
  end.

Definition Count (s sub : list ascii) : nat := countFrom 0 s sub.

(** [strings.ReplaceAll] for a non-empty [old], same scanning discipline. *)
Fixpoint replaceFrom (skip : nat) (s old new : list ascii) : list ascii :=
  match s with
  | [] => []
  | c :: r =>
      match skip with
      | S k => replaceFrom k r old new
      | O => if HasPrefix s old
             then new ++ replaceFrom (length old - 1) r old new
             else c :: replaceFrom 0 r old new
      end
  end.

Definition ReplaceAll (s old new : list ascii) : list ascii :=
  replaceFrom 0 s old new.

(** The byte loop of [strings.ToLower], taken when the string has ASCII
    bytes only: 'A'..'Z' become 'a'..'z'. *)
Definition lowerByte (c : ascii) : ascii :=
  if (("A" <=? c) && (c <=? "Z"))%char
  then ascii_of_N (N_of_ascii c + 32)
  else c.

Definition lowerASCII (s : list ascii) : list ascii := List.map lowerByte s.

Definition isASCII (s : list ascii) : bool :=
  forallb (fun c => (c <? "128")%char) s.

(** [unicode.To(unicode.LowerCase, r)] for the runes above ASCII: the
    table [unicode.CaseRanges] of Go's library.  It is no part of the
    program and is taken as a parameter. *)
Class CaseTable := lowerTable : Z -> Z.

(** [unicode.ToLower]. *)
Definition unicodeToLower {tbl : CaseTable} (r : Z) : Z :=
  if (r <=? 127)%Z
  then (if ((65 <=? r) && (r <=? 90))%Z then r + 32 else r)%Z
  else lowerTable r.

(** [strings.Map]: the runes of [s] in order, each replaced by its image
    and written out again; a negative image is dropped.  [skip] is the
    number of bytes still covered by the rune just read.  (Go copies the
    text up to the first rune that changes; the bytes it copies are
    well-formed runes, which are written back as they were read.) *)
Fixpoint mapFrom (mapping : Z -> Z) (skip : nat) (s : list ascii) : list ascii :=
  match s with
  | [] => []
  | _ :: rest =>
      match skip with
      | S k => mapFrom mapping k rest
      | O =>
          let '(c, width) := DecodeRuneInString s in
          let r := mapping c in
          (if (0 <=? r)%Z then AppendRune r else [])
            ++ mapFrom mapping (width - 1) rest
      end
  end.

Definition Map (mapping : Z -> Z) (s : list ascii) : list ascii :=
  mapFrom mapping 0 s.

(** [strings.ToLower]: the byte loop for a string of ASCII bytes, and
    [Map(unicode.ToLower, s)] as soon as one byte is 0x80 or more. *)
Definition ToLower {tbl : CaseTable} (s : list ascii) : list ascii :=
  if isASCII s then lowerASCII s else Map unicodeToLower s.

(** White space of one byte: '\t', '\n', '\v', '\f', '\r' and ' '. *)
Definition asciiSpace (c : ascii) : bool :=
  Ascii.eqb c "009" || Ascii.eqb c "010" || Ascii.eqb c "011"
  || Ascii.eqb c "012" || Ascii.eqb c "013" || Ascii.eqb c " ".

(** The UTF-8 encodings of the other runes of [unicode.IsSpace]:
    U+0085 and U+00A0 on two bytes; U+1680, U+2000..U+200A, U+2028,
    U+2029, U+202F, U+205F and U+3000 on three. *)
Definition space2 (c1 c2 : ascii) : bool :=
  Ascii.eqb c1 "194" && (Ascii.eqb c2 "133" || Ascii.eqb c2 "160").

Definition space3 (c1 c2 c3 : ascii) : bool :=
  (Ascii.eqb c1 "225" && Ascii.eqb c2 "154" && Ascii.eqb c3 "128")
  || (Ascii.eqb c1 "226" && Ascii.eqb c2 "128"
      && ((("128" <=? c3) && (c3 <=? "138"))%char
          || Ascii.eqb c3 "168" || Ascii.eqb c3 "169" || Ascii.eqb c3 "175"))
  || (Ascii.eqb c1 "226" && Ascii.eqb c2 "129" && Ascii.eqb c3 "159")
  || (Ascii.eqb c1 "227" && Ascii.eqb c2 "128" && Ascii.eqb c3 "128").

(** [unicode.IsSpace]: the runes whose encodings [asciiSpace], [space2]
    and [space3] recognise. *)
Definition isSpaceRune (r : Z) : bool :=
  (((9 <=? r) && (r <=? 13)) || (r =? 32) || (r =? 133) || (r =? 160)
   || (r =? 5760) || ((8192 <=? r) && (r <=? 8202)) || (r =? 8232)
   || (r =? 8233) || (r =? 8239) || (r =? 8287) || (r =? 12288))%Z.

Section TrimFunc.
(** Stripping white-space runes from the front of a byte sequence, for
    given recognisers of the two- and three-byte encodings (the bytes
    are passed in the order in which they are met). *)
Variable sp2 : ascii -> ascii -> bool.
Variable sp3 : ascii -> ascii -> ascii -> bool.

(** Width in bytes of the white-space rune at the front, 0 if none. *)
Definition spaceWidth (s : list ascii) : nat :=
  match s with
  | [] => 0
  | c1 :: r1 =>
      if asciiSpace c1 then 1
      else match r1 with
           | [] => 0
           | c2 :: r2 =>
               if sp2 c1 c2 then 2
               else match r2 with
                    | [] => 0
                    | c3 :: _ => if sp3 c1 c2 c3 then 3 else 0
                    end
           end
  end.

Fixpoint trimFront (s : list ascii) : list ascii :=
  match s with
  | [] => []
  | c1 :: r1 =>
      if asciiSpace c1 then trimFront r1
      else match r1 with
           | [] => s
           | c2 :: r2 =>
               if sp2 c1 c2 then trimFront r2
               else match r2 with
                    | [] => s
                    | c3 :: r3 => if sp3 c1 c2 c3 then trimFront r3 else s
                    end
           end
  end.
End TrimFunc.

Definition TrimLeftSpace (s : list ascii) : list ascii :=
  trimFront space2 space3 s.

(** From the end the last byte of a rune is met first. *)
Definition TrimRightSpace (s : list ascii) : list ascii :=
  rev (trimFront (fun c1 c2 => space2 c2 c1)
                 (fun c1 c2 c3 => space3 c3 c2 c1) (rev s)).

(** [strings.TrimSpace] and [bytes.TrimSpace]: leading white space goes
    first, then trailing white space of what is left. *)
Definition TrimSpace (s : list ascii) : list ascii :=
  TrimRightSpace (TrimLeftSpace s).

(** [strings.Join]. *)
Fixpoint Join (elems : list (list ascii)) (sep : list ascii) : list ascii :=
  match elems with
  | [] => []
  | [e] => e
  | e :: rest => e ++ sep ++ Join rest sep
  end.

(** [strings.Split] on the one-byte separator "\n": always at least one
    field, one more than there are separators. *)
Fixpoint SplitLF (s : list ascii) : list (list ascii) :=
  match s with
  | [] => [[]]
  | c :: r =>
      if Ascii.eqb c LF then [] :: SplitLF r
      else match SplitLF r with
           | [] => [[c]]
           | f :: fs => (c :: f) :: fs
           end
  end.

(** The order of Go's [<=] on strings: byte by byte. *)
Fixpoint leb (s t : list ascii) : bool :=
  match s, t with
  | [], _ => true
  | _ :: _, [] => false
  | c :: s', d :: t' =>
      if (c <? d)%char then true
      else if Ascii.eqb c d then leb s' t' else false
  end.

End GoStrings.

(** ** The two regular expressions of the program *)
Module GoRegexp.
Import GoStrings.

Definition isUpper (c : ascii) : bool := (("A" <=? c) && (c <=? "Z"))%char.
Definition isLower (c : ascii) : bool := (("a" <=? c) && (c <=? "z"))%char.
Definition isDigit (c : ascii) : bool := (("0" <=? c) && (c <=? "9"))%char.
Definition isLetter (c : ascii) : bool := isUpper c || isLower c.

(** The class [[A-Za-z0-9+/=\r\n]]. *)
Definition b64Class (c : ascii) : bool :=
  isUpper c || isLower c || isDigit c
  || Ascii.eqb c "+" || Ascii.eqb c "/" || Ascii.eqb c "="
  || Ascii.eqb c CR || Ascii.eqb c LF.

(** [rePossibleB64 = ^[A-Za-z0-9+/=\r\n]+$]: the whole text, not empty, in
    the class ([$] is the end of the text: no flag is set). *)
Definition rePossibleB64 (s : list ascii) : bool :=
  negb (isEmpty s) && forallb b64Class s.

(** [\s] of RE2: tab, line feed, form feed, carriage return and space. *)
Definition reSpace (c : ascii) : bool :=
  Ascii.eqb c "009" || Ascii.eqb c "010" || Ascii.eqb c "012"
  || Ascii.eqb c "013" || Ascii.eqb c " ".

Fixpoint skipReSpace (s : list ascii) : list ascii :=
  match s with
  | c :: r => if reSpace c then skipReSpace r else s
  | [] => []
  end.

(** [reCommentLine = ^\s*(#|//|;).*$]: after the white space comes one of
    the three markers, and [.*] reaches the end of the text, which it does
    when no line feed follows. *)
Definition reCommentLine (s : list ascii) : bool :=
  let r := skipReSpace s in
  (HasPrefix r (str "#") || HasPrefix r (str "//") || HasPrefix r (str ";"))
  && forallb (fun c => negb (Ascii.eqb c LF)) r.

End GoRegexp.

(** ** Package encoding/base64: [StdEncoding] *)
Module GoBase64.

(** Six bits, most significant first. *)
Inductive sextet : Type :=
  Sextet (b5 b4 b3 b2 b1 b0 : bool).

Definition bit (b : bool) (w : nat) : nat := if b then w else 0.

Definition index (s : sextet) : nat :=
  let '(Sextet b5 b4 b3 b2 b1 b0) := s in
  bit b5 32 + bit b4 16 + bit b3 8 + bit b2 4 + bit b1 2 + bit b0 1.

Definition alphabet : list ascii :=
  str "ABCDEFGHIJKLMNOPQRSTUVWXYZabcdefghijklmnopqrstuvwxyz0123456789+/".

Definition padChar : ascii := "="%char.

Definition encodeMap (s : sextet) : ascii := nth (index s) alphabet padChar.

Definition allSextets : list sextet :=
  let bs := [false; true] in
  b5 ← bs; b4 ← bs; b3 ← bs; b2 ← bs; b1 ← bs; b0 ← bs;
  [Sextet b5 b4 b3 b2 b1 b0].

(** [decodeMap]: the value of an alphabet byte, [None] for Go's 0xff. *)
Definition decodeMap (c : ascii) : option sextet :=
  List.find (fun s => Ascii.eqb (encodeMap s) c) allSextets.

(** The 24 bits [a<<16 | b<<8 | c] cut into [val>>18&0x3F],
    [val>>12&0x3F], [val>>6&0x3F] and [val&0x3F]. *)
Definition split3 (a b c : ascii) : sextet * sextet * sextet * sextet :=
  let '(Ascii a0 a1 a2 a3 a4 a5 a6 a7) := a in
  let '(Ascii b0 b1 b2 b3 b4 b5 b6 b7) := b in
  let '(Ascii c0 c1 c2 c3 c4 c5 c6 c7) := c in
  (Sextet a7 a6 a5 a4 a3 a2, Sextet a1 a0 b7 b6 b5 b4,
   Sextet b3 b2 b1 b0 c7 c6, Sextet c5 c4 c3 c2 c1 c0).

(** The 24 bits [s0<<18 | s1<<12 | s2<<6 | s3] cut into three bytes. *)
Definition join4 (s0 s1 s2 s3 : sextet) : ascii * ascii * ascii :=
  let '(Sextet a7 a6 a5 a4 a3 a2) := s0 in
  let '(Sextet a1 a0 b7 b6 b5 b4) := s1 in
  let '(Sextet b3 b2 b1 b0 c7 c6) := s2 in
  let '(Sextet c5 c4 c3 c2 c1 c0) := s3 in
  (Ascii a0 a1 a2 a3 a4 a5 a6 a7, Ascii b0 b1 b2 b3 b4 b5 b6 b7,
   Ascii c0 c1 c2 c3 c4 c5 c6 c7).

Definition zeroByte : ascii := "000"%char.
Definition zeroSextet : sextet := Sextet false false false false false false.

(** [EncodeToString]: three bytes give four characters; one or two
    remaining bytes give two or three characters and padding. *)
Fixpoint EncodeToString (src : list ascii) : list ascii :=
  match src with
  | a :: b :: c :: rest =>
      let '(s0, s1, s2, s3) := split3 a b c in
      encodeMap s0 :: encodeMap s1 :: encodeMap s2 :: encodeMap s3
        :: EncodeToString rest
  | [a; b] =>
      let '(s0, s1, s2, _) := split3 a b zeroByte in
      [encodeMap s0; encodeMap s1; encodeMap s2; padChar]
  | [a] =>
      let '(s0, s1, _, _) := split3 a zeroByte zeroByte in
      [encodeMap s0; encodeMap s1; padChar; padChar]
  | [] => []
  end.

Fixpoint skipNewlines (s : list ascii) : list ascii :=
  match s with
  | c :: r => if isNewline c then skipNewlines r else s
  | [] => []
  end.

(** What [decodeQuantum] does once it meets the padding character with
    [acc] holding the values read so far in the quantum: with two values
    a second '=' must follow (new lines apart); nothing but new lines may
    come after the padding. *)
Definition finishPadding (acc : list sextet) (rest : list ascii)
  : option (list ascii) :=
  match acc with
  | [s0; s1] =>
      match skipNewlines rest with
      | c :: r2 =>
          if Ascii.eqb c padChar
          then match skipNewlines r2 with
               | [] => let '(a, _, _) := join4 s0 s1 zeroSextet zeroSextet in
                       Some [a]
               | _ :: _ => None
               end
          else None
      | [] => None
      end
  | [s0; s1; s2] =>
      match skipNewlines rest with
      | [] => let '(a, b, _) := join4 s0 s1 s2 zeroSextet in Some [a; b]
      | _ :: _ => None
      end
  | _ => None
  end.

(** [Decode] of the padded, non-strict standard encoding; [acc] is the
    quantum being read ([dbuf] and [j] of [decodeQuantum]).  '\r' and
    '\n' are ignored wherever they stand; any other byte outside the
    alphabet, a quantum cut short by the end of the input, and wrong
    padding are errors ([None]). *)
Fixpoint decodeFrom (src : list ascii) (acc : list sextet)
  : option (list ascii) :=
  match src with
  | [] => match acc with [] => Some [] | _ :: _ => None end
  | c :: rest =>
      match decodeMap c with
      | Some v =>
          match acc with
          | [s0; s1; s2] =>
              let '(a, b, d) := join4 s0 s1 s2 v in
              option_map (fun out => a :: b :: d :: out) (decodeFrom rest [])
          | _ => decodeFrom rest (acc ++ [v])
          end
      | None =>
          if isNewline c then decodeFrom rest acc
          else if Ascii.eqb c padChar then finishPadding acc rest
          else None
      end
  end.

(** [DecodeString]: the bytes when [err == nil], [None] otherwise. *)
Definition DecodeString (s : list ascii) : option (list ascii) :=
  decodeFrom s [].

End GoBase64.

(** ** Package bufio: a [Scanner] with [ScanLines] and a token limit *)
Module GoBufio.

(** [dropCR]: one trailing '\r' is not part of the line. *)
Definition dropCR (tok : list ascii) : list ascii :=
  match rev tok with
  | c :: r => if Ascii.eqb c CR then rev r else tok
  | [] => tok
  end.

(** The tokens [Scan] delivers from [data], [tok] being the bytes of the
    line read so far, and whether scanning ended on [ErrTooLong].  A line
    is delivered when it and its terminator fit in the buffer, that is when
    it has fewer than [maxTokenSize] bytes; with [maxTokenSize] bytes in
    the buffer and no line feed among them, [Scan] sets the error and
    returns false. *)
Fixpoint scanFrom (maxTokenSize : Z) (data tok : list ascii)
  : list (list ascii) * bool :=
  match data with
  | [] =>
      if isEmpty tok then ([], false)
      else if (maxTokenSize <=? Z.of_nat (length tok))%Z then ([], true)
      else ([dropCR tok], false)
  | c :: rest =>
      if Ascii.eqb c LF
      then if (maxTokenSize <=? Z.of_nat (length tok))%Z then ([], true)
           else let '(toks, err) := scanFrom maxTokenSize rest [] in
                (dropCR tok :: toks, err)
      else scanFrom maxTokenSize rest (tok ++ [c])
  end.

Definition scanLines (maxTokenSize : Z) (data : list ascii)
  : list (list ascii) * bool :=
  scanFrom maxTokenSize data [].

End GoBufio.

(** ** Package sort: [sort.Strings] *)
Module GoSort.

Definition str_le (s t : list ascii) : Prop := GoStrings.leb s t = true.

#[export] Instance str_le_dec : RelDecision str_le.
Proof. intros s t. unfold str_le. apply _. Defined.

(** The strings in non-decreasing order.  Two strings that compare equal
    are the same string, so every sorting algorithm returns this list. *)
Definition Strings (l : list (list ascii)) : list (list ascii) :=
  merge_sort str_le l.

End GoSort.

(** ** The program: cmd/xraysubrefiner/main.go *)
Module Refiner.
Import GoStrings GoRegexp GoBase64 GoBufio.

Record Subscription : Type := {
  Key : list ascii;
  URL : list ascii
}.

Record LiteCfg : Type := {
  Strategy : list ascii;
  MaxTotal : Z;
  PerHostLimit : Z;
  N : Z
}.

Record Config : Type := {
  AllowedSchemes : list (list ascii);
  Lite : LiteCfg;
  Subscriptions : list Subscription
}.

(** [loadConfig], after the file has been read and unmarshalled into
    [cfg]: the defaults it fills in. *)
Definition loadConfig (cfg : Config) : Config :=
  let lite := Lite cfg in
  let maxTotal := if (MaxTotal lite <=? 0)%Z then 100%Z else MaxTotal lite in
  let n := if (N lite <=? 0)%Z then 100%Z else N lite in
  {| AllowedSchemes := AllowedSchemes cfg;
     Lite := {| Strategy := Strategy lite; MaxTotal := maxTotal;
                PerHostLimit := PerHostLimit lite; N := n |};
     Subscriptions := Subscriptions cfg |}.

(** The test on the decoded text at the end of [tryDecodeIfBase64].  The
    three markers are ASCII texts without 'i' and 'k', the only ASCII
    letters that runes above ASCII have as lower case (U+0130, U+212A);
    an ASCII byte is a rune of its own wherever it stands, and every
    other rune, an ill-formed byte included, is written on bytes of 0x80
    and more.  So a marker occurs in [strings.ToLower(dec)] where it
    occurs in [dec] with its ASCII letters in lower case, and the test
    is modelled on the latter. *)
Definition looksLikeProxyList (dec : list ascii) : bool :=
  let l := lowerASCII dec in
  Contains l (str "vless://") || Contains l (str "vmess://")
  || Contains l (str "ss://").

(** The decoding attempts of [tryDecodeIfBase64] on [trim]: the result
    of the last call of [DecodeString] ([None] when the function returns
    on [err2]), and the texts handed to [DecodeString], in order. *)
Definition decodeCalls (trim : list ascii)
  : option (list ascii) * list (list ascii) :=
  match DecodeString trim with
  | Some dec => (Some dec, [trim])
  | None =>
      let again := ReplaceAll trim [LF] [] in
      (DecodeString again, [trim; again])
  end.

Definition wholeBlobDecode (trim : list ascii) : option (list ascii) :=
  fst (decodeCalls trim).

Definition tryDecodeIfBase64 (b : list ascii) : list ascii :=
  let trim := TrimSpace b in
  if (length trim =? 0)%nat then trim
  else if negb (rePossibleB64 trim) then b
  else
    match wholeBlobDecode trim with
    | None => b
    | Some dec => if looksLikeProxyList dec then dec else b
    end.

Definition isSchemeChar (c : ascii) : bool :=
  (("a" <=? c) && (c <=? "z"))%char || (("A" <=? c) && (c <=? "Z"))%char.

Definition normalizeScheme {tbl : CaseTable} (s : list ascii) : list ascii :=
  match Index s (str "://") with
  | None => s
  | Some idx => ToLower (take idx s) ++ drop idx s
  end.

(** The backward walk of [splitPossible]: called with [i = idx], it
    returns [start] as it stands after the final [start++]. *)
Fixpoint schemeStart (cur : list ascii) (i : nat) : nat :=
  match i with
  | O => O
  | S j => if isSchemeChar (nth j cur LF) then schemeStart cur j else i
  end.

(** The loop of [splitPossible]; an iteration that goes round again
    shortens [cur], so [length cur] rounds are enough. *)
Fixpoint splitLoop (fuel : nat) (cur : list ascii) : list (list ascii) :=
  match fuel with
  | O => []
  | S fuel' =>
      match Index cur (str "://") with
      | None => []
      | Some idx =>
          let start := schemeStart cur idx in
          let rest := drop start cur in
          match Index (drop 3 rest) (str "://") with
          | Some next =>
              TrimSpace (take (next + 3) rest)
                :: splitLoop fuel' (drop (next + 3) rest)
          | None => [TrimSpace rest]
          end
      end
  end.

Definition splitPossible (s : list ascii) : list (list ascii) :=
  if (Count s (str "://") <=? 1)%nat then [s]
  else splitLoop (length s) s.

(** The flag [ok] after the loop over [allowed], for the lower-cased
    item [l]. *)
Definition schemeAllowed (allowed : gset (list ascii)) (l : list ascii)
  : bool :=
  existsb (fun sch => HasPrefix l (sch ++ str "://")) (elements allowed).

(** The body of the inner loop of [parseAndFilterLines] for one item: the
    entry appended to [out], if any. *)
Definition filterItem {tbl : CaseTable} (allowed : gset (list ascii))
    (it0 : list ascii) : option (list ascii) :=
  let it := TrimSpace it0 in
  if isEmpty it || reCommentLine it then None
  else
    let l := ToLower it in
    if schemeAllowed allowed l then Some (normalizeScheme it) else None.

(** The body of the outer loop for one scanned line. *)
Definition filterLine {tbl : CaseTable} (allowed : gset (list ascii))
    (text : list ascii) : list (list ascii) :=
  let line := TrimSpace text in
  if isEmpty line || reCommentLine line then []
  else omap (filterItem allowed) (splitPossible line).

Definition maxTokenSize : Z := 10 * 1024 * 1024.

(** [parseAndFilterLines]; [sc.Err()] is not consulted. *)
Definition parseAndFilterLines {tbl : CaseTable} (b : list ascii)
    (allowed : gset (list ascii)) : list (list ascii) :=
  let '(lines, _) := scanLines maxTokenSize b in
  flat_map (filterLine allowed) lines.

(** One round of the loop of [dedupe] on the pair of [seen] and [out]. *)
Definition dedupeStep (st : gset (list ascii) * list (list ascii))
    (s : list ascii) : gset (list ascii) * list (list ascii) :=
  let '(seen, out) := st in
  let k := TrimSpace s in
  if isEmpty k then st
  else if bool_decide (k ∈ seen) then st
  else ({[ k ]} ∪ seen, out ++ [k]).

Definition dedupe (l : list (list ascii)) : list (list ascii) :=
  snd (fold_left dedupeStep l (∅, [])).

Definition buildLiteTail (normal : list (list ascii)) (n : Z)
  : list (list ascii) :=
  let len := Z.of_nat (length normal) in
  let n := if (n <=? 0)%Z then 100%Z else n in
  let n := if (n >? len)%Z then len else n in
  let start := (len - n)%Z in
  drop (Z.to_nat start) normal.

(** The allowed-scheme set built by [main]. *)
Definition allowedSet {tbl : CaseTable} (cfg : Config) : gset (list ascii) :=
  let allowed : gset (list ascii) :=
    list_to_set (List.map (fun s => ToLower (TrimSpace s)) (AllowedSchemes cfg)) in
  if (size allowed =? 0)%nat
  then list_to_set [str "vless"; str "vmess"; str "ss"]
  else allowed.

(** The body of the loop of [main] for one fetched payload: the lists
    handed to the two writers. *)
Definition processSource {tbl : CaseTable} (cfg : Config) (raw : list ascii)
  : list (list ascii) * list (list ascii) :=
  let decoded := tryDecodeIfBase64 raw in
  let valid := parseAndFilterLines decoded (allowedSet cfg) in
  let normal := dedupe valid in
  let lite := buildLiteTail normal 100 in
  (normal, lite).

(** The text [writeBase64Atomic] stores for [lines]. *)
Definition encodedPayload (lines : list (list ascii)) : list ascii :=
  EncodeToString (Join lines [LF]).

(** The list [writeBase64Sorted] hands to [writeBase64Atomic]. *)
Definition sortedCopy (lines : list (list ascii)) : list (list ascii) :=
  GoSort.Strings lines.

(** *** The file system and [writeBase64Atomic] *)

(** What the operating system answers during one call. *)
Record osAnswers : Type := {
  tempRandom : option (list ascii);
    (* the random part of the name [os.CreateTemp] picks; None: it fails *)
  writeFails : bool;    (* w.WriteString returns an error *)
  flushFails : bool;    (* w.Flush returns an error *)
  closeFails : bool;    (* tmpFile.Close returns an error *)
  flushed : nat;        (* bytes that reached the file before Flush *)
  removeDone : nat -> bool;
    (* whether os.Remove(path) of attempt i removes the file *)
  tmpRemoveDone : bool;
    (* whether os.Remove(tmpPath), called once on each way out with an
       error, removes the file; its error is dropped *)
  renameError : nat -> option (list ascii)
    (* the error text of os.Rename in attempt i; None: it succeeds *)
}.

Inductive writeResult : Type :=
| WriteOk
| CreateTempError
| WriteError
| RenameError (tries : nat) (cause : list ascii)
| RenameExhausted.

(** [os.CreateTemp(dir, base+".*.tmp")] with [dir] and [base] taken from
    [path]: the name is [path], a dot, the random part and ".tmp". *)
Definition tempPath (path rnd : list ascii) : list ascii :=
  path ++ str "." ++ rnd ++ str ".tmp".

(** [os.Rename]: the file moves, replacing what is at [new]. *)
Definition rename (old new : list ascii) (fs : gmap (list ascii) (list ascii))
  : gmap (list ascii) (list ascii) :=
  match fs !! old with
  | Some content => <[ new := content ]> (delete old fs)
  | None => fs
  end.

(** [os.Remove(tmpPath)]. *)
Definition removeTemp (os : osAnswers) (tmpPath : list ascii)
    (fs : gmap (list ascii) (list ascii)) : gmap (list ascii) (list ascii) :=
  if tmpRemoveDone os then delete tmpPath fs else fs.

Definition isBusy {tbl : CaseTable} (err : list ascii) : bool :=
  let lower := ToLower err in
  Contains lower (str "used by another process")
  || Contains lower (str "access is denied")
  || Contains lower (str "sharing violation").

Definition maxRetries : nat := 6.

(** The retry loop, in attempt [i] with [todo] attempts left: the states
    of the file system after each call, and the result. *)
Fixpoint renameLoop {tbl : CaseTable} (os : osAnswers)
    (tmpPath path : list ascii) (i todo : nat)
    (fs : gmap (list ascii) (list ascii))
  : list (gmap (list ascii) (list ascii)) * writeResult :=
  match todo with
  | O => ([removeTemp os tmpPath fs], RenameExhausted)
  | S todo' =>
      let fs1 := if removeDone os i then delete path fs else fs in
      match renameError os i with
      | None => ([fs1; rename tmpPath path fs1], WriteOk)
      | Some err =>
          if isBusy err && (i <? maxRetries - 1)%nat
          then let '(states, res) :=
                 renameLoop os tmpPath path (S i) todo' fs1 in
               (fs1 :: states, res)
          else ([fs1; removeTemp os tmpPath fs1], RenameError (S i) err)
      end
  end.

(** [writeBase64Atomic]: every state the file system goes through, the
    initial one first, and the result. *)
Definition writeBase64Atomic {tbl : CaseTable} (os : osAnswers)
    (path : list ascii) (lines : list (list ascii))
    (fs : gmap (list ascii) (list ascii))
  : list (gmap (list ascii) (list ascii)) * writeResult :=
  let encoded := encodedPayload lines in
  match tempRandom os with
  | None => ([fs], CreateTempError)
  | Some rnd =>
      let tmpPath := tempPath path rnd in
      if bool_decide (is_Some (fs !! tmpPath)) then ([fs], CreateTempError)
      else
        let fs1 := <[ tmpPath := [] ]> fs in
        let fs2 := <[ tmpPath := take (flushed os) encoded ]> fs1 in
        if writeFails os || flushFails os
        then ([fs; fs1; fs2; removeTemp os tmpPath fs2], WriteError)
        else
          let fs3 := <[ tmpPath := encoded ]> fs2 in
          if closeFails os
          then ([fs; fs1; fs2; fs3; removeTemp os tmpPath fs3], WriteError)
          else
            let '(states, res) :=
              renameLoop os tmpPath path 0 maxRetries fs3 in
            (fs :: fs1 :: fs2 :: fs3 :: states, res)
  end.

(** The characters [sanitizeFileName] replaces, all of one byte: the
    less-than and greater-than signs, the colon, the double quote, the
    slash, the backslash, the bar, the question mark, the star and the
    control bytes 0x00 to 0x1F. *)
Definition invalidFileChar (c : ascii) : bool :=
  Ascii.eqb c "<" || Ascii.eqb c ">" || Ascii.eqb c ":" || Ascii.eqb c "034"
  || Ascii.eqb c "/" || Ascii.eqb c "092" || Ascii.eqb c "|"
  || Ascii.eqb c "?" || Ascii.eqb c "*" || (c <=? "031")%char.

(** [invalid.ReplaceAllString(name, "_")]: each match is one byte of the
    class, every other byte is copied. *)
Definition replaceByte (c : ascii) : ascii :=
  if invalidFileChar c then "_"%char else c.

Definition replaceInvalid (name : list ascii) : list ascii :=
  List.map replaceByte name.

Definition sanitizeFileName (name : list ascii) : list ascii :=
  let name := TrimSpace name in
  let name := replaceInvalid name in
  if isEmpty name then str "default" else name.

Definition writeBase64Sorted {tbl : CaseTable} (os : osAnswers)
    (path : list ascii) (lines : list (list ascii))
    (fs : gmap (list ascii) (list ascii)) :=
  writeBase64Atomic os path (sortedCopy lines) fs.

Definition writeBase64NoSort {tbl : CaseTable} (os : osAnswers)
    (path : list ascii) (lines : list (list ascii))
    (fs : gmap (list ascii) (list ascii)) :=
  writeBase64Atomic os path lines fs.

End Refiner.

(** ** The specification's own notions, for comparison with the program *)
Module Spec.
Import GoUTF8 GoStrings GoRegexp GoBase64 GoBufio.

(** First occurrences, in order: an element is kept and its later copies
    are dropped. *)
Fixpoint firstOccurrences (l : list (list ascii)) : list (list ascii) :=
  match l with
  | [] => []
  | x :: r => x :: filter (fun y => y ≠ x) (firstOccurrences r)
  end.

(** Reading an output file back: base64 decoding, then splitting on
    '\n'. *)
Definition readBack (file : list ascii) : option (list (list ascii)) :=
  option_map SplitLF (DecodeString file).

(** An ASCII byte that is not white space; no byte of the encoding of a
    white-space rune is one. *)
Definition plainByte (c : ascii) : bool :=
  negb (asciiSpace c) && (c <? "128")%char.



(** A string without '\n'. *)
Definition newlineFree (s : list ascii) : Prop := LF ∉ s.

(** An occurrence of [marker], a text of ASCII bytes in lower case, in
    [s], in any letter case. *)
Definition occursFolded (marker s : list ascii) : Prop :=
  exists pre m post, s = pre ++ m ++ post /\ lowerASCII m = marker.

(** The bytes of an item before its first "://", all its bytes when it
    has none, are ASCII bytes. *)
Definition plainScheme (it : list ascii) : bool :=
  match Index it (str "://") with
  | Some idx => isASCII (take idx it)
  | None => isASCII it
  end.


(** What the statements on white space take from the lower-case table:
    the lower case of a rune that is no white space is a rune, and no
    white space either.  Go's table is such a table. *)
Definition spaceSafe (tbl : CaseTable) : Prop :=
  forall r, (128 <= r <= MaxRune)%Z -> isSpaceRune r = false ->
    (0 <= lowerTable r <= MaxRune)%Z /\ isSpaceRune (lowerTable r) = false.

(** The 256 bytes. *)
Definition allBytes : list ascii := List.map ascii_of_nat (seq 0 256).

(** [P] holds of the [n] integers from [z] on. *)
Fixpoint forRunes (n : nat) (z : Z) (P : Z -> bool) : bool :=
  match n with
  | O => true
  | S k => P z && forRunes k (z + 1)%Z P
  end.

(** The bytes at the front of [bytes] are enough to tell that a text
    starting with them does not start with white space. *)
Definition noSpaceFront (bytes : list ascii) : bool :=
  match bytes with
  | [] => false
  | c1 :: t =>
      negb (asciiSpace c1)
      && (if Ascii.eqb c1 "194"
          then match t with c2 :: _ => negb (space2 c1 c2) | [] => false end
          else if between "225" "227" c1
               then match t with
                    | c2 :: c3 :: _ => negb (space3 c1 c2 c3)
                    | _ => false
                    end
               else true)
  end.

(** What an observer may find at the target of a write: what was there
    before, nothing, or the whole new text. *)
Definition targetOk (old : option (list ascii)) (enc : list ascii)
    (st : gmap (list ascii) (list ascii)) (path : list ascii) : Prop :=
  st !! path = old \/ st !! path = None \/ st !! path = Some enc.

(** Removal of every '\r' and '\n'. *)
Definition stripNewlines (s : list ascii) : list ascii :=
  List.filter (fun c => negb (isNewline c)) s.

(** The payload decoder as section 4.1 words it: the retry strips all
    new-line characters. *)
Definition decodePayload (raw : list ascii) : list ascii :=
  let trim := TrimSpace raw in
  if isEmpty trim then trim
  else if negb (rePossibleB64 trim) then raw
  else
    match DecodeString trim with
    | Some dec => if Refiner.looksLikeProxyList dec then dec else raw
    | None =>
        match DecodeString (stripNewlines trim) with
        | Some dec => if Refiner.looksLikeProxyList dec then dec else raw
        | None => raw
        end
    end.

End Spec.

(** ** Inputs of the examples *)
Module Scenario.
Import GoStrings Refiner.

(** An excerpt of Go's lower-case table: the Kelvin sign U+212A gives
    'k', the dotted capital I U+0130 gives 'i', the capital letters of
    Latin-1 (U+00C0 to U+00DE but U+00D7) move up by 32; every other rune
    is left as it is. *)
Definition latinTable : CaseTable :=
  fun r => if (r =? 8490)%Z then 107%Z
           else if (r =? 304)%Z then 105%Z
           else if ((192 <=? r) && (r <=? 222) && negb (r =? 215))%Z
                then (r + 32)%Z
                else r.

(** A configuration asking for a tail of two entries. *)
Definition cfgTailTwo : Config :=
  {| AllowedSchemes := [];
     Lite := {| Strategy := []; MaxTotal := 0; PerHostLimit := 0; N := 2 |};
     Subscriptions := [] |}.

Definition threeEntries : list ascii :=
  str "ss://a" ++ [LF] ++ str "ss://b" ++ [LF] ++ str "ss://c".

(** A text of the base64 class, broken by CRLF, that is no base64 text. *)
Definition crlfBlob : list ascii := str "dmxl" ++ [CR; LF] ++ str "c3M".

(** Every call of the operating system succeeds. *)
Definition osAllGood : osAnswers :=
  {| tempRandom := Some (str "123"); writeFails := false;
     flushFails := false; closeFails := false; flushed := 0;
     removeDone := fun _ => true; tmpRemoveDone := true;
     renameError := fun _ => None |}.

(** The target can be removed but every rename finds it busy. *)
Definition osAlwaysBusy : osAnswers :=
  {| tempRandom := Some (str "123"); writeFails := false;
     flushFails := false; closeFails := false; flushed := 0;
     removeDone := fun _ => true; tmpRemoveDone := true;
     renameError := fun _ => Some (str "Access is denied.") |}.

(** Another process holds the target: it can be neither removed nor
    replaced. *)
Definition osLocked : osAnswers :=
  {| tempRandom := Some (str "123"); writeFails := false;
     flushFails := false; closeFails := false; flushed := 0;
     removeDone := fun _ => false; tmpRemoveDone := true;
     renameError := fun _ => Some (str "Access is denied.") |}.

(** The rename fails for another reason, and the temporary file cannot
    be removed either. *)
Definition osTempStuck : osAnswers :=
  {| tempRandom := Some (str "123"); writeFails := false;
     flushFails := false; closeFails := false; flushed := 0;
     removeDone := fun _ => true; tmpRemoveDone := false;
     renameError := fun _ => Some (str "permission denied") |}.

Definition target : list ascii := str "export/k/normal".

(** A line of exactly [maxTokenSize] bytes. *)
Definition longLine : list ascii :=
  repeat "a"%char (Z.to_nat maxTokenSize).

(** The target holds the output of an earlier run. *)
Definition fsBefore : gmap (list ascii) (list ascii) :=
  {[ target := str "c3M6Ly9vbGQ=" ]}.
End Scenario.

Import GoUTF8 GoStrings GoRegexp GoBase64 GoBufio GoSort Refiner Spec.

(** * Properties *)

#[local] Arguments Ascii.eqb : simpl never.
#[local] Arguments Ascii.leb : simpl never.
#[local] Arguments Ascii.ltb : simpl never.

(** ** The multi-URI splitter *)

(** The loop of the splitter ends: beyond [length cur] rounds, more fuel
    changes nothing. *)
Lemma splitLoop_fuel (n m : nat) (cur : list ascii) :
  length cur <= n -> length cur <= m -> splitLoop n cur = splitLoop m cur.
Proof.
  revert m cur. induction n as [|n IH]; intros m cur Hn Hm.
  - destruct cur; [| simpl in Hn; lia]. destruct m; reflexivity.
  - destruct m as [|m].
    + destruct cur; [reflexivity | simpl in Hm; lia].
    + simpl. destruct (Index cur _) as [idx|]; [| reflexivity].
      destruct (Index (drop 3 (drop (schemeStart cur idx) cur)) _)
        as [next|]; [| reflexivity].
      f_equal. apply IH; rewrite !length_drop; lia.
Qed.

(** C1, on the line of the specification's own example.  The splitter looks
    for the next "://" three bytes after the scheme start, not after the
    "://" just found, and cuts at that "://" instead of at the start of the
    scheme before it: "vless://A vmess://B" comes out in three pieces,
    "vless", "://A vmess" and "://B", not as "vless://A" and "vmess://B";
    none of the pieces passes the scheme filter, so both URIs are lost. *)
Theorem C1_splitPossible_example {tbl : CaseTable} :
  splitPossible (str "vless://A vmess://B")
    = [str "vless"; str "://A vmess"; str "://B"]
  /\ splitPossible (str "vless://A vmess://B") <> [str "vless://A"; str "vmess://B"]
  /\ parseAndFilterLines (str "vless://A vmess://B")
       (list_to_set [str "vless"; str "vmess"; str "ss"]) = [].
Proof.
  split; [| split].
  - vm_compute. reflexivity.
  - vm_compute. discriminate.
  - vm_compute. reflexivity.
Qed.

(** ** The tail projection *)

Lemma buildLiteTail_drop (normal : list (list ascii)) (n : Z) :
  buildLiteTail normal n
  = drop (length normal
          - Nat.min (Z.to_nat (if (n <=? 0)%Z then 100%Z else n)) (length normal))
         normal.
Proof.
  unfold buildLiteTail. f_equal.
  destruct (Z.leb_spec n 0);
    match goal with |- context [(?a >? ?b)%Z] => destruct (Z.gtb_spec a b) end;
    lia.
Qed.

(** C8: the tail has min(N, len(normal)) elements, where a size that is not
    positive counts as 100, and it is the final segment of [normal] of that
    length, in the order of [normal]. *)
Theorem C8_buildLiteTail (normal : list (list ascii)) (n : Z) :
  let size := if (n <=? 0)%Z then 100%Z else n in
  let k := Nat.min (Z.to_nat size) (length normal) in
  length (buildLiteTail normal n) = k
  /\ buildLiteTail normal n = drop (length normal - k) normal
  /\ normal = take (length normal - k) normal ++ buildLiteTail normal n
  /\ ((n <= 0)%Z -> buildLiteTail normal n = buildLiteTail normal 100).
Proof.
  cbv zeta. rewrite buildLiteTail_drop.
  split; [| split; [| split]].
  - rewrite length_drop. lia.
  - reflexivity.
  - symmetry. apply take_drop.
  - intros Hn. rewrite buildLiteTail_drop.
    destruct (Z.leb_spec n 0); [reflexivity | lia].
Qed.

Lemma C8_witness :
  buildLiteTail [str "a"; str "b"; str "c"] (-2)
  = buildLiteTail [str "a"; str "b"; str "c"] 100.
Proof.
  apply (proj2 (proj2 (proj2 (C8_buildLiteTail [str "a"; str "b"; str "c"] (-2))))).
  lia.
Defined.

(** ** White-space trimming *)

Section TrimFront.
Variable sp2 : ascii -> ascii -> bool.
Variable sp3 : ascii -> ascii -> ascii -> bool.

Lemma spaceWidth_le s : spaceWidth sp2 sp3 s <= length s.
Proof.
  destruct s as [|c1 [|c2 [|c3 r]]]; simpl;
    repeat (match goal with |- context [if ?b then _ else _] => destruct b end);
    lia.
Qed.

Lemma trimFront_unfold s :
  trimFront sp2 sp3 s
  = match spaceWidth sp2 sp3 s with
    | O => s
    | w => trimFront sp2 sp3 (drop w s)
    end.
Proof.
  destruct s as [|c1 r1]; simpl; [reflexivity |].
  destruct (asciiSpace c1); [reflexivity |].
  destruct r1 as [|c2 r2]; [reflexivity |].
  destruct (sp2 c1 c2); [reflexivity |].
  destruct r2 as [|c3 r3]; [reflexivity |].
  destruct (sp3 c1 c2 c3); reflexivity.
Qed.

(** Induction along the runes [trimFront] removes. *)
Lemma trimFront_ind (P : list ascii -> list ascii -> Prop) :
  (forall s, spaceWidth sp2 sp3 s = 0 -> P s s) ->
  (forall s t, spaceWidth sp2 sp3 s <> 0 ->
               P (drop (spaceWidth sp2 sp3 s) s) t -> P s t) ->
  forall s, P s (trimFront sp2 sp3 s).
Proof.
  intros Hstop Hstep s.
  remember (length s) as n eqn:Hn. revert s Hn.
  induction n as [n IH] using lt_wf_ind. intros s ->.
  rewrite trimFront_unfold.
  destruct (spaceWidth sp2 sp3 s) as [|w] eqn:Hw.
  - apply Hstop, Hw.
  - apply Hstep; [lia |]. rewrite Hw.
    apply (IH (length (drop (S w) s))); [| reflexivity].
    pose proof (spaceWidth_le s). rewrite length_drop. lia.
Qed.

Lemma spaceWidth_trimFront s : spaceWidth sp2 sp3 (trimFront sp2 sp3 s) = 0.
Proof.
  apply (trimFront_ind (fun _ t => spaceWidth sp2 sp3 t = 0)); auto.
Qed.

Lemma trimFront_fixed s : spaceWidth sp2 sp3 s = 0 -> trimFront sp2 sp3 s = s.
Proof. intros H. rewrite trimFront_unfold, H. reflexivity. Qed.

Lemma trimFront_suffix s : exists p, s = p ++ trimFront sp2 sp3 s.
Proof.
  apply (trimFront_ind (fun s t => exists p, s = p ++ t)).
  - intros s0 _. exists []. reflexivity.
  - intros s0 t _ [p Hp]. exists (take (spaceWidth sp2 sp3 s0) s0 ++ p).
    rewrite <- app_assoc, <- Hp. symmetry. apply take_drop.
Qed.

Lemma spaceWidth_prefix p q :
  spaceWidth sp2 sp3 (p ++ q) = 0 -> spaceWidth sp2 sp3 p = 0.
Proof.
  destruct p as [|c1 [|c2 [|c3 r]]]; simpl; try reflexivity;
    destruct (asciiSpace c1); try discriminate; try reflexivity.
  - destruct (sp2 c1 c2); [discriminate | reflexivity].
  - destruct (sp2 c1 c2); try discriminate.
    destruct (sp3 c1 c2 c3); [discriminate | reflexivity].
Qed.

Lemma trimFront_idemp s :
  trimFront sp2 sp3 (trimFront sp2 sp3 s) = trimFront sp2 sp3 s.
Proof. apply trimFront_fixed, spaceWidth_trimFront. Qed.
End TrimFront.

Lemma TrimRightSpace_prefix s : exists w, s = TrimRightSpace s ++ w.
Proof.
  unfold TrimRightSpace.
  destruct (trimFront_suffix (fun c1 c2 => space2 c2 c1)
              (fun c1 c2 c3 => space3 c3 c2 c1) (rev s)) as [p Hp].
  exists (rev p). rewrite <- rev_app_distr, <- Hp. symmetry. apply rev_involutive.
Qed.

Lemma TrimRightSpace_idemp s : TrimRightSpace (TrimRightSpace s) = TrimRightSpace s.
Proof.
  unfold TrimRightSpace. rewrite rev_involutive, trimFront_idemp. reflexivity.
Qed.

Lemma TrimSpace_idemp s : TrimSpace (TrimSpace s) = TrimSpace s.
Proof.
  unfold TrimSpace.
  destruct (TrimRightSpace_prefix (TrimLeftSpace s)) as [w Hw].
  assert (Hfix : TrimLeftSpace (TrimRightSpace (TrimLeftSpace s))
                 = TrimRightSpace (TrimLeftSpace s)).
  { unfold TrimLeftSpace at 1. apply trimFront_fixed.
    apply spaceWidth_prefix with (q := w). rewrite <- Hw.
    apply spaceWidth_trimFront. }
  rewrite Hfix. apply TrimRightSpace_idemp.
Qed.

Lemma isEmpty_false (s : list ascii) : isEmpty s = false <-> s <> [].
Proof. destruct s; simpl; split; congruence. Qed.

(** ** The de-duplicator *)

Lemma firstOccurrences_elem (l : list (list ascii)) x :
  x ∈ firstOccurrences l <-> x ∈ l.
Proof.
  induction l as [|y r IH]; simpl; [reflexivity |].
  rewrite !elem_of_cons, list_elem_of_filter, IH.
  destruct (decide (x = y)); tauto.
Qed.

Lemma firstOccurrences_NoDup (l : list (list ascii)) : NoDup (firstOccurrences l).
Proof.
  induction l as [|y r IH]; simpl; [constructor |].
  apply NoDup_cons. split.
  - rewrite list_elem_of_filter. tauto.
  - apply NoDup_filter, IH.
Qed.

Lemma filter_eq_app_cons {A} (P : A -> Prop) `{HP : !forall x, Decision (P x)}
    (l p q : list A) x :
  filter P l = p ++ x :: q ->
  exists p0 q0, l = p0 ++ x :: q0 /\ filter P p0 = p /\ filter P q0 = q.
Proof.
  revert p. induction l as [|y r IH]; intros p H.
  - destruct p; discriminate.
  - rewrite filter_cons in H. destruct (decide (P y)) as [Hy|Hy].
    + destruct p as [|z p']; simpl in H; injection H as Hhd Htl; subst y.
      * exists [], r. rewrite filter_nil. auto.
      * destruct (IH _ Htl) as (p0 & q0 & -> & <- & <-).
        exists (z :: p0), q0. rewrite filter_cons_True by assumption. auto.
    + destruct (IH _ H) as (p0 & q0 & -> & <- & <-).
      exists (y :: p0), q0. rewrite filter_cons_False by assumption. auto.
Qed.

(** An element of the result stands where it first occurs: what comes
    before it in the result occurs before its first occurrence. *)
Lemma firstOccurrences_order (l pre post : list (list ascii)) x :
  firstOccurrences l = pre ++ x :: post ->
  exists lpre lpost,
    l = lpre ++ x :: lpost /\ (x ∉ lpre) /\ (forall y, y ∈ pre -> y ∈ lpre).
Proof.
  revert pre post. induction l as [|a r IH]; intros pre post H; simpl in H.
  - destruct pre; discriminate.
  - destruct pre as [|b pre']; simpl in H; injection H as Hhd H; subst a.
    + exists [], r. split; [reflexivity |]. split; [apply not_elem_of_nil |].
      intros y Hy. exact Hy.
    + destruct (filter_eq_app_cons _ _ _ _ _ H) as (p0 & q0 & Hr & Hp & _).
      destruct (IH _ _ Hr) as (lpre & lpost & -> & Hx & Hsub).
      assert (Hxb : x ≠ b).
      { assert (Hin : x ∈ filter (fun y => y ≠ b)
                              (firstOccurrences (lpre ++ x :: lpost))).
        { rewrite H. apply elem_of_app. right. apply elem_of_cons. auto. }
        apply list_elem_of_filter in Hin. tauto. }
      exists (b :: lpre), lpost. split; [reflexivity |]. split.
      * rewrite elem_of_cons. tauto.
      * intros y Hy. apply elem_of_cons in Hy as [-> | Hy];
          [apply elem_of_cons; auto |].
        apply elem_of_cons. right. apply Hsub.
        rewrite <- Hp in Hy. apply list_elem_of_filter in Hy. tauto.
Qed.

Lemma dedupe_fold (l : list (list ascii)) seen out :
  (forall k, k ∈ seen <-> k ∈ out) ->
  snd (fold_left dedupeStep l (seen, out))
  = out ++ filter (fun k => k ∉ out)
             (firstOccurrences (filter (fun k => k ≠ []) (TrimSpace <$> l))).
Proof.
  revert seen out. induction l as [|s r IH]; intros seen out Hseen.
  - simpl. rewrite app_nil_r. reflexivity.
  - simpl fold_left. rewrite fmap_cons, filter_cons.
    destruct (isEmpty (TrimSpace s)) eqn:He.
    + destruct (TrimSpace s); [| discriminate].
      rewrite decide_False by tauto. apply IH, Hseen.
    + apply isEmpty_false in He. rewrite decide_True by assumption.
      simpl firstOccurrences. rewrite filter_cons.
      destruct (bool_decide (TrimSpace s ∈ seen)) eqn:Hin.
      * apply bool_decide_eq_true in Hin. apply Hseen in Hin.
        rewrite decide_False by tauto.
        rewrite IH by assumption. f_equal.
        rewrite list_filter_filter. apply list_filter_iff.
        intros y. split; [| tauto]. intros Hy. split; [exact Hy |].
        intros ->. tauto.
      * apply bool_decide_eq_false in Hin.
        assert (Hout : TrimSpace s ∉ out) by (rewrite <- Hseen; exact Hin).
        rewrite decide_True by assumption.
        rewrite IH.
        2:{ intros k. rewrite elem_of_union, elem_of_singleton, elem_of_app,
              list_elem_of_singleton, Hseen. tauto. }
        rewrite <- app_assoc. simpl. f_equal. f_equal.
        rewrite list_filter_filter. apply list_filter_iff.
        intros y. rewrite elem_of_app, list_elem_of_singleton. tauto.
Qed.

Lemma dedupe_firstOccurrences (l : list (list ascii)) :
  dedupe l = firstOccurrences (filter (fun k => k ≠ []) (TrimSpace <$> l)).
Proof.
  unfold dedupe. rewrite dedupe_fold by set_solver. simpl.
  induction (firstOccurrences _) as [|y t IHt]; [reflexivity |].
  rewrite filter_cons_True by apply not_elem_of_nil. f_equal. exact IHt.
Qed.

Lemma dedupe_elem (l : list (list ascii)) k :
  k ∈ dedupe l <-> k ≠ [] /\ exists s, s ∈ l /\ TrimSpace s = k.
Proof.
  rewrite dedupe_firstOccurrences, firstOccurrences_elem, list_elem_of_filter,
    list_elem_of_fmap.
  split.
  - intros [Hne (s & Hk & Hs)]. split; [exact Hne |]. exists s. auto.
  - intros [Hne (s & Hs & Hk)]. split; [exact Hne |]. exists s. auto.
Qed.

(** C7: the entries of the result are trimmed, not empty and pairwise
    different, also after trimming; they are the trimmed, non-empty inputs;
    and they stand in the order of their first occurrences in the input. *)
Theorem C7_dedupe (l : list (list ascii)) :
  let trimmed := filter (fun k => k ≠ []) (TrimSpace <$> l) in
  NoDup (TrimSpace <$> dedupe l)
  /\ (forall k, k ∈ dedupe l <-> k ∈ trimmed)
  /\ dedupe l = firstOccurrences trimmed
  /\ (forall pre x post, dedupe l = pre ++ x :: post ->
        exists lpre lpost,
          trimmed = lpre ++ x :: lpost /\ (x ∉ lpre)
          /\ (forall y, y ∈ pre -> y ∈ lpre)).
Proof.
  cbv zeta. split; [| split; [| split]].
  - assert (Hid : TrimSpace <$> dedupe l = dedupe l).
    { rewrite <- (list_fmap_id (dedupe l)) at 2. apply list_fmap_ext.
      intros i k Hk. apply list_elem_of_lookup_2, dedupe_elem in Hk.
      destruct Hk as (_ & s & _ & <-). apply TrimSpace_idemp. }
    rewrite Hid, dedupe_firstOccurrences. apply firstOccurrences_NoDup.
  - intros k. rewrite dedupe_firstOccurrences. apply firstOccurrences_elem.
  - apply dedupe_firstOccurrences.
  - intros pre x post H. rewrite dedupe_firstOccurrences in H.
    apply (firstOccurrences_order _ _ _ _ H).
Qed.

Lemma C7_dedupe_witness :
  dedupe [str " b "; str "a"; str "  "; str "b"; str "a "] = [str "b"; str "a"]
  /\ exists lpre lpost,
       filter (fun k => k ≠ [])
         (TrimSpace <$> [str " b "; str "a"; str "  "; str "b"; str "a "])
       = lpre ++ str "a" :: lpost
       /\ (str "a" ∉ lpre) /\ (forall y, y ∈ [str "b"] -> y ∈ lpre).
Proof.
  split; [vm_compute; reflexivity |].
  apply (proj2 (proj2 (proj2 (C7_dedupe
    [str " b "; str "a"; str "  "; str "b"; str "a "]))) [str "b"] (str "a") []).
  vm_compute. reflexivity.
Defined.

(** ** Prefixes and substrings *)

Lemma HasPrefix_spec (s p : list ascii) :
  HasPrefix s p = true <-> exists post, s = p ++ post.
Proof.
  revert s. induction p as [|c p IH]; intros s; simpl.
  - split; [intros _; exists s; reflexivity | reflexivity].
  - destruct s as [|d s]; [split; [discriminate | intros [post H]; discriminate H] |].
    rewrite andb_true_iff, IH. split.
    + intros [E%Ascii.eqb_eq [post ->]]. subst d. exists post. reflexivity.
    + intros [post [= -> ->]]. split; [apply Ascii.eqb_refl | exists post; reflexivity].
Qed.

Lemma HasPrefix_app (p post : list ascii) : HasPrefix (p ++ post) p = true.
Proof. apply HasPrefix_spec. exists post. reflexivity. Qed.

(** [Index] finds an occurrence, and the first one. *)
Lemma Index_Some (s sub : list ascii) i :
  Index s sub = Some i ->
  i <= length s
  /\ HasPrefix (drop i s) sub = true
  /\ forall j, j < i -> HasPrefix (drop j s) sub = false.
Proof.
  revert i. induction s as [|c r IH]; intros i; simpl.
  - destruct (HasPrefix [] sub) eqn:E; [| discriminate].
    intros [= <-]. split; [lia |]. split; [exact E | intros j Hj; lia].
  - destruct (HasPrefix (c :: r) sub) eqn:E.
    + intros [= <-]. split; [lia |]. split; [exact E | intros j Hj; lia].
    + destruct (Index r sub) as [k|]; [| discriminate]. simpl.
      intros [= <-]. destruct (IH k eq_refl) as (L & P & M).
      split; [lia |]. split; [exact P |].
      intros [|j] Hj; [exact E | apply M; lia].
Qed.

Lemma Index_None (s sub : list ascii) :
  Index s sub = None -> forall j, HasPrefix (drop j s) sub = false.
Proof.
  induction s as [|c r IH]; simpl.
  - destruct (HasPrefix [] sub) eqn:E; [discriminate |].
    intros _ j. rewrite drop_nil. exact E.
  - destruct (HasPrefix (c :: r) sub) eqn:E; [discriminate |].
    destruct (Index r sub); [discriminate |]. intros _ [|j]; [exact E |].
    apply IH. reflexivity.
Qed.

Lemma Contains_spec (s sub : list ascii) :
  Contains s sub = true <-> exists pre post, s = pre ++ sub ++ post.
Proof.
  unfold Contains. split.
  - destruct (Index s sub) as [i|] eqn:E; [| discriminate]. intros _.
    destruct (Index_Some _ _ _ E) as (_ & P & _).
    apply HasPrefix_spec in P as [post P].
    exists (take i s), post. rewrite <- P. symmetry. apply take_drop.
  - intros (pre & post & ->).
    destruct (Index (pre ++ sub ++ post) sub) eqn:E; [reflexivity |].
    pose proof (Index_None _ _ E (length pre)) as N.
    rewrite drop_app_length, HasPrefix_app in N. discriminate N.
Qed.

Lemma lowerASCII_app (s t : list ascii) : lowerASCII (s ++ t) = lowerASCII s ++ lowerASCII t.
Proof. apply List.map_app. Qed.

Lemma lowerASCII_length (s : list ascii) : length (lowerASCII s) = length s.
Proof. apply List.length_map. Qed.

Lemma lowerASCII_split (s u v : list ascii) :
  lowerASCII s = u ++ v ->
  exists s1 s2, s = s1 ++ s2 /\ lowerASCII s1 = u /\ lowerASCII s2 = v.
Proof.
  intros H. exists (take (length u) s), (drop (length u) s).
  split; [symmetry; apply take_drop |].
  unfold lowerASCII in *. rewrite <- firstn_map, <- skipn_map, H.
  rewrite take_app_length, drop_app_length. auto.
Qed.

Lemma Contains_lowerASCII (s marker : list ascii) :
  Contains (lowerASCII s) marker = true <-> occursFolded marker s.
Proof.
  rewrite Contains_spec. split.
  - intros (pre & post & H).
    apply lowerASCII_split in H as (s1 & s2 & -> & _ & H).
    apply lowerASCII_split in H as (m & s3 & -> & H & _).
    exists s1, m, s3. auto.
  - intros (pre & m & post & -> & <-).
    exists (lowerASCII pre), (lowerASCII post). rewrite !lowerASCII_app. reflexivity.
Qed.

Lemma looksLikeProxyList_spec (dec : list ascii) :
  looksLikeProxyList dec = true
  <-> occursFolded (str "vless://") dec \/ occursFolded (str "vmess://") dec
      \/ occursFolded (str "ss://") dec.
Proof.
  unfold looksLikeProxyList. cbv zeta.
  rewrite !orb_true_iff, !Contains_lowerASCII. tauto.
Qed.

(** ** Letter case *)

Lemma lowerByte_cases (c : ascii) :
  (isLetter c = true /\ isLetter (lowerByte c) = true)
  \/ (isLetter c = false /\ lowerByte c = c).
Proof.
  destruct c as [[] [] [] [] [] [] [] []];
    first [left; split; reflexivity | right; split; reflexivity].
Qed.

Lemma lowerByte_idemp (c : ascii) : lowerByte (lowerByte c) = lowerByte c.
Proof. destruct c as [[] [] [] [] [] [] [] []]; reflexivity. Qed.

(** A byte that is not a letter is neither changed nor produced. *)
Lemma eqb_lowerByte (k d : ascii) :
  isLetter k = false -> Ascii.eqb k (lowerByte d) = Ascii.eqb k d.
Proof.
  intros Hk. destruct (lowerByte_cases d) as [[H1 H2] | [_ ->]]; [| reflexivity].
  destruct (Ascii.eqb_spec k (lowerByte d)) as [-> | _]; [congruence |].
  destruct (Ascii.eqb_spec k d) as [-> | _]; [congruence | reflexivity].
Qed.

Lemma lowerByte_eqb (k d : ascii) :
  isLetter k = false -> Ascii.eqb (lowerByte d) k = Ascii.eqb d k.
Proof. intros Hk. rewrite !(Ascii.eqb_sym _ k). apply eqb_lowerByte, Hk. Qed.

Lemma lowerByte_high (d : ascii) :
  (("128" <=? lowerByte d) && (lowerByte d <=? "138"))%char
  = (("128" <=? d) && (d <=? "138"))%char.
Proof. destruct d as [[] [] [] [] [] [] [] []]; reflexivity. Qed.

Lemma lowerASCII_idemp (s : list ascii) : lowerASCII (lowerASCII s) = lowerASCII s.
Proof.
  unfold lowerASCII. rewrite List.map_map. apply List.map_ext, lowerByte_idemp.
Qed.

Lemma HasPrefix_lowerASCII (s p : list ascii) :
  forallb (fun k => negb (isLetter k)) p = true ->
  HasPrefix (lowerASCII s) p = HasPrefix s p.
Proof.
  revert s. induction p as [|k p IH]; intros s Hp; [reflexivity |].
  simpl in Hp. apply andb_true_iff in Hp as [Hk Hp].
  apply negb_true_iff in Hk.
  destruct s as [|d s]; [reflexivity |]. simpl.
  rewrite (eqb_lowerByte _ _ Hk), (IH _ Hp). reflexivity.
Qed.

Lemma Index_lowerASCII (s p : list ascii) :
  forallb (fun k => negb (isLetter k)) p = true ->
  Index (lowerASCII s) p = Index s p.
Proof.
  intros Hp. induction s as [|d s IH].
  - reflexivity.
  - change (lowerASCII (d :: s)) with (lowerByte d :: lowerASCII s).
    simpl. change (lowerByte d :: lowerASCII s) with (lowerASCII (d :: s)).
    rewrite (HasPrefix_lowerASCII _ p Hp), IH. reflexivity.
Qed.

Lemma asciiSpace_lowerByte (c : ascii) : asciiSpace (lowerByte c) = asciiSpace c.
Proof. unfold asciiSpace. rewrite !lowerByte_eqb; reflexivity. Qed.

Lemma reSpace_lowerByte (c : ascii) : reSpace (lowerByte c) = reSpace c.
Proof. unfold reSpace. rewrite !lowerByte_eqb; reflexivity. Qed.

Lemma space2_lowerByte (c1 c2 : ascii) :
  space2 (lowerByte c1) (lowerByte c2) = space2 c1 c2.
Proof. unfold space2. rewrite !lowerByte_eqb; reflexivity. Qed.

Lemma space3_lowerByte (c1 c2 c3 : ascii) :
  space3 (lowerByte c1) (lowerByte c2) (lowerByte c3) = space3 c1 c2 c3.
Proof. unfold space3. rewrite lowerByte_high, !lowerByte_eqb; reflexivity. Qed.

Section TrimFold.
Variable sp2 : ascii -> ascii -> bool.
Variable sp3 : ascii -> ascii -> ascii -> bool.
Hypothesis sp2_lower :
  forall c1 c2, sp2 (lowerByte c1) (lowerByte c2) = sp2 c1 c2.
Hypothesis sp3_lower :
  forall c1 c2 c3, sp3 (lowerByte c1) (lowerByte c2) (lowerByte c3) = sp3 c1 c2 c3.

Lemma spaceWidth_lowerASCII (s : list ascii) :
  spaceWidth sp2 sp3 (lowerASCII s) = spaceWidth sp2 sp3 s.
Proof.
  destruct s as [|c1 [|c2 [|c3 r]]]; simpl;
    rewrite ?asciiSpace_lowerByte, ?sp2_lower, ?sp3_lower; reflexivity.
Qed.

Lemma trimFront_lowerASCII (s : list ascii) :
  trimFront sp2 sp3 (lowerASCII s) = lowerASCII (trimFront sp2 sp3 s).
Proof.
  apply (trimFront_ind sp2 sp3
           (fun s t => trimFront sp2 sp3 (lowerASCII s) = lowerASCII t)).
  - intros s0 H. apply trimFront_fixed. rewrite spaceWidth_lowerASCII. exact H.
  - intros s0 t Hw IH. rewrite trimFront_unfold, spaceWidth_lowerASCII.
    destruct (spaceWidth sp2 sp3 s0) as [|w] eqn:E; [contradiction Hw; reflexivity |].
    unfold lowerASCII in *. rewrite skipn_map. exact IH.
Qed.
End TrimFold.

Lemma TrimSpace_lowerASCII (s : list ascii) :
  TrimSpace (lowerASCII s) = lowerASCII (TrimSpace s).
Proof.
  unfold TrimSpace, TrimRightSpace, TrimLeftSpace.
  rewrite (trimFront_lowerASCII space2 space3 space2_lowerByte space3_lowerByte).
  unfold lowerASCII at 1. rewrite <- List.map_rev.
  fold (lowerASCII (rev (trimFront space2 space3 s))).
  rewrite (trimFront_lowerASCII (fun c1 c2 => space2 c2 c1)
             (fun c1 c2 c3 => space3 c3 c2 c1)
             (fun c1 c2 => space2_lowerByte c2 c1)
             (fun c1 c2 c3 => space3_lowerByte c3 c2 c1)).
  unfold lowerASCII. rewrite List.map_rev. reflexivity.
Qed.

Lemma skipReSpace_lowerASCII (s : list ascii) :
  skipReSpace (lowerASCII s) = lowerASCII (skipReSpace s).
Proof.
  induction s as [|c s IH]; [reflexivity |]. simpl.
  rewrite reSpace_lowerByte. destruct (reSpace c); [exact IH | reflexivity].
Qed.

Lemma noLF_lowerASCII (s : list ascii) :
  forallb (fun c => negb (Ascii.eqb c LF)) (lowerASCII s)
  = forallb (fun c => negb (Ascii.eqb c LF)) s.
Proof.
  induction s as [|c s IH]; [reflexivity |]. simpl.
  rewrite lowerByte_eqb by reflexivity. rewrite IH. reflexivity.
Qed.

Lemma reCommentLine_lowerASCII (s : list ascii) :
  reCommentLine (lowerASCII s) = reCommentLine s.
Proof.
  unfold reCommentLine. cbv zeta. rewrite skipReSpace_lowerASCII.
  rewrite !HasPrefix_lowerASCII by reflexivity. rewrite noLF_lowerASCII. reflexivity.
Qed.

Lemma isEmpty_lowerASCII (s : list ascii) : isEmpty (lowerASCII s) = isEmpty s.
Proof. destruct s; reflexivity. Qed.

(** ** Lower-casing rune by rune *)

Lemma decode_ascii (c : ascii) (t : list ascii) :
  (c <? "128")%char = true -> DecodeRuneInString (c :: t) = (byteVal c, 1).
Proof. intros H. unfold DecodeRuneInString, runeLen. rewrite H. reflexivity. Qed.

(** An ASCII rune is written as the byte the byte loop gives. *)
Lemma out_ascii {tbl : CaseTable} (c : ascii) :
  (c <? "128")%char = true ->
  (if (0 <=? unicodeToLower (byteVal c))%Z
   then AppendRune (unicodeToLower (byteVal c)) else []) = [lowerByte c].
Proof.
  destruct c as [[] [] [] [] [] [] [] []]; intros H;
    first [discriminate H | reflexivity].
Qed.

Lemma Map_ascii_head {tbl : CaseTable} (c : ascii) (t : list ascii) :
  (c <? "128")%char = true ->
  Map unicodeToLower (c :: t) = lowerByte c :: Map unicodeToLower t.
Proof.
  intros H. unfold Map. cbn [mapFrom]. rewrite (decode_ascii c t H).
  rewrite (out_ascii c H). reflexivity.
Qed.

Lemma Map_lowerASCII {tbl : CaseTable} (s : list ascii) :
  isASCII s = true -> Map unicodeToLower s = lowerASCII s.
Proof.
  induction s as [|c s IH]; [reflexivity |]. simpl.
  intros [Hc Hs]%andb_true_iff. rewrite (Map_ascii_head c s Hc), (IH Hs).
  reflexivity.
Qed.

(** The byte loop is a short cut: [strings.ToLower] is [Map] on every
    text. *)
Lemma ToLower_Map {tbl : CaseTable} (s : list ascii) :
  ToLower s = Map unicodeToLower s.
Proof.
  unfold ToLower. destruct (isASCII s) eqn:E; [| reflexivity].
  symmetry. apply Map_lowerASCII, E.
Qed.

Lemma ToLower_isASCII {tbl : CaseTable} (s : list ascii) :
  isASCII s = true -> ToLower s = lowerASCII s.
Proof. intros H. unfold ToLower. rewrite H. reflexivity. Qed.

Lemma ToLower_ascii_head {tbl : CaseTable} (h t : list ascii) :
  isASCII h = true -> ToLower (h ++ t) = lowerASCII h ++ ToLower t.
Proof.
  rewrite !ToLower_Map. induction h as [|c h IH]; [reflexivity |]. simpl.
  intros [Hc Hh]%andb_true_iff.
  rewrite (Map_ascii_head c (h ++ t) Hc), (IH Hh). reflexivity.
Qed.

(** An ASCII byte is no continuation byte. *)
Lemma ascii_between (lo hi a : ascii) :
  (a <? "128")%char = true -> ("128" <=? lo)%char = true -> between lo hi a = false.
Proof.
  unfold between, Ascii.ltb, Ascii.leb. intros Ha Hlo.
  apply andb_false_iff. left.
  apply N.ltb_lt in Ha. apply N.leb_le in Hlo. apply N.leb_gt. simpl in *. lia.
Qed.

Lemma ascii_acceptSecond (s0 a : ascii) :
  (a <? "128")%char = true -> acceptSecond s0 a = false.
Proof.
  intros Ha. unfold acceptSecond.
  repeat match goal with |- context [if ?b then _ else _] => destruct b end;
    apply ascii_between; auto.
Qed.

Lemma ascii_continuation (a : ascii) :
  (a <? "128")%char = true -> continuation a = false.
Proof. intros Ha. apply ascii_between; auto. Qed.

(** A rune does not reach over an ASCII byte: decoding before one gives
    what decoding the text cut there gives. *)
Lemma decode_before_ascii (c a : ascii) (p t : list ascii) :
  (a <? "128")%char = true ->
  DecodeRuneInString (c :: p ++ a :: t) = DecodeRuneInString (c :: p)
  /\ snd (DecodeRuneInString (c :: p)) - 1 <= length p.
Proof.
  intros Ha. unfold DecodeRuneInString.
  pose proof (ascii_acceptSecond c a Ha) as A2.
  pose proof (ascii_continuation a Ha) as A3.
  destruct (runeLen c) as [|[|[|[|[|n]]]]]; try (split; [reflexivity | simpl; lia]).
  - destruct p as [|s1 p]; simpl.
    + rewrite A2. split; [reflexivity | simpl; lia].
    + destruct (acceptSecond c s1); split; try reflexivity; simpl; lia.
  - destruct p as [|s1 [|s2 p]]; simpl.
    + destruct t; [| rewrite A2]; split; try reflexivity; simpl; lia.
    + rewrite A3, andb_false_r. split; [reflexivity | simpl; lia].
    + destruct (acceptSecond c s1 && continuation s2); split; try reflexivity;
        simpl; lia.
  - destruct p as [|s1 [|s2 [|s3 p]]]; simpl.
    + destruct t as [|? [|? ?]]; rewrite ?A2; split; try reflexivity; simpl; lia.
    + destruct t; rewrite ?A3, ?andb_false_r; split; try reflexivity; simpl; lia.
    + rewrite A3, andb_false_r. split; [reflexivity | simpl; lia].
    + destruct (acceptSecond c s1 && continuation s2 && continuation s3);
        split; try reflexivity; simpl; lia.
Qed.

Lemma mapFrom_before_ascii (f : Z -> Z) (a : ascii) (p t : list ascii) (skip : nat) :
  (a <? "128")%char = true -> skip <= length p ->
  mapFrom f skip (p ++ a :: t) = mapFrom f skip p ++ mapFrom f 0 (a :: t).
Proof.
  intros Ha. revert skip. induction p as [|c p IH]; intros skip Hs.
  - destruct skip; [reflexivity | simpl in Hs; lia].
  - destruct skip as [|k].
    + change ((c :: p) ++ a :: t) with (c :: p ++ a :: t).
      cbn [mapFrom].
      destruct (decode_before_ascii c a p t Ha) as [-> Hw].
      destruct (DecodeRuneInString (c :: p)) as [r w]. simpl in Hw.
      rewrite (IH _ Hw), app_assoc. reflexivity.
    + simpl. apply IH. simpl in Hs. lia.
Qed.

(** Lower-casing goes through at an ASCII byte, whatever stands before and
    after it. *)
Lemma ToLower_at_ascii {tbl : CaseTable} (a : ascii) (p t : list ascii) :
  (a <? "128")%char = true ->
  ToLower (p ++ a :: t) = ToLower p ++ lowerByte a :: ToLower t.
Proof.
  intros Ha. rewrite !ToLower_Map. unfold Map.
  rewrite (mapFrom_before_ascii _ a p t 0 Ha) by lia.
  f_equal. apply (Map_ascii_head a t Ha).
Qed.

(** The lower case of a text that holds "://" at [idx]: the lower case of
    what stands before, "://", and the lower case of what follows. *)
Lemma ToLower_separator {tbl : CaseTable} (s : list ascii) (idx : nat) :
  HasPrefix (drop idx s) (str "://") = true ->
  ToLower s = ToLower (take idx s) ++ str "://" ++ ToLower (drop (idx + 3) s).
Proof.
  intros [post Hpost]%HasPrefix_spec.
  assert (Hd : drop (idx + 3) s = post)
    by (rewrite <- drop_drop, Hpost; reflexivity).
  assert (E : s = take idx s ++ ":"%char :: (str "//" ++ post))
    by (rewrite <- (take_drop idx s) at 1; rewrite Hpost; reflexivity).
  rewrite Hd, E at 1.
  rewrite ToLower_at_ascii by reflexivity.
  rewrite (ToLower_ascii_head (str "//") post eq_refl). reflexivity.
Qed.

(** *** Texts that differ in the case of ASCII letters *)

Lemma lowerByte_same (x y : ascii) :
  lowerByte x = lowerByte y ->
  x = y \/ ((x <? "128")%char = true /\ (y <? "128")%char = true).
Proof.
  assert (Hlet : forall c, isLetter c = true -> (c <? "128")%char = true).
  { intros c. destruct c as [[] [] [] [] [] [] [] []]; vm_compute; auto. }
  intros E.
  destruct (lowerByte_cases x) as [[Hx Hx'] | [Hx Ex]],
           (lowerByte_cases y) as [[Hy Hy'] | [Hy Ey]].
  - right. auto.
  - rewrite E, Ey in Hx'. congruence.
  - rewrite <- E, Ex in Hy'. congruence.
  - left. congruence.
Qed.

Lemma decode_caseless (c1 c2 : ascii) (p1 p2 : list ascii) :
  lowerASCII (c1 :: p1) = lowerASCII (c2 :: p2) ->
  ((c1 <? "128")%char = true /\ (c2 <? "128")%char = true)
  \/ DecodeRuneInString (c1 :: p1) = DecodeRuneInString (c2 :: p2).
Proof.
  intros E. injection E as Ec Ep.
  destruct (lowerByte_same _ _ Ec) as [<- | ?]; [| left; assumption].
  right. unfold DecodeRuneInString.
  assert (Hsame : forall x y, lowerByte x = lowerByte y ->
            acceptSecond c1 x = acceptSecond c1 y
            /\ continuation x = continuation y
            /\ (acceptSecond c1 x = true \/ continuation x = true -> x = y)).
  { intros x y Exy. destruct (lowerByte_same _ _ Exy) as [<- | [Hx Hy]]; [auto |].
    rewrite !ascii_acceptSecond, !ascii_continuation by assumption.
    split; [reflexivity |]. split; [reflexivity |]. intros [? | ?]; discriminate. }
  destruct (runeLen c1) as [|[|[|[|[|n]]]]]; try reflexivity.
  - destruct p1 as [|x1 p1], p2 as [|y1 p2]; try discriminate Ep; [reflexivity |].
    injection Ep as E1 Ep. destruct (Hsame _ _ E1) as (A1 & _ & I1).
    rewrite <- A1. destruct (acceptSecond c1 x1) eqn:T1; [| reflexivity].
    rewrite <- (I1 (or_introl eq_refl)). reflexivity.
  - destruct p1 as [|x1 [|x2 p1]], p2 as [|y1 [|y2 p2]]; try discriminate Ep;
      try reflexivity.
    injection Ep as E1 E2 Ep.
    destruct (Hsame _ _ E1) as (A1 & _ & I1), (Hsame _ _ E2) as (_ & B2 & I2).
    rewrite <- A1, <- B2.
    destruct (acceptSecond c1 x1) eqn:T1; [| reflexivity].
    destruct (continuation x2) eqn:T2; [| reflexivity]. simpl.
    rewrite <- (I1 (or_introl eq_refl)), <- (I2 (or_intror eq_refl)). reflexivity.
  - destruct p1 as [|x1 [|x2 [|x3 p1]]], p2 as [|y1 [|y2 [|y3 p2]]];
      try discriminate Ep; try reflexivity.
    injection Ep as E1 E2 E3 Ep.
    destruct (Hsame _ _ E1) as (A1 & _ & I1), (Hsame _ _ E2) as (_ & B2 & I2),
             (Hsame _ _ E3) as (_ & B3 & I3).
    rewrite <- A1, <- B2, <- B3.
    destruct (acceptSecond c1 x1) eqn:T1; [| reflexivity].
    destruct (continuation x2) eqn:T2; [| reflexivity].
    destruct (continuation x3) eqn:T3; [| reflexivity]. simpl.
    rewrite <- (I1 (or_introl eq_refl)), <- (I2 (or_intror eq_refl)),
            <- (I3 (or_intror eq_refl)). reflexivity.
Qed.

Lemma mapFrom_caseless {tbl : CaseTable} (s1 s2 : list ascii) (skip : nat) :
  lowerASCII s1 = lowerASCII s2 ->
  mapFrom unicodeToLower skip s1 = mapFrom unicodeToLower skip s2.
Proof.
  revert s2 skip. induction s1 as [|c1 p1 IH]; intros [|c2 p2] skip E;
    try discriminate E; [reflexivity |].
  assert (Ep : lowerASCII p1 = lowerASCII p2) by (injection E; auto).
  assert (Ec : lowerByte c1 = lowerByte c2) by (injection E; auto).
  destruct skip as [|k]; [| simpl; apply IH, Ep].
  cbn [mapFrom].
  destruct (decode_caseless c1 c2 p1 p2 E) as [[H1 H2] | ->].
  - rewrite (decode_ascii c1 p1 H1), (decode_ascii c2 p2 H2).
    rewrite (out_ascii c1 H1), (out_ascii c2 H2), Ec, (IH _ _ Ep). reflexivity.
  - destruct (DecodeRuneInString (c2 :: p2)) as [r w].
    rewrite (IH _ _ Ep). reflexivity.
Qed.

(** Two texts that differ in the case of ASCII letters only have the same
    lower case. *)
Lemma ToLower_caseless {tbl : CaseTable} (s1 s2 : list ascii) :
  lowerASCII s1 = lowerASCII s2 -> ToLower s1 = ToLower s2.
Proof. intros E. rewrite !ToLower_Map. apply mapFrom_caseless, E. Qed.

Lemma ToLower_lowerASCII {tbl : CaseTable} (s : list ascii) :
  ToLower (lowerASCII s) = ToLower s.
Proof. apply ToLower_caseless, lowerASCII_idemp. Qed.

(** ** Base64 *)

Lemma decodeMap_encodeMap (s : sextet) : decodeMap (encodeMap s) = Some s.
Proof. destruct s as [[] [] [] [] [] []]; vm_compute; reflexivity. Qed.

Lemma join4_split3 (a b c : ascii) :
  (let '(s0, s1, s2, s3) := split3 a b c in join4 s0 s1 s2 s3) = (a, b, c).
Proof. destruct a, b, c. reflexivity. Qed.

Lemma decodeMap_class (c : ascii) v :
  decodeMap c = Some v -> b64Class c = true /\ isNewline c = false.
Proof.
  destruct c as [[] [] [] [] [] [] [] []]; vm_compute; intros H;
    first [discriminate H | split; reflexivity].
Qed.

Lemma isNewline_class (c : ascii) : isNewline c = true -> b64Class c = true.
Proof.
  unfold isNewline, b64Class. intros H. apply orb_true_iff in H as [H | H];
    rewrite H, ?orb_true_r; reflexivity.
Qed.

Lemma isNewline_decodeMap (c : ascii) : isNewline c = true -> decodeMap c = None.
Proof.
  intros H. destruct (decodeMap c) eqn:E; [| reflexivity].
  apply decodeMap_class in E. destruct E as [_ E]. congruence.
Qed.

Lemma list_ind3 {A} (P : list A -> Prop) :
  P [] -> (forall a, P [a]) -> (forall a b, P [a; b]) ->
  (forall a b c r, P r -> P (a :: b :: c :: r)) ->
  forall l, P l.
Proof.
  intros H0 H1 H2 H3.
  fix IH 1. intros [|a [|b [|c r]]];
    [apply H0 | apply H1 | apply H2 | apply H3, IH].
Qed.

Lemma decodeFrom_valid (c : ascii) v rest acc :
  decodeMap c = Some v ->
  decodeFrom (c :: rest) acc
  = match acc with
    | [s0; s1; s2] =>
        let '(a, b, d) := join4 s0 s1 s2 v in
        option_map (fun out => a :: b :: d :: out) (decodeFrom rest [])
    | _ => decodeFrom rest (acc ++ [v])
    end.
Proof. intros H. simpl. rewrite H. reflexivity. Qed.

Lemma decodeFrom_pad rest acc :
  decodeFrom (padChar :: rest) acc = finishPadding acc rest.
Proof. reflexivity. Qed.

Lemma EncodeToString_1 a0 a1 a2 a3 a4 a5 a6 a7 :
  EncodeToString [Ascii a0 a1 a2 a3 a4 a5 a6 a7]
  = [encodeMap (Sextet a7 a6 a5 a4 a3 a2);
     encodeMap (Sextet a1 a0 false false false false); padChar; padChar].
Proof. reflexivity. Qed.

Lemma EncodeToString_2 a0 a1 a2 a3 a4 a5 a6 a7 b0 b1 b2 b3 b4 b5 b6 b7 :
  EncodeToString [Ascii a0 a1 a2 a3 a4 a5 a6 a7; Ascii b0 b1 b2 b3 b4 b5 b6 b7]
  = [encodeMap (Sextet a7 a6 a5 a4 a3 a2);
     encodeMap (Sextet a1 a0 b7 b6 b5 b4);
     encodeMap (Sextet b3 b2 b1 b0 false false); padChar].
Proof. reflexivity. Qed.

Lemma EncodeToString_3 a0 a1 a2 a3 a4 a5 a6 a7 b0 b1 b2 b3 b4 b5 b6 b7
    c0 c1 c2 c3 c4 c5 c6 c7 r :
  EncodeToString (Ascii a0 a1 a2 a3 a4 a5 a6 a7 :: Ascii b0 b1 b2 b3 b4 b5 b6 b7
                    :: Ascii c0 c1 c2 c3 c4 c5 c6 c7 :: r)
  = encodeMap (Sextet a7 a6 a5 a4 a3 a2)
      :: encodeMap (Sextet a1 a0 b7 b6 b5 b4)
      :: encodeMap (Sextet b3 b2 b1 b0 c7 c6)
      :: encodeMap (Sextet c5 c4 c3 c2 c1 c0) :: EncodeToString r.
Proof. reflexivity. Qed.

(** Decoding undoes encoding. *)
Lemma DecodeString_EncodeToString (src : list ascii) :
  DecodeString (EncodeToString src) = Some src.
Proof.
  unfold DecodeString. induction src as [| a | a b | a b c r IH] using list_ind3.
  - reflexivity.
  - destruct a. rewrite EncodeToString_1.
    rewrite !(decodeFrom_valid _ _ _ _ (decodeMap_encodeMap _)).
    reflexivity.
  - destruct a, b. rewrite EncodeToString_2.
    rewrite !(decodeFrom_valid _ _ _ _ (decodeMap_encodeMap _)).
    reflexivity.
  - destruct a, b, c. rewrite EncodeToString_3.
    rewrite !(decodeFrom_valid _ _ _ _ (decodeMap_encodeMap _)).
    simpl app. cbv iota beta. unfold join4. rewrite IH. reflexivity.
Qed.

(** The alphabet characters of an encoding: no new line, never empty for a
    source that is not. *)
Lemma encodeMap_not_newline s : isNewline (encodeMap s) = false.
Proof. destruct s as [[] [] [] [] [] []]; reflexivity. Qed.

Lemma EncodeToString_no_newline (src : list ascii) :
  forallb (fun c => negb (isNewline c)) (EncodeToString src) = true.
Proof.
  induction src as [| a | a b | a b c r IH] using list_ind3.
  - reflexivity.
  - destruct a. rewrite EncodeToString_1. simpl.
    rewrite !encodeMap_not_newline. reflexivity.
  - destruct a, b. rewrite EncodeToString_2. simpl.
    rewrite !encodeMap_not_newline. reflexivity.
  - destruct a, b, c. rewrite EncodeToString_3. simpl.
    rewrite !encodeMap_not_newline. exact IH.
Qed.

(** *** The decoder skips new lines *)

Section DecodeSkipsNewlines.
Variable keep : ascii -> bool.
Hypothesis keep_newline : forall c, keep c = false -> isNewline c = true.

Lemma skipNewlines_filter (r : list ascii) :
  skipNewlines (List.filter keep r) = List.filter keep (skipNewlines r).
Proof.
  induction r as [|c r IH]; [reflexivity |]. simpl.
  destruct (keep c) eqn:K, (isNewline c) eqn:Nl; simpl; rewrite ?K, ?Nl;
    try assumption; try reflexivity.
  apply keep_newline in K. congruence.
Qed.

Lemma skipNewlines_head (r : list ascii) c r2 :
  skipNewlines r = c :: r2 -> isNewline c = false.
Proof.
  induction r as [|d r IH]; [discriminate |]. simpl.
  destruct (isNewline d) eqn:Nl; [exact IH |]. intros [= <- _]. exact Nl.
Qed.

Lemma filter_skipNewlines_nil (r : list ascii) :
  List.filter keep (skipNewlines r) = [] <-> skipNewlines r = [].
Proof.
  destruct (skipNewlines r) as [|c r2] eqn:E; [tauto |].
  apply skipNewlines_head in E. simpl.
  destruct (keep c) eqn:K; [split; discriminate |].
  apply keep_newline in K. congruence.
Qed.

Lemma finishPadding_filter acc (rest : list ascii) :
  finishPadding acc (List.filter keep rest) = finishPadding acc rest.
Proof.
  unfold finishPadding.
  destruct acc as [|s0 [|s1 [|s2 [|s3 acc]]]]; try reflexivity.
  - rewrite skipNewlines_filter.
    destruct (skipNewlines rest) as [|c r2] eqn:E; [reflexivity |].
    pose proof (skipNewlines_head _ _ _ E) as Nl. simpl.
    destruct (keep c) eqn:K; [| apply keep_newline in K; congruence].
    destruct (Ascii.eqb c padChar); [| reflexivity].
    rewrite skipNewlines_filter.
    pose proof (filter_skipNewlines_nil r2) as F.
    destruct (skipNewlines r2) as [|c2 r3].
    + reflexivity.
    + destruct (List.filter keep (c2 :: r3)); [| reflexivity].
      destruct F as [F _]. discriminate (F eq_refl).
  - rewrite skipNewlines_filter.
    pose proof (filter_skipNewlines_nil rest) as F.
    destruct (skipNewlines rest) as [|c2 r3].
    + reflexivity.
    + destruct (List.filter keep (c2 :: r3)); [| reflexivity].
      destruct F as [F _]. discriminate (F eq_refl).
Qed.

Lemma decodeFrom_filter (s : list ascii) acc :
  decodeFrom (List.filter keep s) acc = decodeFrom s acc.
Proof.
  revert acc. induction s as [|c rest IH]; intros acc; [reflexivity |].
  simpl List.filter. destruct (keep c) eqn:K.
  - simpl. destruct (decodeMap c) as [v|].
    + destruct acc as [|s0 [|s1 [|s2 [|s3 acc]]]]; rewrite ?IH; reflexivity.
    + destruct (isNewline c); [apply IH |].
      destruct (Ascii.eqb c padChar); [apply finishPadding_filter | reflexivity].
  - apply keep_newline in K. simpl.
    rewrite (isNewline_decodeMap _ K), K. apply IH.
Qed.
End DecodeSkipsNewlines.

Lemma ReplaceAll_LF (s : list ascii) :
  ReplaceAll s [LF] [] = List.filter (fun c => negb (Ascii.eqb c LF)) s.
Proof.
  unfold ReplaceAll. induction s as [|c r IH]; [reflexivity |].
  simpl. rewrite (Ascii.eqb_sym LF c), andb_true_r.
  destruct (Ascii.eqb c LF); simpl; rewrite IH; reflexivity.
Qed.

Lemma DecodeString_ReplaceAll (s : list ascii) :
  DecodeString (ReplaceAll s [LF] []) = DecodeString s.
Proof.
  rewrite ReplaceAll_LF. apply decodeFrom_filter.
  intros c H. apply negb_false_iff in H. unfold isNewline. rewrite H. reflexivity.
Qed.

Lemma DecodeString_stripNewlines (s : list ascii) :
  DecodeString (stripNewlines s) = DecodeString s.
Proof.
  apply decodeFrom_filter. intros c H. apply negb_false_iff in H. exact H.
Qed.

(** The second attempt of the program never decides: it succeeds exactly
    when the first one does. *)
Lemma wholeBlobDecode_DecodeString (trim : list ascii) :
  wholeBlobDecode trim = DecodeString trim.
Proof.
  unfold wholeBlobDecode, decodeCalls.
  destruct (DecodeString trim) eqn:E; [reflexivity |].
  cbv zeta. cbn [fst]. rewrite DecodeString_ReplaceAll. exact E.
Qed.

(** *** What a successful decoding says about its input *)

Lemma forallb_class_skipNewlines (r : list ascii) :
  forallb b64Class r = forallb b64Class (skipNewlines r).
Proof.
  induction r as [|c r IH]; [reflexivity |]. simpl.
  destruct (isNewline c) eqn:Nl; [| reflexivity].
  rewrite (isNewline_class _ Nl). exact IH.
Qed.

Lemma finishPadding_Some acc (rest : list ascii) d :
  finishPadding acc rest = Some d ->
  forallb b64Class rest = true /\ 4 * length d <= 3 * (length acc + 1).
Proof.
  unfold finishPadding. rewrite (forallb_class_skipNewlines rest).
  destruct acc as [|s0 [|s1 [|s2 [|s3 acc]]]]; try discriminate.
  - destruct (skipNewlines rest) as [|c r2]; [discriminate |].
    destruct (Ascii.eqb c padChar) eqn:E; [| discriminate].
    apply Ascii.eqb_eq in E. subst c.
    simpl forallb. rewrite (forallb_class_skipNewlines r2).
    destruct (skipNewlines r2); [| discriminate].
    destruct (join4 s0 s1 zeroSextet zeroSextet) as [[a ?] ?].
    intros [= <-]. split; [reflexivity | simpl; lia].
  - destruct (skipNewlines rest); [| discriminate].
    destruct (join4 s0 s1 s2 zeroSextet) as [[a b] ?].
    intros [= <-]. split; [reflexivity | simpl; lia].
Qed.

Lemma decodeFrom_Some (s : list ascii) acc d :
  decodeFrom s acc = Some d ->
  forallb b64Class s = true /\ 4 * length d <= 3 * (length s + length acc).
Proof.
  revert acc d. induction s as [|c rest IH]; intros acc d.
  - simpl. destruct acc; [| discriminate]. intros [= <-]. simpl. auto.
  - simpl. destruct (decodeMap c) as [v|] eqn:Dm.
    + destruct (decodeMap_class _ _ Dm) as [Cl _]. rewrite Cl. simpl.
      assert (Hgen : forall acc', decodeFrom rest acc' = Some d ->
                length acc' = S (length acc) ->
                forallb b64Class rest = true
                /\ 4 * length d <= 3 * (S (length rest) + length acc)).
      { intros acc' H L. destruct (IH _ _ H) as [? ?]. split; [assumption | lia]. }
      destruct acc as [|s0 [|s1 [|s2 [|s3 acc]]]];
        try (intros H; apply (Hgen _ H); rewrite length_app; simpl; lia).
      destruct (join4 s0 s1 s2 v) as [[a b] e].
      destruct (decodeFrom rest []) as [out|] eqn:D; [| discriminate].
      intros [= <-]. destruct (IH _ _ D) as [? ?]. split; [assumption |].
      simpl in *. lia.
    + destruct (isNewline c) eqn:Nl.
      * rewrite (isNewline_class _ Nl). simpl. intros H.
        destruct (IH _ _ H) as [? ?]. split; [assumption | lia].
      * destruct (Ascii.eqb c padChar) eqn:E; [| discriminate].
        apply Ascii.eqb_eq in E. subst c. intros H.
        destruct (finishPadding_Some _ _ _ H) as [? ?].
        split; [simpl; assumption | lia].
Qed.

Lemma DecodeString_class (s d : list ascii) :
  DecodeString s = Some d -> forallb b64Class s = true.
Proof. intros H. apply (decodeFrom_Some _ _ _ H). Qed.

Lemma DecodeString_shorter (s d : list ascii) :
  DecodeString s = Some d -> s <> [] -> length d < length s.
Proof.
  intros H Hs. destruct (decodeFrom_Some _ _ _ H) as [_ L]. simpl in L.
  destruct s; [congruence |]. simpl in *. lia.
Qed.

(** *** Trimming a text of the base64 class removes new lines only *)

Lemma class_low (c : ascii) : b64Class c = true -> ("128" <=? c)%char = false.
Proof.
  destruct c as [[] [] [] [] [] [] [] []]; vm_compute; intros H;
    first [discriminate H | reflexivity].
Qed.

Lemma class_asciiSpace (c : ascii) :
  b64Class c = true -> asciiSpace c = true -> isNewline c = true.
Proof.
  destruct c as [[] [] [] [] [] [] [] []]; vm_compute; intros H1 H2;
    first [discriminate H1 | discriminate H2 | reflexivity].
Qed.

Ltac high_byte c H :=
  repeat match goal with
    | |- context [Ascii.eqb c ?k] =>
        let E := fresh "E" in
        destruct (Ascii.eqb c k) eqn:E;
        [apply Ascii.eqb_eq in E; subst c; vm_compute in H; discriminate H |]
    end;
  rewrite ?H, ?andb_false_r, ?andb_false_l, ?orb_false_r; try reflexivity.

Lemma class_space2_first c1 c2 : b64Class c1 = true -> space2 c1 c2 = false.
Proof. intros H%class_low. unfold space2. high_byte c1 H. Qed.

Lemma class_space2_last c1 c2 : b64Class c2 = true -> space2 c1 c2 = false.
Proof. intros H%class_low. unfold space2. high_byte c2 H. Qed.

Lemma class_space3_first c1 c2 c3 : b64Class c1 = true -> space3 c1 c2 c3 = false.
Proof. intros H%class_low. unfold space3. high_byte c1 H. Qed.

Lemma class_space3_last c1 c2 c3 : b64Class c3 = true -> space3 c1 c2 c3 = false.
Proof. intros H%class_low. unfold space3. high_byte c3 H. Qed.

Section TrimClass.
Variable sp2 : ascii -> ascii -> bool.
Variable sp3 : ascii -> ascii -> ascii -> bool.
Hypothesis sp2_class : forall c1 c2, b64Class c1 = true -> sp2 c1 c2 = false.
Hypothesis sp3_class : forall c1 c2 c3, b64Class c1 = true -> sp3 c1 c2 c3 = false.

Lemma trimFront_class (s : list ascii) :
  forallb b64Class s = true ->
  stripNewlines (trimFront sp2 sp3 s) = stripNewlines s
  /\ forallb b64Class (trimFront sp2 sp3 s) = true.
Proof.
  apply (trimFront_ind sp2 sp3 (fun s t =>
    forallb b64Class s = true ->
    stripNewlines t = stripNewlines s /\ forallb b64Class t = true)).
  - auto.
  - intros s0 t Hw IH Hcl.
    destruct s0 as [|c1 r1]; [contradiction Hw; reflexivity |].
    simpl in Hcl. apply andb_true_iff in Hcl as [Hc Hr].
    assert (Hsp : asciiSpace c1 = true).
    { destruct (asciiSpace c1) eqn:Sp; [reflexivity |].
      exfalso. apply Hw. simpl. rewrite Sp.
      destruct r1 as [|c2 r2]; [reflexivity |].
      rewrite (sp2_class _ _ Hc).
      destruct r2 as [|c3 r3]; [reflexivity |].
      rewrite (sp3_class _ _ _ Hc). reflexivity. }
    simpl spaceWidth in IH. rewrite Hsp in IH. simpl in IH.
    destruct (IH Hr) as [E1 E2]. split; [| exact E2].
    rewrite E1. unfold stripNewlines. simpl.
    rewrite (class_asciiSpace _ Hc Hsp). reflexivity.
Qed.
End TrimClass.

Lemma stripNewlines_rev (s : list ascii) :
  stripNewlines (rev s) = rev (stripNewlines s).
Proof.
  unfold stripNewlines. induction s as [|c r IH]; [reflexivity |].
  simpl. rewrite List.filter_app, IH. simpl.
  destruct (negb (isNewline c)); simpl; [reflexivity | apply app_nil_r].
Qed.

Lemma forallb_rev {A} (f : A -> bool) (s : list A) :
  forallb f (rev s) = forallb f s.
Proof.
  induction s as [|c r IH]; [reflexivity |].
  simpl. rewrite forallb_app, IH. simpl. rewrite andb_true_r. apply andb_comm.
Qed.

Lemma TrimSpace_class (s : list ascii) :
  forallb b64Class s = true ->
  stripNewlines (TrimSpace s) = stripNewlines s
  /\ forallb b64Class (TrimSpace s) = true.
Proof.
  intros Hs. unfold TrimSpace, TrimLeftSpace, TrimRightSpace.
  destruct (trimFront_class space2 space3 class_space2_first
              class_space3_first s Hs) as [L1 L2].
  set (t := trimFront space2 space3 s) in *.
  destruct (trimFront_class (fun c1 c2 => space2 c2 c1)
              (fun c1 c2 c3 => space3 c3 c2 c1)
              (fun c1 c2 H => class_space2_last c2 c1 H)
              (fun c1 c2 c3 H => class_space3_last c3 c2 c1 H)
              (rev t)) as [R1 R2].
  { rewrite forallb_rev. exact L2. }
  split.
  - rewrite stripNewlines_rev, R1, stripNewlines_rev, rev_involutive. exact L1.
  - rewrite forallb_rev. exact R2.
Qed.

Lemma TrimSpace_length (s : list ascii) : length (TrimSpace s) <= length s.
Proof.
  unfold TrimSpace.
  destruct (TrimRightSpace_prefix (TrimLeftSpace s)) as [w Hw].
  destruct (trimFront_suffix space2 space3 s) as [p Hp].
  fold (TrimLeftSpace s) in Hp.
  apply (f_equal (@length ascii)) in Hw, Hp.
  rewrite length_app in Hw, Hp. lia.
Qed.

Lemma forallb_class_stripNewlines (s : list ascii) :
  forallb b64Class (stripNewlines s) = forallb b64Class s.
Proof.
  unfold stripNewlines. induction s as [|c r IH]; [reflexivity |]. simpl.
  destruct (isNewline c) eqn:Nl; simpl; rewrite IH; [| reflexivity].
  rewrite (isNewline_class _ Nl). reflexivity.
Qed.

(** ** The payload decoder *)

Lemma tryDecodeIfBase64_unfold (b : list ascii) :
  tryDecodeIfBase64 b
  = let trim := TrimSpace b in
    if isEmpty trim then trim
    else if negb (rePossibleB64 trim) then b
    else match DecodeString trim with
         | None => b
         | Some dec => if looksLikeProxyList dec then dec else b
         end.
Proof.
  unfold tryDecodeIfBase64. cbv zeta. rewrite wholeBlobDecode_DecodeString.
  destruct (TrimSpace b); reflexivity.
Qed.

Lemma tryDecodeIfBase64_decodePayload (b : list ascii) :
  tryDecodeIfBase64 b = decodePayload b.
Proof.
  rewrite tryDecodeIfBase64_unfold. unfold decodePayload. cbv zeta.
  rewrite DecodeString_stripNewlines.
  destruct (isEmpty (TrimSpace b)); [reflexivity |].
  destruct (negb (rePossibleB64 (TrimSpace b))); [reflexivity |].
  destruct (DecodeString (TrimSpace b)); reflexivity.
Qed.

Lemma looksLikeProxyList_nonempty (p : list ascii) :
  looksLikeProxyList p = true -> p <> [].
Proof. intros H ->. discriminate H. Qed.

Lemma EncodeToString_nonempty (p : list ascii) :
  p <> [] -> EncodeToString p <> [].
Proof.
  destruct p as [|a [|b [|c r]]]; [congruence | | |]; intros _.
  - destruct a. rewrite EncodeToString_1. discriminate.
  - destruct a, b. rewrite EncodeToString_2. discriminate.
  - destruct a, b, c. rewrite EncodeToString_3. discriminate.
Qed.

(** A base64 text with new lines put in anywhere is decoded. *)
Lemma tryDecodeIfBase64_wrapped (payload wrapped : list ascii) :
  looksLikeProxyList payload = true ->
  stripNewlines wrapped = EncodeToString payload ->
  tryDecodeIfBase64 wrapped = payload.
Proof.
  intros Hp Hw.
  assert (Hcl : forallb b64Class wrapped = true).
  { rewrite <- forallb_class_stripNewlines, Hw.
    apply (DecodeString_class _ payload), DecodeString_EncodeToString. }
  destruct (TrimSpace_class _ Hcl) as [T1 T2].
  assert (Hdec : DecodeString (TrimSpace wrapped) = Some payload).
  { rewrite <- DecodeString_stripNewlines, T1, Hw.
    apply DecodeString_EncodeToString. }
  assert (Hne : isEmpty (TrimSpace wrapped) = false).
  { apply isEmpty_false. intros E. rewrite E in T1. simpl in T1.
    rewrite Hw in T1. symmetry in T1.
    apply (EncodeToString_nonempty payload);
      [apply looksLikeProxyList_nonempty, Hp | exact T1]. }
  rewrite tryDecodeIfBase64_unfold. cbv zeta.
  rewrite Hne. unfold rePossibleB64. rewrite Hne, T2. simpl.
  rewrite Hdec, Hp. reflexivity.
Qed.

(** C3, as stated, fails: the second attempt is made on the blob without
    its '\n' only.  The blob "dmxl\r\nc3M" is in the base64 class and is
    not decoded; the text handed to the second call of the decoder still
    holds the '\r', so it is not the blob without its new-line characters. *)
Lemma C3_retry_keeps_CR_counterexample :
  TrimSpace Scenario.crlfBlob = Scenario.crlfBlob
  /\ rePossibleB64 Scenario.crlfBlob = true
  /\ DecodeString Scenario.crlfBlob = None
  /\ snd (decodeCalls Scenario.crlfBlob)
     = [Scenario.crlfBlob; str "dmxl" ++ [CR] ++ str "c3M"]
  /\ stripNewlines Scenario.crlfBlob = str "dmxlc3M"
  /\ str "dmxl" ++ [CR] ++ str "c3M" <> stripNewlines Scenario.crlfBlob.
Proof. vm_compute. repeat split; try reflexivity. discriminate. Qed.

(** C3, amended: when the first decoding of the trimmed blob fails, a
    second one is made, on the blob without its '\n', every other byte,
    '\r' included, staying where it is; when the first succeeds there is no
    second; when the last one made fails, the input comes back unchanged.
    The decoder skips '\r' and '\n' by itself, so the program returns what
    the decoder of section 4.1 returns, and a base64 text with line breaks
    put in, CRLF among them, is decoded, by the first call, and returned
    when it is the text of a proxy list. *)
Theorem C3_decode_retry :
  (forall trim,
     DecodeString trim = None ->
     snd (decodeCalls trim)
     = [trim; List.filter (fun c => negb (Ascii.eqb c LF)) trim])
  /\ (forall trim dec,
        DecodeString trim = Some dec -> decodeCalls trim = (Some dec, [trim]))
  /\ (forall b,
        rePossibleB64 (TrimSpace b) = true ->
        fst (decodeCalls (TrimSpace b)) = None ->
        tryDecodeIfBase64 b = b)
  /\ (forall b, tryDecodeIfBase64 b = decodePayload b)
  /\ (forall payload wrapped,
        stripNewlines wrapped = EncodeToString payload ->
        decodeCalls (TrimSpace wrapped) = (Some payload, [TrimSpace wrapped])
        /\ (looksLikeProxyList payload = true ->
            tryDecodeIfBase64 wrapped = payload))
  /\ tryDecodeIfBase64 (str "dmxl" ++ [CR; LF] ++ str "c3M6" ++ [CR; LF]
                          ++ str "Ly9h" ++ [CR; LF])
     = str "vless://a".
Proof.
  split; [| split; [| split; [| split; [| split]]]].
  - intros trim H. unfold decodeCalls. rewrite H. cbv zeta. cbn [snd].
    rewrite ReplaceAll_LF. reflexivity.
  - intros trim dec H. unfold decodeCalls. rewrite H. reflexivity.
  - intros b Hre H. unfold tryDecodeIfBase64, wholeBlobDecode. cbv zeta.
    rewrite Hre, H. simpl.
    destruct (TrimSpace b) eqn:E; [discriminate Hre | reflexivity].
  - exact tryDecodeIfBase64_decodePayload.
  - intros payload wrapped Hw.
    split; [| intros Hp; apply tryDecodeIfBase64_wrapped; assumption].
    assert (Hcl : forallb b64Class wrapped = true).
    { rewrite <- forallb_class_stripNewlines, Hw.
      apply (DecodeString_class _ payload), DecodeString_EncodeToString. }
    destruct (TrimSpace_class _ Hcl) as [T1 _].
    unfold decodeCalls.
    rewrite <- (DecodeString_stripNewlines (TrimSpace wrapped)), T1, Hw,
      DecodeString_EncodeToString.
    reflexivity.
  - vm_compute. reflexivity.
Qed.

(** C6: when the whole-blob decoding of a payload is attempted (its trimmed
    text is not empty) and succeeds with [dec], the result is [dec] if [dec]
    contains "vless://", "vmess://" or "ss://" in any letter case, and the
    raw payload otherwise; since [dec] is shorter than the payload, the
    result is [dec] in the first case only.  "aGVsbG8gd29ybGQ=" decodes to
    "hello world" and is passed through as it is. *)
Theorem C6_decoded_iff_proxy_list :
  (forall b dec,
     TrimSpace b <> [] ->
     wholeBlobDecode (TrimSpace b) = Some dec ->
     let marked :=
       occursFolded (str "vless://") dec \/ occursFolded (str "vmess://") dec
       \/ occursFolded (str "ss://") dec in
     (marked -> tryDecodeIfBase64 b = dec)
     /\ (~ marked -> tryDecodeIfBase64 b = b)
     /\ (tryDecodeIfBase64 b = dec <-> marked))
  /\ DecodeString (str "aGVsbG8gd29ybGQ=") = Some (str "hello world")
  /\ tryDecodeIfBase64 (str "aGVsbG8gd29ybGQ=") = str "aGVsbG8gd29ybGQ=".
Proof.
  split; [| split; vm_compute; reflexivity].
  intros b dec Hne Hdec marked.
  rewrite wholeBlobDecode_DecodeString in Hdec.
  assert (Hres : tryDecodeIfBase64 b = if looksLikeProxyList dec then dec else b).
  { rewrite tryDecodeIfBase64_unfold. cbv zeta.
    apply isEmpty_false in Hne. rewrite Hne.
    unfold rePossibleB64. rewrite Hne, (DecodeString_class _ _ Hdec), Hdec.
    reflexivity. }
  assert (Hneq : b <> dec).
  { intros ->. pose proof (DecodeString_shorter _ _ Hdec Hne).
    pose proof (TrimSpace_length dec). lia. }
  pose proof (looksLikeProxyList_spec dec) as Hspec. fold marked in Hspec.
  rewrite Hres. destruct (looksLikeProxyList dec).
  - split; [reflexivity |]. split; [| tauto].
    intros Hn. contradiction Hn. apply Hspec. reflexivity.
  - split; [| split; [reflexivity |]].
    + intros Hm. apply Hspec in Hm. discriminate Hm.
    + split; [intros E; contradiction | intros Hm; apply Hspec in Hm; discriminate Hm].
Qed.

Lemma C6_witness :
  tryDecodeIfBase64 (str " dmxlc3M6Ly9h ") = str "vless://a"
  /\ tryDecodeIfBase64 (str "aGk=") = str "aGk=".
Proof.
  split.
  - apply (proj1 (proj1 C6_decoded_iff_proxy_list (str " dmxlc3M6Ly9h ")
                    (str "vless://a") ltac:(vm_compute; discriminate)
                    ltac:(vm_compute; reflexivity))).
    left. exists [], (str "vless://"), (str "a"). split; reflexivity.
  - apply (proj1 (proj2 (proj1 C6_decoded_iff_proxy_list (str "aGk=")
                    (str "hi") ltac:(vm_compute; discriminate)
                    ltac:(vm_compute; reflexivity)))).
    intros H. apply (looksLikeProxyList_spec (str "hi")) in H.
    vm_compute in H. discriminate H.
Defined.

Lemma C3_witness :
  snd (decodeCalls Scenario.crlfBlob)
  = [Scenario.crlfBlob;
     List.filter (fun c => negb (Ascii.eqb c LF)) Scenario.crlfBlob]
  /\ tryDecodeIfBase64 Scenario.crlfBlob = Scenario.crlfBlob
  /\ tryDecodeIfBase64 (str "dmxl" ++ [CR; LF] ++ str "c3M6Ly9h") = str "vless://a".
Proof.
  split; [| split].
  - apply (proj1 C3_decode_retry Scenario.crlfBlob). vm_compute. reflexivity.
  - apply (proj1 (proj2 (proj2 C3_decode_retry)) Scenario.crlfBlob);
      vm_compute; reflexivity.
  - apply (proj2 (proj1 (proj2 (proj2 (proj2 (proj2 C3_decode_retry))))
             (str "vless://a")
             (str "dmxl" ++ [CR; LF] ++ str "c3M6Ly9h") eq_refl)).
    vm_compute. reflexivity.
Defined.

(** ** The order of strings and the sorted copy *)

Lemma ascii_ltb_N (c d : ascii) :
  (c <? d)%char = (N_of_ascii c <? N_of_ascii d)%N.
Proof. reflexivity. Qed.

Lemma ascii_eqb_N (c d : ascii) :
  Ascii.eqb c d = (N_of_ascii c =? N_of_ascii d)%N.
Proof.
  destruct (Ascii.eqb_spec c d) as [-> | Hne].
  - symmetry. apply N.eqb_refl.
  - symmetry. apply N.eqb_neq. intros E. apply Hne.
    rewrite <- (ascii_N_embedding c), <- (ascii_N_embedding d), E. reflexivity.
Qed.

(** The three cases of comparing two bytes. *)
Lemma ascii_cases (c d : ascii) :
  ((c <? d)%char = true /\ Ascii.eqb c d = false /\ (d <? c)%char = false)
  \/ (c = d /\ (c <? d)%char = false)
  \/ ((d <? c)%char = true /\ Ascii.eqb c d = false /\ (c <? d)%char = false).
Proof.
  rewrite (Ascii.eqb_sym c d) at 2.
  rewrite !ascii_ltb_N, !ascii_eqb_N.
  destruct (N.lt_total (N_of_ascii c) (N_of_ascii d)) as [H | [H | H]].
  - left. rewrite (proj2 (N.ltb_lt _ _) H), (proj2 (N.eqb_neq _ _)),
      (proj2 (N.ltb_ge _ _)); [auto | lia | lia].
  - right. left. split.
    + rewrite <- (ascii_N_embedding c), <- (ascii_N_embedding d), H. reflexivity.
    + apply N.ltb_ge. lia.
  - right. right. rewrite (proj2 (N.ltb_lt _ _) H), (proj2 (N.eqb_neq _ _)),
      (proj2 (N.ltb_ge _ _)); [auto | lia | lia].
Qed.

Lemma ascii_ltb_irrefl (c : ascii) : (c <? c)%char = false.
Proof. rewrite ascii_ltb_N. apply N.ltb_irrefl. Qed.

Lemma ascii_ltb_trans (c d e : ascii) :
  (c <? d)%char = true -> (d <? e)%char = true -> (c <? e)%char = true.
Proof. rewrite !ascii_ltb_N, !N.ltb_lt. lia. Qed.

Lemma leb_refl (s : list ascii) : GoStrings.leb s s = true.
Proof.
  induction s as [|c s IH]; [reflexivity |]. simpl.
  rewrite ascii_ltb_irrefl, Ascii.eqb_refl. exact IH.
Qed.

#[local] Instance str_le_total : Total str_le.
Proof.
  unfold str_le. intros s. induction s as [|c s IH]; intros t.
  - left. reflexivity.
  - destruct t as [|d t]; [right; reflexivity |]. simpl.
    rewrite (Ascii.eqb_sym d c).
    destruct (ascii_cases c d) as [(H1 & H2 & H3) | [(-> & H) | (H1 & H2 & H3)]].
    + rewrite H1. auto.
    + rewrite H, Ascii.eqb_refl. apply IH.
    + rewrite H1, H3. auto.
Qed.

#[local] Instance str_le_trans : Transitive str_le.
Proof.
  unfold str_le. intros s. induction s as [|c s IH]; intros t u; [reflexivity |].
  destruct t as [|d t]; [discriminate |]. destruct u as [|e u]; [discriminate |].
  simpl.
  destruct (ascii_cases c d) as [(H1 & H2 & H3) | [(-> & H) | (H1 & H2 & H3)]].
  - rewrite H1. intros _.
    destruct (ascii_cases d e) as [(G1 & G2 & G3) | [(-> & G) | (G1 & G2 & G3)]].
    + rewrite G1, (ascii_ltb_trans _ _ _ H1 G1). reflexivity.
    + rewrite G, Ascii.eqb_refl, H1. reflexivity.
    + rewrite G3, G2. discriminate.
  - rewrite H, Ascii.eqb_refl. intros Hst.
    destruct (d <? e)%char; [reflexivity |].
    destruct (Ascii.eqb d e); [apply IH, Hst | discriminate].
  - rewrite H3, H2. discriminate.
Qed.

#[local] Instance str_le_antisym : AntiSymm (=) str_le.
Proof.
  unfold str_le. intros s. induction s as [|c s IH]; intros t.
  - destruct t; [reflexivity | discriminate].
  - destruct t as [|d t]; [discriminate |]. simpl.
    rewrite (Ascii.eqb_sym d c).
    destruct (ascii_cases c d) as [(H1 & H2 & H3) | [(-> & H) | (H1 & H2 & H3)]].
    + rewrite H1, H3, H2. discriminate.
    + rewrite H, Ascii.eqb_refl. intros A B. f_equal. apply IH; assumption.
    + rewrite H1, H3, H2. discriminate.
Qed.

(** [leb] is the lexicographic order on bytes: [s] is a prefix of [t], or
    at the first position where they differ [s] has the smaller byte. *)
Lemma leb_lexicographic (s t : list ascii) :
  GoStrings.leb s t = true
  <-> (exists u, t = s ++ u)
      \/ (exists p c d s' t',
            s = p ++ c :: s' /\ t = p ++ d :: t' /\ (c <? d)%char = true).
Proof.
  revert t. induction s as [|c s IH]; intros t.
  - simpl. split; [intros _; left; exists t; reflexivity | reflexivity].
  - destruct t as [|d t].
    + simpl. split; [discriminate |].
      intros [[u H] | (p & c' & d' & s' & t' & _ & H & _)];
        [discriminate H | destruct p; discriminate H].
    + simpl.
      destruct (ascii_cases c d) as [(H1 & H2 & H3) | [(-> & H) | (H1 & H2 & H3)]].
      * rewrite H1. split; [intros _ | reflexivity].
        right. exists [], c, d, s, t. auto.
      * rewrite H, Ascii.eqb_refl, IH. split.
        -- intros [[u ->] | (p & c' & d' & s' & t' & -> & -> & L)].
           ++ left. exists u. reflexivity.
           ++ right. exists (d :: p), c', d', s', t'. auto.
        -- intros [[u [= ->]] | (p & c' & d' & s' & t' & E1 & E2 & L)].
           ++ left. exists u. reflexivity.
           ++ destruct p as [|x p]; simpl in E1, E2; simplify_eq;
                [congruence | right; do 5 eexists; eauto].
      * rewrite H3, H2. split; [discriminate |].
        intros [[u [= -> _]] | (p & c' & d' & s' & t' & E1 & E2 & L)].
        -- rewrite Ascii.eqb_refl in H2. discriminate H2.
        -- destruct p as [|x p]; simpl in E1, E2; simplify_eq;
             [congruence | rewrite Ascii.eqb_refl in H2; discriminate H2].
Qed.

Lemma sortedCopy_Sorted (l : list (list ascii)) : Sorted str_le (sortedCopy l).
Proof. apply Sorted_merge_sort; apply _. Qed.

Lemma sortedCopy_Permutation (l : list (list ascii)) : sortedCopy l ≡ₚ l.
Proof. apply merge_sort_Permutation. Qed.

(** The sorted copy is the only sorted arrangement of the list, whatever
    the algorithm. *)
Lemma sortedCopy_unique (l l' : list (list ascii)) :
  Sorted str_le l' -> l' ≡ₚ l -> l' = sortedCopy l.
Proof.
  intros Hs Hp. apply (Sorted_unique str_le); [exact Hs | apply sortedCopy_Sorted |].
  rewrite Hp. symmetry. apply sortedCopy_Permutation.
Qed.

(** ** Joining and splitting on '\n' *)

Lemma SplitLF_newlineFree (s : list ascii) : newlineFree s -> SplitLF s = [s].
Proof.
  unfold newlineFree. induction s as [|c s IH]; intros H; [reflexivity |].
  apply not_elem_of_cons in H as [Hc Hs]. simpl.
  destruct (Ascii.eqb_spec c LF) as [-> | _]; [congruence |].
  rewrite (IH Hs). reflexivity.
Qed.

Lemma SplitLF_app (s r : list ascii) :
  newlineFree s -> SplitLF (s ++ LF :: r) = s :: SplitLF r.
Proof.
  unfold newlineFree. induction s as [|c s IH]; intros H.
  - reflexivity.
  - apply not_elem_of_cons in H as [Hc Hs]. simpl.
    destruct (Ascii.eqb_spec c LF) as [-> | _]; [congruence |].
    rewrite (IH Hs). reflexivity.
Qed.

Lemma SplitLF_Join (l : list (list ascii)) :
  l <> [] -> Forall newlineFree l -> SplitLF (Join l [LF]) = l.
Proof.
  induction l as [|s r IH]; [congruence |]. intros _ H.
  apply Forall_cons in H as [Hs Hr].
  destruct r as [|s2 r].
  - simpl. apply SplitLF_newlineFree, Hs.
  - change (Join (s :: s2 :: r) [LF]) with (s ++ LF :: Join (s2 :: r) [LF]).
    rewrite (SplitLF_app _ _ Hs), IH; [reflexivity | discriminate | exact Hr].
Qed.

Lemma readBack_encodedPayload (lines : list (list ascii)) :
  readBack (encodedPayload lines) = Some (SplitLF (Join lines [LF])).
Proof.
  unfold readBack, encodedPayload. rewrite DecodeString_EncodeToString.
  reflexivity.
Qed.

(** C4, as stated, fails on the empty list: the file written for it is
    empty, and reading it back gives one empty string, not no string; no
    reader could do better, the lists [] and [""] being written alike. *)
Lemma C4_empty_list_counterexample :
  Forall newlineFree ([] : list (list ascii))
  /\ readBack (encodedPayload (sortedCopy [])) = Some [[]]
  /\ readBack (encodedPayload (sortedCopy [])) <> Some (sortedCopy [])
  /\ encodedPayload (sortedCopy []) = encodedPayload (sortedCopy [[]])
  /\ sortedCopy [] <> sortedCopy [[]].
Proof.
  split; [constructor |].
  split; [vm_compute; reflexivity |].
  split; [vm_compute; discriminate |].
  split; [vm_compute; reflexivity | vm_compute; discriminate].
Qed.

(** C4, amended: the sorted copy is a permutation of [normal] in
    non-decreasing byte order, for every [normal]; and when [normal] is not
    empty and its strings hold no '\n', decoding the file and splitting on
    '\n' gives the sorted copy back. *)
Theorem C4_sorted_round_trip (normal : list (list ascii)) :
  sortedCopy normal ≡ₚ normal
  /\ Sorted str_le (sortedCopy normal)
  /\ (normal <> [] -> Forall newlineFree normal ->
      readBack (encodedPayload (sortedCopy normal)) = Some (sortedCopy normal)).
Proof.
  split; [apply sortedCopy_Permutation |].
  split; [apply sortedCopy_Sorted |].
  intros Hne Hnl. rewrite readBack_encodedPayload. f_equal.
  apply SplitLF_Join.
  - intros E. apply Hne. apply Permutation_nil_r.
    rewrite <- E. symmetry. apply sortedCopy_Permutation.
  - rewrite sortedCopy_Permutation. exact Hnl.
Qed.

Lemma C4_witness :
  readBack (encodedPayload (sortedCopy [str "vmess://b"; str "ss://a"]))
  = Some (sortedCopy [str "vmess://b"; str "ss://a"]).
Proof.
  apply (proj2 (proj2 (C4_sorted_round_trip [str "vmess://b"; str "ss://a"]))).
  - discriminate.
  - repeat constructor; unfold newlineFree; rewrite list_elem_of_In;
      vm_compute; intuition discriminate.
Defined.

(** ** The size of the tail in a run *)

(** C2, as stated, fails: with [n] set to 2 and three entries in the
    normal list, the tail has three entries, not two. *)
Lemma C2_configured_size_counterexample :
  N (Lite (loadConfig Scenario.cfgTailTwo)) = 2%Z
  /\ length (fst (processSource (tbl := Scenario.latinTable)
                    (loadConfig Scenario.cfgTailTwo) Scenario.threeEntries)) = 3
  /\ length (snd (processSource (tbl := Scenario.latinTable)
                    (loadConfig Scenario.cfgTailTwo) Scenario.threeEntries)) = 3
  /\ length (snd (processSource (tbl := Scenario.latinTable)
                    (loadConfig Scenario.cfgTailTwo) Scenario.threeEntries))
     <> Nat.min 2 (length (fst (processSource (tbl := Scenario.latinTable)
                                  (loadConfig Scenario.cfgTailTwo)
                                  Scenario.threeEntries))).
Proof. vm_compute. repeat split; discriminate. Qed.

(** C2, amended: the tail of a run has min(100, len(normal)) entries, the
    last ones of the normal list, and the lite block of the configuration
    has no part in it. *)
Theorem C2_tail_size_fixed {tbl : CaseTable} (cfg : Config) (lite : LiteCfg) (raw : list ascii) :
  let '(normal, tail) := processSource (loadConfig cfg) raw in
  length tail = Nat.min 100 (length normal)
  /\ tail = drop (length normal - 100) normal
  /\ processSource
       (loadConfig {| AllowedSchemes := AllowedSchemes cfg; Lite := lite;
                      Subscriptions := Subscriptions cfg |}) raw
     = (normal, tail).
Proof.
  unfold processSource. cbv zeta. rewrite !buildLiteTail_drop.
  change (Z.to_nat (if (100 <=? 0)%Z then 100%Z else 100%Z)) with 100.
  split; [rewrite length_drop; lia |]. split; [f_equal; lia | reflexivity].
Qed.

(** ** The line scanner and its token limit *)

Section ScanLimit.
Variable limit : Z.
Hypothesis limit_pos : (0 < limit)%Z.

Lemma scanFrom_line (l rest tok : list ascii) :
  newlineFree l ->
  scanFrom limit (l ++ LF :: rest) tok = scanFrom limit (LF :: rest) (tok ++ l).
Proof.
  unfold newlineFree. revert tok. induction l as [|c l IH]; intros tok H.
  - rewrite app_nil_r. reflexivity.
  - apply not_elem_of_cons in H as [Hc Hl]. simpl.
    destruct (Ascii.eqb_spec c LF) as [-> | _]; [congruence |].
    rewrite (IH _ Hl), <- app_assoc. reflexivity.
Qed.

Lemma scanFrom_last (l tok : list ascii) :
  newlineFree l -> scanFrom limit l tok = scanFrom limit [] (tok ++ l).
Proof.
  unfold newlineFree. revert tok. induction l as [|c l IH]; intros tok H.
  - rewrite app_nil_r. reflexivity.
  - apply not_elem_of_cons in H as [Hc Hl]. simpl.
    destruct (Ascii.eqb_spec c LF) as [-> | _]; [congruence |].
    rewrite (IH _ Hl), <- app_assoc. reflexivity.
Qed.

(** A text up to its first '\n'. *)
Lemma first_line (s : list ascii) :
  exists l, newlineFree l /\ (s = l \/ exists r, s = l ++ LF :: r).
Proof.
  unfold newlineFree. induction s as [|c s (l & Hl & IH)].
  - exists []. split; [apply not_elem_of_nil | auto].
  - destruct (decide (c = LF)) as [-> | Hc].
    + exists []. split; [apply not_elem_of_nil |]. right. exists s. reflexivity.
    + exists (c :: l). split; [apply not_elem_of_cons; auto |].
      destruct IH as [-> | [r ->]]; [auto | right; exists r; reflexivity].
Qed.

Lemma scanFrom_too_long (long tail : list ascii) :
  newlineFree long -> (limit <= Z.of_nat (length long))%Z ->
  scanFrom limit (long ++ tail) [] = ([], true).
Proof.
  intros Hl Hlen.
  assert (Hfull : forall t, (limit <=? Z.of_nat (length (long ++ t)))%Z = true).
  { intros t. apply Z.leb_le. rewrite length_app. lia. }
  destruct (first_line tail) as (t1 & Ht1 & [-> | [r ->]]).
  - rewrite scanFrom_last by (unfold newlineFree in *; rewrite elem_of_app; tauto).
    simpl. rewrite Hfull.
    destruct long; [simpl in Hlen; lia | reflexivity].
  - rewrite app_assoc, scanFrom_line
      by (unfold newlineFree in *; rewrite elem_of_app; tauto).
    simpl. rewrite Hfull. reflexivity.
Qed.

(** Scanning [ls], each line with its '\n', then a line too long for the
    buffer, then anything: the tokens are those of [ls] alone, and the
    scanner ends on its error. *)
Lemma scanFrom_stops (ls : list (list ascii)) (long tail : list ascii) :
  Forall newlineFree ls ->
  newlineFree long -> (limit <= Z.of_nat (length long))%Z ->
  let before := concat (List.map (fun l => l ++ [LF]) ls) in
  fst (scanLines limit (before ++ long ++ tail)) = fst (scanLines limit before)
  /\ snd (scanLines limit (before ++ long ++ tail)) = true.
Proof.
  intros Hls Hl Hlen. cbv zeta. unfold scanLines.
  induction Hls as [|l ls Hnl _ IH].
  - simpl. rewrite scanFrom_too_long by assumption. auto.
  - simpl. rewrite <- !app_assoc. simpl.
    rewrite !(scanFrom_line l _ [] Hnl). simpl.
    destruct (limit <=? Z.of_nat (length l))%Z; [auto |].
    destruct (scanFrom limit (concat (List.map (fun l0 => l0 ++ [LF]) ls)
                                ++ long ++ tail) []) as [toks1 e1].
    destruct (scanFrom limit (concat (List.map (fun l0 => l0 ++ [LF]) ls)) [])
      as [toks2 e2].
    simpl in *. destruct IH as [-> ->]. auto.
Qed.

(** Lines that fit are all delivered, without their '\r'. *)
Lemma scanFrom_short_lines (ls : list (list ascii)) :
  Forall (fun l => newlineFree l /\ (Z.of_nat (length l) < limit)%Z) ls ->
  scanLines limit (concat (List.map (fun l => l ++ [LF]) ls))
  = (List.map dropCR ls, false).
Proof.
  unfold scanLines. induction 1 as [|l ls [Hnl Hlen] _ IH]; [reflexivity |].
  simpl. rewrite <- app_assoc. simpl.
  rewrite (scanFrom_line l _ [] Hnl). simpl.
  rewrite (proj2 (Z.leb_gt _ _) Hlen), IH. reflexivity.
Qed.
End ScanLimit.

Lemma maxTokenSize_pos : (0 < maxTokenSize)%Z.
Proof. reflexivity. Qed.

(** C10: when the payload is made of the lines [ls], then a line of at
    least [maxTokenSize] bytes, then anything, the scanner ends on
    [ErrTooLong] after the lines [ls], and [parseAndFilterLines], which
    never looks at the error, returns what it returns for [ls] alone: the
    long line and all that follows are dropped.  Lines shorter than the
    limit before the long one are all scanned. *)
Theorem C10_long_line_dropped {tbl : CaseTable} (allowed : gset (list ascii))
    (ls : list (list ascii)) (long tail : list ascii) :
  Forall newlineFree ls ->
  newlineFree long ->
  (maxTokenSize <= Z.of_nat (length long))%Z ->
  let before := concat (List.map (fun l => l ++ [LF]) ls) in
  snd (scanLines maxTokenSize (before ++ long ++ tail)) = true
  /\ parseAndFilterLines (before ++ long ++ tail) allowed
     = parseAndFilterLines before allowed
  /\ (Forall (fun l => (Z.of_nat (length l) < maxTokenSize)%Z) ls ->
      parseAndFilterLines (before ++ long ++ tail) allowed
      = flat_map (filterLine allowed) (List.map dropCR ls)).
Proof.
  intros Hls Hl Hlen before.
  destruct (scanFrom_stops maxTokenSize maxTokenSize_pos ls long tail Hls Hl Hlen)
    as [Hfst Hsnd].
  fold before in Hfst, Hsnd.
  assert (Heq : parseAndFilterLines (before ++ long ++ tail) allowed
                = parseAndFilterLines before allowed).
  { unfold parseAndFilterLines.
    destruct (scanLines maxTokenSize (before ++ long ++ tail)) as [t1 e1].
    destruct (scanLines maxTokenSize before) as [t2 e2].
    simpl in Hfst. rewrite Hfst. reflexivity. }
  split; [exact Hsnd |]. split; [exact Heq |].
  intros Hshort. rewrite Heq. unfold parseAndFilterLines, before.
  rewrite scanFrom_short_lines; [reflexivity |].
  apply Forall_and. split; assumption.
Qed.

Lemma C10_witness :
  parseAndFilterLines (tbl := Scenario.latinTable)
    ((str "ss://a" ++ [LF]) ++ Scenario.longLine ++ [LF] ++ str "ss://b")
    (list_to_set [str "ss"])
  = parseAndFilterLines (tbl := Scenario.latinTable)
      (str "ss://a" ++ [LF]) (list_to_set [str "ss"]).
Proof.
  refine (proj1 (proj2 (C10_long_line_dropped (tbl := Scenario.latinTable)
                          (list_to_set [str "ss"]) [str "ss://a"]
                          Scenario.longLine ([LF] ++ str "ss://b") _ _ _))).
  - repeat constructor. unfold newlineFree. rewrite list_elem_of_In.
    vm_compute. intuition discriminate.
  - unfold newlineFree, Scenario.longLine. intros H.
    apply list_elem_of_In, repeat_spec in H. discriminate H.
  - unfold Scenario.longLine.
    rewrite repeat_length, Z2Nat.id; [apply Z.le_refl | discriminate].
Defined.

(** ** The writer and the target path *)

Lemma removeTemp_other (os : osAnswers) (tmp p : list ascii)
    (fs : gmap (list ascii) (list ascii)) :
  p <> tmp -> removeTemp os tmp fs !! p = fs !! p.
Proof.
  intros H. unfold removeTemp. destruct (tmpRemoveDone os); [| reflexivity].
  apply lookup_delete_ne. congruence.
Qed.

Lemma tempPath_neq (path rnd : list ascii) : tempPath path rnd <> path.
Proof.
  unfold tempPath. intros E. apply (f_equal (@length ascii)) in E.
  rewrite !length_app in E. simpl in E. lia.
Qed.

Lemma renameLoop_states {tbl : CaseTable} (os : osAnswers) (tmp path enc : list ascii)
    (old : option (list ascii)) (todo i : nat) (fs : gmap (list ascii) (list ascii)) :
  tmp <> path ->
  fs !! tmp = Some enc ->
  targetOk old enc fs path ->
  forall st, st ∈ fst (renameLoop os tmp path i todo fs) ->
             targetOk old enc st path.
Proof.
  intros Hne. revert i fs. induction todo as [|todo IH]; intros i fs Htmp Hok st.
  - simpl. intros ->%list_elem_of_singleton.
    unfold targetOk. rewrite removeTemp_other by congruence. exact Hok.
  - simpl.
    set (fs1 := if removeDone os i then delete path fs else fs).
    assert (Htmp1 : fs1 !! tmp = Some enc).
    { unfold fs1. destruct (removeDone os i); [| exact Htmp].
      rewrite lookup_delete_ne by congruence. exact Htmp. }
    assert (Hok1 : targetOk old enc fs1 path).
    { unfold fs1. destruct (removeDone os i); [| exact Hok].
      right. left. apply lookup_delete_eq. }
    destruct (renameError os i) as [err|].
    + destruct (isBusy err && _).
      * destruct (renameLoop os tmp path (S i) todo fs1) as [states res] eqn:E.
        simpl. intros [-> | Hin]%elem_of_cons; [exact Hok1 |].
        apply (IH (S i) fs1 Htmp1 Hok1). rewrite E. exact Hin.
      * simpl. intros [-> | ->%list_elem_of_singleton]%elem_of_cons;
          [exact Hok1 |].
        unfold targetOk. rewrite removeTemp_other by congruence. exact Hok1.
    + simpl. intros [-> | ->%list_elem_of_singleton]%elem_of_cons;
        [exact Hok1 |].
      unfold rename. rewrite Htmp1. right. right. apply lookup_insert_eq.
Qed.

Lemma renameLoop_ok {tbl : CaseTable} (os : osAnswers) (tmp path enc : list ascii)
    (todo i : nat) (fs : gmap (list ascii) (list ascii)) :
  tmp <> path ->
  fs !! tmp = Some enc ->
  snd (renameLoop os tmp path i todo fs) = WriteOk ->
  exists st, last (fst (renameLoop os tmp path i todo fs)) = Some st
             /\ st !! path = Some enc /\ st !! tmp = None.
Proof.
  intros Hne. revert i fs. induction todo as [|todo IH]; intros i fs Htmp.
  - discriminate.
  - simpl.
    set (fs1 := if removeDone os i then delete path fs else fs).
    assert (Htmp1 : fs1 !! tmp = Some enc).
    { unfold fs1. destruct (removeDone os i); [| exact Htmp].
      rewrite lookup_delete_ne by congruence. exact Htmp. }
    destruct (renameError os i) as [err|].
    + destruct (isBusy err && _); [| discriminate].
      specialize (IH (S i) fs1 Htmp1).
      destruct (renameLoop os tmp path (S i) todo fs1) as [states res].
      simpl in *. intros Hres. destruct (IH Hres) as (st & Hl & Hst).
      exists st. split; [| exact Hst].
      destruct states; [discriminate Hl | exact Hl].
    + intros _. exists (rename tmp path fs1). split; [reflexivity |].
      unfold rename. rewrite Htmp1. split; [apply lookup_insert_eq |].
      rewrite lookup_insert_ne by congruence. apply lookup_delete_eq.
Qed.

(** C5: the write is not atomic.  The target is removed before every
    rename attempt, so while a write is under way an observer can find no
    file where the previous output was (the fifth state of a write that goes
    well); and when every rename finds the target busy, the write gives up
    after six tries with the previous output gone and nothing in its
    place. *)
Theorem C5_target_removed_example :
  Scenario.fsBefore !! Scenario.target = Some (str "c3M6Ly9vbGQ=")
  /\ encodedPayload [str "ss://new"] = str "c3M6Ly9uZXc="
  /\ snd (writeBase64Atomic (tbl := Scenario.latinTable) Scenario.osAllGood
            Scenario.target [str "ss://new"] Scenario.fsBefore)
     = WriteOk
  /\ (fun st => st !! Scenario.target)
       <$> fst (writeBase64Atomic (tbl := Scenario.latinTable) Scenario.osAllGood
                  Scenario.target [str "ss://new"] Scenario.fsBefore) !! 4
     = Some None
  /\ snd (writeBase64Atomic (tbl := Scenario.latinTable) Scenario.osAlwaysBusy
            Scenario.target [str "ss://new"] Scenario.fsBefore)
     = RenameError 6 (str "Access is denied.")
  /\ (fun st => st !! Scenario.target)
       <$> last (fst (writeBase64Atomic (tbl := Scenario.latinTable)
                        Scenario.osAlwaysBusy Scenario.target [str "ss://new"]
                        Scenario.fsBefore))
     = Some None.
Proof. vm_compute. repeat split; reflexivity. Qed.

(** ** The scheme filter *)

Lemma schemeAllowed_spec (allowed : gset (list ascii)) (l : list ascii) :
  schemeAllowed allowed l = true
  <-> exists sch, sch ∈ allowed /\ HasPrefix l (sch ++ str "://") = true.
Proof.
  unfold schemeAllowed. rewrite existsb_exists. split.
  - intros (sch & Hin & H). exists sch. split; [| exact H].
    apply elem_of_elements, list_elem_of_In, Hin.
  - intros (sch & Hin & H). exists sch. split; [| exact H].
    apply list_elem_of_In, elem_of_elements, Hin.
Qed.

Lemma HasPrefix_Index (l sch : list ascii) :
  HasPrefix l (sch ++ str "://") = true -> is_Some (Index l (str "://")).
Proof.
  intros [post ->]%HasPrefix_spec.
  destruct (Index ((sch ++ str "://") ++ post) (str "://")) eqn:E; [eauto |].
  pose proof (Index_None _ _ E (length sch)) as N.
  rewrite <- !app_assoc, drop_app_length, HasPrefix_app in N. discriminate N.
Qed.

(** What [filterItem] has found when it keeps a segment. *)
Lemma filterItem_entry {tbl : CaseTable} (allowed : gset (list ascii))
    (seg e : list ascii) :
  filterItem allowed seg = Some e ->
  e = normalizeScheme (TrimSpace seg)
  /\ TrimSpace seg <> []
  /\ reCommentLine (TrimSpace seg) = false
  /\ schemeAllowed allowed (ToLower (TrimSpace seg)) = true.
Proof.
  unfold filterItem. cbv zeta.
  destruct (isEmpty (TrimSpace seg)) eqn:E1; [discriminate |].
  destruct (reCommentLine (TrimSpace seg)) eqn:E2; [discriminate |]. simpl.
  destruct (schemeAllowed allowed (ToLower (TrimSpace seg))) eqn:E3; [| discriminate].
  intros [= <-]. apply isEmpty_false in E1. auto.
Qed.

Lemma filterItem_is_Some {tbl : CaseTable} (allowed : gset (list ascii))
    (seg : list ascii) :
  is_Some (filterItem allowed seg)
  <-> isEmpty (TrimSpace seg) = false
      /\ reCommentLine (TrimSpace seg) = false
      /\ schemeAllowed allowed (ToLower (TrimSpace seg)) = true.
Proof.
  unfold filterItem. cbv zeta.
  destruct (isEmpty (TrimSpace seg)); simpl.
  - split; [intros [x H]; discriminate H | intros [H _]; discriminate H].
  - destruct (reCommentLine (TrimSpace seg)).
    + split; [intros [x H]; discriminate H | intros (_ & H & _); discriminate H].
    + destruct (schemeAllowed allowed (ToLower (TrimSpace seg))).
      * split; [auto | intros _; eexists; reflexivity].
      * split; [intros [x H]; discriminate H | intros (_ & _ & H); discriminate H].
Qed.

(** Segments that differ in the case of ASCII letters only are kept or
    dropped together. *)
Lemma filterItem_caseless {tbl : CaseTable} (allowed : gset (list ascii))
    (seg1 seg2 : list ascii) :
  lowerASCII seg1 = lowerASCII seg2 ->
  (is_Some (filterItem allowed seg1) <-> is_Some (filterItem allowed seg2)).
Proof.
  intros E.
  assert (Et : lowerASCII (TrimSpace seg1) = lowerASCII (TrimSpace seg2))
    by (rewrite <- !TrimSpace_lowerASCII, E; reflexivity).
  rewrite !filterItem_is_Some.
  rewrite <- (isEmpty_lowerASCII (TrimSpace seg1)),
          <- (reCommentLine_lowerASCII (TrimSpace seg1)),
          (ToLower_caseless _ _ Et), Et,
          isEmpty_lowerASCII, reCommentLine_lowerASCII.
  reflexivity.
Qed.

(** What follows "://" has no part in a match of a scheme without colon:
    two texts that agree up to a "://" start with the scheme and "://"
    together. *)
Lemma prefix_transfer (X Y Z sch : list ascii) :
  ":"%char ∉ sch ->
  HasPrefix (X ++ str "://" ++ Y) (sch ++ str "://") = true ->
  HasPrefix (X ++ str "://" ++ Z) (sch ++ str "://") = true.
Proof.
  revert X. induction sch as [|c sch IH]; intros X Hc H.
  - apply HasPrefix_spec in H as [post H]. apply HasPrefix_spec.
    change (str "://") with [":"; "/"; "/"]%char in *.
    destruct X as [|x1 [|x2 [|x3 X]]]; simpl in *.
    + eauto.
    + discriminate H.
    + discriminate H.
    + injection H as -> -> -> _. eauto.
  - apply not_elem_of_cons in Hc as [Hc Hs].
    destruct X as [|x X].
    + apply HasPrefix_spec in H as [post H].
      change (str "://") with [":"; "/"; "/"]%char in H. simpl in H.
      injection H as E _. congruence.
    + cbn [HasPrefix app] in *.
      apply andb_true_iff in H as [-> H]. simpl. apply IH; assumption.
Qed.

(** *** Items whose scheme is made of ASCII bytes *)

Lemma plainScheme_Index {tbl : CaseTable} (it sch : list ascii) :
  plainScheme it = true ->
  HasPrefix (ToLower it) (sch ++ str "://") = true ->
  exists idx, Index it (str "://") = Some idx /\ isASCII (take idx it) = true.
Proof.
  unfold plainScheme. destruct (Index it (str "://")) as [idx|] eqn:E; [eauto |].
  intros Ha Hpre. rewrite (ToLower_isASCII _ Ha) in Hpre.
  destruct (HasPrefix_Index _ _ Hpre) as [i Hi].
  rewrite Index_lowerASCII in Hi by reflexivity. congruence.
Qed.

Lemma normalizeScheme_plain {tbl : CaseTable} (it : list ascii) (idx : nat) :
  Index it (str "://") = Some idx ->
  isASCII (take idx it) = true ->
  normalizeScheme it = lowerASCII (take idx it) ++ drop idx it
  /\ lowerASCII (normalizeScheme it) = lowerASCII it
  /\ Index (normalizeScheme it) (str "://") = Some idx
  /\ take idx (normalizeScheme it) = lowerASCII (take idx it)
  /\ drop idx (normalizeScheme it) = drop idx it.
Proof.
  intros Hidx Ha.
  assert (E : normalizeScheme it = lowerASCII (take idx it) ++ drop idx it).
  { unfold normalizeScheme. rewrite Hidx, (ToLower_isASCII _ Ha). reflexivity. }
  assert (F : lowerASCII (normalizeScheme it) = lowerASCII it).
  { rewrite E, lowerASCII_app, lowerASCII_idemp, <- lowerASCII_app, take_drop.
    reflexivity. }
  destruct (Index_Some _ _ _ Hidx) as (Hle & _ & _).
  assert (Hlen : length (lowerASCII (take idx it)) = idx)
    by (rewrite lowerASCII_length, length_take; lia).
  split; [exact E |]. split; [exact F |]. split; [| split].
  - rewrite <- (Index_lowerASCII (normalizeScheme it)) by reflexivity.
    rewrite F, Index_lowerASCII by reflexivity. exact Hidx.
  - rewrite E. rewrite <- Hlen at 1. apply take_app_length.
  - rewrite E. rewrite <- Hlen at 1. apply drop_app_length.
Qed.

(** C9: a kept segment starts, once lower-cased by [strings.ToLower], with
    an allowed scheme and "://"; the entry emitted for it is the lower case
    of the bytes before its first "://", followed by all bytes from there on
    as they are, and it starts with the allowed scheme itself when that
    holds no colon; a segment without "://" is emitted as it is.  When the
    bytes before the first "://" are ASCII bytes,
    the first "://" of the entry stands where it stood and the bytes before
    it have their letters in lower case.  Two segments that differ in the
    case of ASCII letters only are kept or dropped together.  Lower case is
    that of runes: with Go's table the Kelvin sign is a capital k. *)
Theorem C9_scheme_filter {tbl : CaseTable} :
  (forall allowed seg out,
     filterItem allowed seg = Some out ->
     let it := TrimSpace seg in
     exists sch,
       sch ∈ allowed
       /\ HasPrefix (ToLower it) (sch ++ str "://") = true
       /\ (forall idx,
             Index it (str "://") = Some idx ->
             out = ToLower (take idx it) ++ drop idx it
             /\ drop (length (ToLower (take idx it))) out = drop idx it
             /\ (":"%char ∉ sch -> HasPrefix out (sch ++ str "://") = true))
       /\ (Index it (str "://") = None -> out = it))
  /\ (forall allowed seg out,
        filterItem allowed seg = Some out ->
        let it := TrimSpace seg in
        plainScheme it = true ->
        exists idx,
          Index it (str "://") = Some idx
          /\ Index out (str "://") = Some idx
          /\ take idx out = lowerASCII (take idx it)
          /\ drop idx out = drop idx it)
  /\ (forall allowed seg1 seg2,
        lowerASCII seg1 = lowerASCII seg2 ->
        (is_Some (filterItem allowed seg1) <-> is_Some (filterItem allowed seg2)))
  /\ filterItem (list_to_set [str "ss"; str "vmess"]) (str "VmEsS://XyZ")
     = Some (str "vmess://XyZ")
  /\ filterItem (tbl := Scenario.latinTable) (list_to_set [str "socks"])
       (str "SOC" ++ ["226"; "132"; "170"]%char ++ str "S://Host")
     = Some (str "socks://Host").
Proof.
  split; [| split; [| split; [exact filterItem_caseless |]]];
    [| | split; [| vm_compute; reflexivity]].
  3: { unfold filterItem. cbv zeta.
       change (TrimSpace (str "VmEsS://XyZ")) with (str "VmEsS://XyZ").
       change (ToLower (str "VmEsS://XyZ")) with (str "vmess://xyz").
       change (normalizeScheme (str "VmEsS://XyZ")) with (str "vmess://XyZ").
       vm_compute. reflexivity. }
  - intros allowed seg out H it.
    destruct (filterItem_entry _ _ _ H) as (-> & _ & _ & Hal). fold it in Hal |- *.
    apply schemeAllowed_spec in Hal as (sch & Hin & Hpre).
    exists sch. split; [exact Hin |]. split; [exact Hpre |].
    split; [| intros Hnone; unfold normalizeScheme; rewrite Hnone; reflexivity].
    intros idx Hidx.
    assert (E : normalizeScheme it = ToLower (take idx it) ++ drop idx it)
      by (unfold normalizeScheme; rewrite Hidx; reflexivity).
    split; [exact E |]. split; [rewrite E; apply drop_app_length |].
    intros Hc. rewrite E.
    destruct (Index_Some _ _ _ Hidx) as (_ & Hocc & _).
    rewrite (ToLower_separator it idx Hocc) in Hpre.
    apply HasPrefix_spec in Hocc as [post Hpost]. rewrite Hpost.
    exact (prefix_transfer _ _ post sch Hc Hpre).
  - intros allowed seg out H it Hplain.
    destruct (filterItem_entry _ _ _ H) as (-> & _ & _ & Hal). fold it in Hal |- *.
    apply schemeAllowed_spec in Hal as (sch & Hin & Hpre).
    destruct (plainScheme_Index it sch Hplain Hpre) as (idx & Hidx & Ha).
    destruct (normalizeScheme_plain it idx Hidx Ha) as (_ & _ & ? & ? & ?).
    exists idx. auto.
Qed.

Lemma C9_witness :
  (exists sch,
     sch ∈ (list_to_set [str "socks"] : gset (list ascii))
     /\ HasPrefix (ToLower (tbl := Scenario.latinTable)
                     (str "SOC" ++ ["226"; "132"; "170"]%char ++ str "S://Host"))
          (sch ++ str "://") = true)
  /\ (exists idx,
     Index (TrimSpace (str " VMESS://Xy ")) (str "://") = Some idx
     /\ Index (str "vmess://Xy") (str "://") = Some idx
     /\ take idx (str "vmess://Xy")
        = lowerASCII (take idx (TrimSpace (str " VMESS://Xy ")))
     /\ drop idx (str "vmess://Xy") = drop idx (TrimSpace (str " VMESS://Xy ")))
  /\ (is_Some (filterItem (tbl := Scenario.latinTable)
                 (list_to_set [str "ss"]) (str "SS://a"))
      <-> is_Some (filterItem (tbl := Scenario.latinTable)
                     (list_to_set [str "ss"]) (str "ss://A"))).
Proof.
  split; [| split].
  - destruct (proj1 (C9_scheme_filter (tbl := Scenario.latinTable))
                (list_to_set [str "socks"])
                (str "SOC" ++ ["226"; "132"; "170"]%char ++ str "S://Host")
                (str "socks://Host"))
      as (sch & Hin & Hpre & _); [vm_compute; reflexivity |].
    exists sch. split; [exact Hin | exact Hpre].
  - apply (proj1 (proj2 (C9_scheme_filter (tbl := Scenario.latinTable)))
             (list_to_set [str "ss"; str "vmess"])
             (str " VMESS://Xy ") (str "vmess://Xy")); vm_compute; reflexivity.
  - apply (proj1 (proj2 (proj2 (C9_scheme_filter (tbl := Scenario.latinTable))))
             (list_to_set [str "ss"]) (str "SS://a") (str "ss://A")).
    vm_compute. reflexivity.
Defined.

(** * Further properties of the program *)

(** ** What trimming keeps *)

Lemma TrimSpace_infix (s : list ascii) : exists p w, s = p ++ TrimSpace s ++ w.
Proof.
  unfold TrimSpace.
  destruct (trimFront_suffix space2 space3 s) as [p Hp].
  fold (TrimLeftSpace s) in Hp.
  destruct (TrimRightSpace_prefix (TrimLeftSpace s)) as [w Hw].
  exists p, w. rewrite <- Hw. exact Hp.
Qed.

Lemma TrimSpace_elem (s : list ascii) c : c ∈ TrimSpace s -> c ∈ s.
Proof.
  destruct (TrimSpace_infix s) as (p & w & E). intros H. rewrite E.
  rewrite !elem_of_app. tauto.
Qed.

Lemma high_not_plain (c : ascii) : ("128" <=? c)%char = true -> plainByte c = false.
Proof.
  destruct c as [[] [] [] [] [] [] [] []]; vm_compute; intros H;
    first [discriminate H | reflexivity].
Qed.

Lemma asciiSpace_not_plain (c : ascii) : asciiSpace c = true -> plainByte c = false.
Proof. unfold plainByte. intros ->. reflexivity. Qed.

Lemma space2_not_plain c1 c2 :
  space2 c1 c2 = true -> plainByte c1 = false /\ plainByte c2 = false.
Proof.
  unfold space2. rewrite andb_true_iff, orb_true_iff, !Ascii.eqb_eq.
  intros [-> [-> | ->]]; split; reflexivity.
Qed.

Lemma space3_not_plain c1 c2 c3 :
  space3 c1 c2 c3 = true ->
  plainByte c1 = false /\ plainByte c2 = false /\ plainByte c3 = false.
Proof.
  unfold space3.
  rewrite !orb_true_iff, !andb_true_iff, !orb_true_iff, !andb_true_iff,
    !Ascii.eqb_eq.
  intros [[[H | H] | H] | H].
  - destruct H as [[-> ->] ->]. repeat split; reflexivity.
  - destruct H as [[-> ->] H]. split; [reflexivity |]. split; [reflexivity |].
    destruct H as [[[[H _] | ->] | ->] | ->];
      [apply high_not_plain, H | reflexivity | reflexivity | reflexivity].
  - destruct H as [[-> ->] ->]. repeat split; reflexivity.
  - destruct H as [[-> ->] ->]. repeat split; reflexivity.
Qed.

Section TrimPlain.
Variable sp2 : ascii -> ascii -> bool.
Variable sp3 : ascii -> ascii -> ascii -> bool.
Hypothesis sp2_not_plain :
  forall c1 c2, sp2 c1 c2 = true -> plainByte c1 = false /\ plainByte c2 = false.
Hypothesis sp3_not_plain :
  forall c1 c2 c3, sp3 c1 c2 c3 = true ->
    plainByte c1 = false /\ plainByte c2 = false /\ plainByte c3 = false.

(** The bytes of the rune removed are not plain. *)
Lemma spaceWidth_not_plain (s : list ascii) c :
  c ∈ take (spaceWidth sp2 sp3 s) s -> plainByte c = false.
Proof.
  destruct s as [|c1 r1]; simpl; [intros H; inversion H |].
  destruct (asciiSpace c1) eqn:S1.
  { simpl. rewrite take_0. intros ->%list_elem_of_singleton.
    apply asciiSpace_not_plain, S1. }
  destruct r1 as [|c2 r2]; [simpl; intros H; inversion H |].
  destruct (sp2 c1 c2) eqn:S2.
  { destruct (sp2_not_plain _ _ S2) as [P1 P2]. simpl. rewrite take_0.
    intros [-> | [-> | H]%elem_of_cons]%elem_of_cons;
      [exact P1 | exact P2 | inversion H]. }
  destruct r2 as [|c3 r3]; [simpl; intros H; inversion H |].
  destruct (sp3 c1 c2 c3) eqn:S3; [| simpl; intros H; inversion H].
  destruct (sp3_not_plain _ _ _ S3) as (P1 & P2 & P3). simpl. rewrite take_0.
  intros [-> | [-> | [-> | H]%elem_of_cons]%elem_of_cons]%elem_of_cons;
    [exact P1 | exact P2 | exact P3 | inversion H].
Qed.

Lemma trimFront_keeps_plain (s : list ascii) c :
  plainByte c = true -> c ∈ s -> c ∈ trimFront sp2 sp3 s.
Proof.
  intros Hc.
  apply (trimFront_ind sp2 sp3 (fun s t => c ∈ s -> c ∈ t)); [auto |].
  intros s0 t _ IH Hin. apply IH.
  rewrite <- (take_drop (spaceWidth sp2 sp3 s0) s0) in Hin.
  apply elem_of_app in Hin as [Hin | Hin]; [| exact Hin].
  apply spaceWidth_not_plain in Hin. congruence.
Qed.

(** A plain byte stops the trimming, wherever it stands. *)
Lemma spaceWidth_app_plain (u v : list ascii) c :
  plainByte c = true ->
  spaceWidth sp2 sp3 (u ++ c :: v) = spaceWidth sp2 sp3 u.
Proof.
  intros Hc.
  assert (A : asciiSpace c = false).
  { destruct (asciiSpace c) eqn:E; [| reflexivity].
    apply asciiSpace_not_plain in E. congruence. }
  assert (B : forall x y, sp2 x y = true -> x <> c /\ y <> c).
  { intros x y H. destruct (sp2_not_plain _ _ H). split; congruence. }
  assert (C : forall x y z, sp3 x y z = true -> x <> c /\ y <> c /\ z <> c).
  { intros x y z H. destruct (sp3_not_plain _ _ _ H) as (? & ? & ?).
    repeat split; congruence. }
  assert (B1 : forall y, sp2 c y = false).
  { intros y. destruct (sp2 c y) eqn:E; [| reflexivity].
    destruct (B _ _ E). congruence. }
  assert (B2 : forall x, sp2 x c = false).
  { intros x. destruct (sp2 x c) eqn:E; [| reflexivity].
    destruct (B _ _ E). congruence. }
  assert (C1 : forall y z, sp3 c y z = false).
  { intros y z. destruct (sp3 c y z) eqn:E; [| reflexivity].
    destruct (C _ _ _ E) as (? & ? & ?). congruence. }
  assert (C2 : forall x z, sp3 x c z = false).
  { intros x z. destruct (sp3 x c z) eqn:E; [| reflexivity].
    destruct (C _ _ _ E) as (? & ? & ?). congruence. }
  assert (C3 : forall x y, sp3 x y c = false).
  { intros x y. destruct (sp3 x y c) eqn:E; [| reflexivity].
    destruct (C _ _ _ E) as (? & ? & ?). congruence. }
  destruct u as [|c1 [|c2 [|c3 r]]]; simpl.
  - rewrite A. destruct v as [|y [|z v]]; rewrite ?B1, ?C1; reflexivity.
  - destruct (asciiSpace c1); [reflexivity |]. rewrite B2.
    destruct v; rewrite ?C2; reflexivity.
  - destruct (asciiSpace c1); [reflexivity |].
    destruct (sp2 c1 c2); [reflexivity |]. rewrite C3. reflexivity.
  - reflexivity.
Qed.

Lemma trimFront_app_plain (u v : list ascii) c :
  plainByte c = true ->
  trimFront sp2 sp3 (u ++ c :: v) = trimFront sp2 sp3 u ++ c :: v.
Proof.
  intros Hc.
  apply (trimFront_ind sp2 sp3
           (fun u t => trimFront sp2 sp3 (u ++ c :: v) = t ++ c :: v)).
  - intros u0 H. apply trimFront_fixed. rewrite spaceWidth_app_plain; assumption.
  - intros u0 t Hw IH. rewrite trimFront_unfold, spaceWidth_app_plain by assumption.
    destruct (spaceWidth sp2 sp3 u0) as [|w] eqn:E; [contradiction Hw; reflexivity |].
    rewrite drop_app_le; [exact IH |].
    pose proof (spaceWidth_le sp2 sp3 u0). lia.
Qed.
End TrimPlain.

Lemma elem_of_rev {A} (l : list A) (x : A) : x ∈ rev l <-> x ∈ l.
Proof. rewrite !list_elem_of_In. symmetry. apply in_rev. Qed.

Lemma TrimSpace_keeps_plain (s : list ascii) c :
  plainByte c = true -> c ∈ s -> c ∈ TrimSpace s.
Proof.
  intros Hc Hin. unfold TrimSpace, TrimRightSpace, TrimLeftSpace.
  apply elem_of_rev. apply trimFront_keeps_plain.
  - intros c1 c2 H. apply space2_not_plain in H. tauto.
  - intros c1 c2 c3 H. apply space3_not_plain in H. tauto.
  - exact Hc.
  - apply elem_of_rev.
    apply (trimFront_keeps_plain space2 space3 space2_not_plain space3_not_plain);
      assumption.
Qed.

(** Text that starts and ends with a plain byte is left as it is. *)
Lemma TrimLeftSpace_plain (c : ascii) (t : list ascii) :
  plainByte c = true -> TrimLeftSpace (c :: t) = c :: t.
Proof.
  intros Hc. unfold TrimLeftSpace. apply trimFront_fixed.
  apply (spaceWidth_app_plain space2 space3 space2_not_plain space3_not_plain
           [] t c Hc).
Qed.

Lemma TrimRightSpace_plain (p t : list ascii) (c : ascii) :
  plainByte c = true ->
  TrimRightSpace (p ++ c :: t) = p ++ c :: TrimRightSpace t.
Proof.
  intros Hc. unfold TrimRightSpace.
  rewrite rev_app_distr. simpl. rewrite <- app_assoc. simpl.
  rewrite trimFront_app_plain.
  - rewrite rev_app_distr. simpl. rewrite rev_involutive, <- app_assoc. reflexivity.
  - intros c1 c2 H. apply space2_not_plain in H. tauto.
  - intros c1 c2 c3 H. apply space3_not_plain in H. tauto.
  - exact Hc.
Qed.

(** ** More on the payload decoder *)

(** X1: a payload with a plain byte outside the base64 class (a colon, a
    dot, a space between words, ...) is returned as it is: plain-text
    subscriptions pass through untouched. *)
Theorem X1_plain_text_passes (b : list ascii) (c : ascii) :
  c ∈ b -> plainByte c = true -> b64Class c = false ->
  tryDecodeIfBase64 b = b.
Proof.
  intros Hin Hp Hc. pose proof (TrimSpace_keeps_plain b c Hp Hin) as Ht.
  rewrite tryDecodeIfBase64_unfold. cbv zeta.
  destruct (TrimSpace b) as [|d t] eqn:E; [inversion Ht |].
  assert (Hre : rePossibleB64 (d :: t) = false).
  { unfold rePossibleB64. simpl negb.
    destruct (forallb b64Class (d :: t)) eqn:F; [| reflexivity].
    rewrite forallb_forall in F. rewrite list_elem_of_In in Ht.
    rewrite (F c Ht) in Hc. discriminate Hc. }
  rewrite Hre. reflexivity.
Qed.

Lemma X1_witness :
  tryDecodeIfBase64 (str "ss://YWJj" ++ [LF] ++ str "dmxlc3M6Ly9h")
  = str "ss://YWJj" ++ [LF] ++ str "dmxlc3M6Ly9h".
Proof.
  apply (X1_plain_text_passes _ ":"%char).
  - rewrite list_elem_of_In. vm_compute.
    repeat (first [left; reflexivity | right]).
  - reflexivity.
  - reflexivity.
Defined.

Lemma tryDecodeIfBase64_cases (b : list ascii) :
  (TrimSpace b = [] /\ tryDecodeIfBase64 b = [])
  \/ tryDecodeIfBase64 b = b
  \/ (DecodeString (TrimSpace b) = Some (tryDecodeIfBase64 b)
      /\ looksLikeProxyList (tryDecodeIfBase64 b) = true
      /\ length (tryDecodeIfBase64 b) < length b).
Proof.
  rewrite tryDecodeIfBase64_unfold. cbv zeta.
  destruct (isEmpty (TrimSpace b)) eqn:E.
  { left. destruct (TrimSpace b); [auto | discriminate E]. }
  destruct (negb (rePossibleB64 (TrimSpace b))); [auto |].
  destruct (DecodeString (TrimSpace b)) as [dec|] eqn:D; [| auto].
  destruct (looksLikeProxyList dec) eqn:L; [| auto].
  right. right. split; [reflexivity |]. split; [exact L |].
  apply isEmpty_false in E.
  pose proof (DecodeString_shorter _ _ D E).
  pose proof (TrimSpace_length b). lia.
Qed.

(** X2: the result is one of three things: the empty text when the payload
    is white space only; the payload itself; or the decoding of the trimmed
    payload, which then holds one of the three markers and is shorter than
    the payload.  It is never longer than the payload. *)
Theorem X2_decoder_result (b : list ascii) :
  ((TrimSpace b = [] /\ tryDecodeIfBase64 b = [])
   \/ tryDecodeIfBase64 b = b
   \/ (DecodeString (TrimSpace b) = Some (tryDecodeIfBase64 b)
       /\ looksLikeProxyList (tryDecodeIfBase64 b) = true
       /\ length (tryDecodeIfBase64 b) < length b))
  /\ length (tryDecodeIfBase64 b) <= length b.
Proof.
  pose proof (tryDecodeIfBase64_cases b) as H. split; [exact H |].
  destruct H as [[_ ->] | [-> | (_ & _ & H)]]; simpl; lia.
Qed.

(** X3: the second decoding attempt of the program, made after removing
    '\n', never succeeds where the first one failed, the decoder skipping
    '\r' and '\n' by itself: the outcome of the two attempts is that of the
    first. *)
Theorem X3_retry_never_decides (trim : list ascii) :
  DecodeString (ReplaceAll trim [LF] []) = DecodeString trim
  /\ wholeBlobDecode trim = DecodeString trim.
Proof.
  split; [apply DecodeString_ReplaceAll | apply wholeBlobDecode_DecodeString].
Qed.

(** ** Texts that differ in the case of ASCII letters only *)


Section SameFolded.
Variables a b : list ascii.
Hypothesis same : lowerASCII a = lowerASCII b.

Lemma same_length : length a = length b.
Proof. rewrite <- (lowerASCII_length a), same. apply lowerASCII_length. Qed.




Lemma same_HasPrefix (p : list ascii) :
  forallb (fun k => negb (isLetter k)) p = true -> HasPrefix a p = HasPrefix b p.
Proof.
  intros Hp. rewrite <- (HasPrefix_lowerASCII a p Hp), same.
  apply HasPrefix_lowerASCII, Hp.
Qed.

End SameFolded.

Lemma isASCII_lowerASCII (s : list ascii) : isASCII (lowerASCII s) = isASCII s.
Proof.
  induction s as [|c s IH]; [reflexivity |]. simpl. rewrite IH. f_equal.
  destruct c as [[] [] [] [] [] [] [] []]; reflexivity.
Qed.

(** *** [normalizeScheme] on an item with a plain scheme *)

Lemma normalizeScheme_folded {tbl : CaseTable} (it : list ascii) :
  plainScheme it = true -> lowerASCII (normalizeScheme it) = lowerASCII it.
Proof.
  unfold plainScheme. destruct (Index it (str "://")) as [idx|] eqn:E; intros Ha.
  - apply (normalizeScheme_plain it idx E Ha).
  - unfold normalizeScheme. rewrite E. reflexivity.
Qed.


Lemma normalizeScheme_idemp {tbl : CaseTable} (it : list ascii) :
  plainScheme it = true ->
  normalizeScheme (normalizeScheme it) = normalizeScheme it.
Proof.
  unfold plainScheme. destruct (Index it (str "://")) as [idx|] eqn:E; intros Ha.
  - destruct (normalizeScheme_plain it idx E Ha) as (E1 & _ & E3 & E4 & E5).
    unfold normalizeScheme at 1. rewrite E3, E4, E5.
    rewrite ToLower_isASCII by (rewrite isASCII_lowerASCII; exact Ha).
    rewrite lowerASCII_idemp. symmetry. exact E1.
  - unfold normalizeScheme. rewrite E, E. reflexivity.
Qed.

(** ** Scanned lines and split pieces *)






(** ** The entries of [parseAndFilterLines] *)

Lemma parseAndFilterLines_elem {tbl : CaseTable} (b : list ascii)
    (allowed : gset (list ascii)) e :
  e ∈ parseAndFilterLines b allowed <->
  exists tok piece,
    tok ∈ fst (scanLines maxTokenSize b)
    /\ (isEmpty (TrimSpace tok) || reCommentLine (TrimSpace tok)) = false
    /\ piece ∈ splitPossible (TrimSpace tok)
    /\ filterItem allowed piece = Some e.
Proof.
  unfold parseAndFilterLines.
  destruct (scanLines maxTokenSize b) as [toks err]. simpl.
  rewrite list_elem_of_In, in_flat_map. split.
  - intros (tok & Htok & He). unfold filterLine in He. cbv zeta in He.
    destruct (isEmpty (TrimSpace tok) || reCommentLine (TrimSpace tok)) eqn:E;
      [inversion He |].
    apply list_elem_of_In, list_elem_of_omap in He as (piece & Hp & Hf).
    exists tok, piece. rewrite list_elem_of_In. auto.
  - intros (tok & piece & Htok & E & Hp & Hf). exists tok.
    rewrite <- list_elem_of_In. split; [exact Htok |].
    unfold filterLine. cbv zeta. rewrite E.
    apply list_elem_of_In, list_elem_of_omap. exists piece. auto.
Qed.









(** X6: on a line with at most one "://" the line filter is the item
    filter: the line gives the entry [filterItem] gives for it, or none. *)
Theorem X6_single_uri_line {tbl : CaseTable} (allowed : gset (list ascii))
    (text : list ascii) :
  Count (TrimSpace text) (str "://") <= 1 ->
  filterLine allowed text
  = match filterItem allowed text with Some e => [e] | None => [] end.
Proof.
  intros Hc. unfold filterLine, splitPossible. cbv zeta.
  rewrite (proj2 (Nat.leb_le _ _) Hc).
  assert (Hf : filterItem allowed (TrimSpace text) = filterItem allowed text).
  { unfold filterItem. cbv zeta. rewrite TrimSpace_idemp. reflexivity. }
  simpl. rewrite Hf.
  destruct (isEmpty (TrimSpace text) || reCommentLine (TrimSpace text)) eqn:E.
  - unfold filterItem. cbv zeta. rewrite E. reflexivity.
  - destruct (filterItem allowed text); reflexivity.
Qed.

Lemma X6_witness :
  filterLine (tbl := Scenario.latinTable) (list_to_set [str "ss"])
    (str " SS://a?x=1 ")
  = match filterItem (tbl := Scenario.latinTable) (list_to_set [str "ss"])
            (str " SS://a?x=1 ") with
    | Some e => [e]
    | None => []
    end.
Proof.
  apply X6_single_uri_line. vm_compute. lia.
Defined.

(** ** [normalizeScheme] *)

(** X7: on a text whose bytes before the first "://" are ASCII bytes,
    [normalizeScheme] changes the case of ASCII letters only (the length
    stays, and with the ASCII letters in lower case the text is the same),
    and applying it twice is applying it once; a text without "://" is
    returned as it is. *)
Theorem X7_normalizeScheme {tbl : CaseTable} (s : list ascii) :
  (plainScheme s = true ->
     length (normalizeScheme s) = length s
     /\ lowerASCII (normalizeScheme s) = lowerASCII s
     /\ normalizeScheme (normalizeScheme s) = normalizeScheme s)
  /\ (Index s (str "://") = None -> normalizeScheme s = s).
Proof.
  split.
  - intros H. pose proof (normalizeScheme_folded s H) as F.
    split; [exact (same_length _ _ F) |]. split; [exact F |].
    apply normalizeScheme_idemp, H.
  - intros H. unfold normalizeScheme. rewrite H. reflexivity.
Qed.

Lemma X7_witness :
  length (normalizeScheme (tbl := Scenario.latinTable) (str "VLESS://Ab"))
  = length (str "VLESS://Ab")
  /\ normalizeScheme (tbl := Scenario.latinTable) (str "no scheme") = str "no scheme".
Proof.
  split.
  - apply (proj1 (X7_normalizeScheme (tbl := Scenario.latinTable) (str "VLESS://Ab"))).
    vm_compute. reflexivity.
  - apply (proj2 (X7_normalizeScheme (tbl := Scenario.latinTable) (str "no scheme"))).
    vm_compute. reflexivity.
Defined.

(** ** More on the de-duplicator *)

Lemma filter_all {A} (P : A -> Prop) `{HP : !forall x, Decision (P x)}
    (l : list A) :
  (forall x, x ∈ l -> P x) -> filter P l = l.
Proof.
  induction l as [|x l IH]; intros H; [reflexivity |].
  rewrite filter_cons_True by (apply H, elem_of_cons; auto).
  f_equal. apply IH. intros y Hy. apply H, elem_of_cons. auto.
Qed.

Lemma firstOccurrences_NoDup_id (l : list (list ascii)) :
  NoDup l -> firstOccurrences l = l.
Proof.
  induction 1 as [|x l Hx _ IH]; [reflexivity |].
  simpl. rewrite IH. f_equal. apply filter_all. intros y Hy ->. contradiction.
Qed.

Lemma firstOccurrences_app (a b : list (list ascii)) :
  firstOccurrences (a ++ b)
  = firstOccurrences a ++ filter (fun y => y ∉ a) (firstOccurrences b).
Proof.
  induction a as [|x a IH]; simpl.
  - symmetry. apply filter_all. intros y _. apply not_elem_of_nil.
  - f_equal. rewrite IH, filter_app. f_equal.
    rewrite list_filter_filter. apply list_filter_iff.
    intros y. rewrite not_elem_of_cons. tauto.
Qed.

(** A list of distinct, trimmed, non-empty strings is left as it is. *)
Lemma dedupe_fixed (l : list (list ascii)) :
  NoDup l -> (forall k, k ∈ l -> k <> [] /\ TrimSpace k = k) -> dedupe l = l.
Proof.
  intros Hnd Hl. rewrite dedupe_firstOccurrences.
  assert (Hid : TrimSpace <$> l = l).
  { rewrite <- (list_fmap_id l) at 2. apply list_fmap_ext.
    intros i k Hk. apply list_elem_of_lookup_2 in Hk. apply Hl, Hk. }
  rewrite Hid, filter_all by (intros k Hk; apply Hl, Hk).
  apply firstOccurrences_NoDup_id, Hnd.
Qed.

Lemma dedupe_NoDup (l : list (list ascii)) : NoDup (dedupe l).
Proof. rewrite dedupe_firstOccurrences. apply firstOccurrences_NoDup. Qed.

Lemma dedupe_entries (l : list (list ascii)) k :
  k ∈ dedupe l -> k <> [] /\ TrimSpace k = k.
Proof.
  intros (Hne & s & _ & <-)%dedupe_elem. split; [exact Hne | apply TrimSpace_idemp].
Qed.

(** X8: de-duplicating twice is de-duplicating once. *)
Theorem X8_dedupe_idempotent (l : list (list ascii)) :
  dedupe (dedupe l) = dedupe l.
Proof. apply dedupe_fixed; [apply dedupe_NoDup | apply dedupe_entries]. Qed.

(** X9: more input only appends: the result for [l1 ++ l2] is the result
    for [l1], followed by the entries of the result for [l2] that the
    result for [l1] does not have. *)
Theorem X9_dedupe_append (l1 l2 : list (list ascii)) :
  dedupe (l1 ++ l2)
  = dedupe l1 ++ filter (fun k => k ∉ dedupe l1) (dedupe l2).
Proof.
  rewrite !dedupe_firstOccurrences, fmap_app, filter_app, firstOccurrences_app.
  f_equal. apply list_filter_iff. intros y.
  rewrite firstOccurrences_elem. reflexivity.
Qed.

(** ** Lower case and white space at the front *)

Lemma allBytes_all (c : ascii) : In c allBytes.
Proof.
  unfold allBytes. rewrite <- (ascii_nat_embedding c).
  apply in_map, in_seq. pose proof (nat_ascii_bounded c). lia.
Qed.

Lemma forRunes_spec (n : nat) (z : Z) (P : Z -> bool) :
  forRunes n z P = true ->
  forall r, (z <= r < z + Z.of_nat n)%Z -> P r = true.
Proof.
  revert z. induction n as [|n IH]; intros z H r Hr; [lia |].
  simpl in H. apply andb_true_iff in H as [Hz Hn].
  destruct (Z.eq_dec r z) as [-> | Hne]; [exact Hz |].
  apply (IH _ Hn). lia.
Qed.

Lemma noSpaceFront_spec (bytes rest : list ascii) :
  noSpaceFront bytes = true -> spaceWidth space2 space3 (bytes ++ rest) = 0.
Proof.
  destruct bytes as [|c1 t]; [discriminate |].
  unfold noSpaceFront. intros [H1 H2]%andb_true_iff.
  apply negb_true_iff in H1. cbn [app spaceWidth]. rewrite H1.
  destruct (Ascii.eqb c1 "194") eqn:E1.
  - apply Ascii.eqb_eq in E1. subst c1.
    destruct t as [|c2 t]; [discriminate H2 |]. apply negb_true_iff in H2.
    cbn [app]. rewrite H2. destruct (t ++ rest); reflexivity.
  - assert (S2 : forall c2, space2 c1 c2 = false)
      by (intros c2; unfold space2; rewrite E1; reflexivity).
    destruct (between "225" "227" c1) eqn:E2.
    + destruct t as [|c2 [|c3 t]]; try discriminate H2.
      apply negb_true_iff in H2. cbn [app]. rewrite S2, H2. reflexivity.
    + assert (S3 : forall c2 c3, space3 c1 c2 c3 = false).
      { intros c2 c3. revert E2.
        destruct c1 as [[] [] [] [] [] [] [] []]; vm_compute;
          first [reflexivity | discriminate]. }
      destruct (t ++ rest) as [|c2 [|c3 r]]; [reflexivity | |];
        rewrite S2; [reflexivity |]. rewrite S3. reflexivity.
Qed.

(** The bytes written for a rune that is no white space do not start a
    white-space rune. *)
Lemma AppendRune_low :
  forRunes (Z.to_nat 65536) 0
    (fun r => isSpaceRune r || noSpaceFront (AppendRune r)) = true.
Proof. vm_compute. reflexivity. Qed.

Lemma AppendRune_noSpace (r : Z) :
  (0 <= r <= MaxRune)%Z -> isSpaceRune r = false ->
  noSpaceFront (AppendRune r) = true.
Proof.
  intros Hr Hs.
  destruct (Z.lt_ge_cases r 65536) as [Hlow | Hhigh].
  - pose proof (forRunes_spec _ _ _ AppendRune_low r) as H.
    rewrite Z2Nat.id in H by lia. specialize (H ltac:(lia)).
    cbv beta in H. rewrite Hs in H. exact H.
  - unfold MaxRune in Hr. unfold AppendRune. cbv zeta.
    rewrite Z.mod_small by lia.
    rewrite (proj2 (Z.leb_gt _ _)) by lia.
    rewrite (proj2 (Z.leb_gt _ _)) by lia.
    unfold MaxRune.
    rewrite (proj2 (Z.ltb_ge _ _)) by lia.
    rewrite (proj2 (Z.leb_gt r 57343)) by lia. rewrite andb_false_r. cbn [orb].
    rewrite (proj2 (Z.leb_gt r 65535)) by lia.
    assert (Hk : (0 <= Z.shiftr r 18 <= 4)%Z).
    { rewrite Z.shiftr_div_pow2 by lia. change (2 ^ 18)%Z with 262144%Z.
      split; [apply Z.div_pos; lia |].
      apply Z.lt_succ_r, Z.div_lt_upper_bound; lia. }
    generalize (tail6 (Z.shiftr r 12)), (tail6 (Z.shiftr r 6)), (tail6 r).
    intros b1 b2 b3.
    assert (Hc : Z.shiftr r 18 = 0%Z \/ Z.shiftr r 18 = 1%Z
                 \/ Z.shiftr r 18 = 2%Z \/ Z.shiftr r 18 = 3%Z
                 \/ Z.shiftr r 18 = 4%Z) by lia.
    destruct Hc as [-> | [-> | [-> | [-> | ->]]]]; reflexivity.
Qed.


Lemma isSpaceRune_small (r : Z) : isSpaceRune r = true -> (9 <= r <= 12288)%Z.
Proof.
  unfold isSpaceRune. rewrite !orb_true_iff, !andb_true_iff, !Z.eqb_eq, !Z.leb_le.
  lia.
Qed.

(** The runes the decoder gives for two and three bytes lie above ASCII,
    and those that are white space are the ones [space2] and [space3]
    know. *)
Lemma decode2_checked :
  forallb (fun s0 =>
    if negb (runeLen s0 =? 2) then true else
    forallb (fun s1 =>
      if negb (acceptSecond s0 s1) then true else
      let c := Z.lor (Z.shiftl (low 31 s0) 6) (low 63 s1) in
      (128 <=? c)%Z && (c <=? MaxRune)%Z
      && (if isSpaceRune c then space2 s0 s1 else true)) allBytes) allBytes
  = true.
Proof. vm_compute. reflexivity. Qed.

Lemma decode3_checked :
  forallb (fun s0 =>
    if negb (runeLen s0 =? 3) then true else
    forallb (fun s1 =>
      if negb (acceptSecond s0 s1) then true else
      forallb (fun s2 =>
        if negb (continuation s2) then true else
        let c := Z.lor (Z.lor (Z.shiftl (low 15 s0) 12)
                              (Z.shiftl (low 63 s1) 6)) (low 63 s2) in
        (128 <=? c)%Z && (c <=? MaxRune)%Z
        && (if isSpaceRune c then space3 s0 s1 s2 else true))
        allBytes) allBytes) allBytes
  = true.
Proof. vm_compute. reflexivity. Qed.

(** The first two bytes of a rune of four bytes put it above U+FFFF and
    leave room for the twelve bits to come. *)
Lemma decode4_checked :
  forallb (fun s0 =>
    if negb (runeLen s0 =? 4) then true else
    forallb (fun s1 =>
      if negb (acceptSecond s0 s1) then true else
      let x := Z.lor (Z.shiftl (low 7 s0) 18) (Z.shiftl (low 63 s1) 12) in
      (65536 <=? x)%Z && (x + 4095 <=? MaxRune)%Z) allBytes) allBytes
  = true.
Proof. vm_compute. reflexivity. Qed.

Lemma decode2_rune (s0 s1 : ascii) :
  runeLen s0 = 2 -> acceptSecond s0 s1 = true ->
  let c := Z.lor (Z.shiftl (low 31 s0) 6) (low 63 s1) in
  (128 <= c <= MaxRune)%Z /\ (isSpaceRune c = true -> space2 s0 s1 = true).
Proof.
  intros H0 H1. pose proof decode2_checked as H.
  rewrite forallb_forall in H. specialize (H s0 (allBytes_all s0)).
  rewrite H0 in H. cbn [Nat.eqb negb] in H.
  rewrite forallb_forall in H. specialize (H s1 (allBytes_all s1)).
  rewrite H1 in H. cbn [negb] in H. cbv zeta in H |- *.
  apply andb_true_iff in H as [[Ha%Z.leb_le Hb%Z.leb_le]%andb_true_iff Hc].
  split; [lia |]. intros Hs. rewrite Hs in Hc. exact Hc.
Qed.

Lemma decode3_rune (s0 s1 s2 : ascii) :
  runeLen s0 = 3 -> acceptSecond s0 s1 = true -> continuation s2 = true ->
  let c := Z.lor (Z.lor (Z.shiftl (low 15 s0) 12) (Z.shiftl (low 63 s1) 6))
                 (low 63 s2) in
  (128 <= c <= MaxRune)%Z /\ (isSpaceRune c = true -> space3 s0 s1 s2 = true).
Proof.
  intros H0 H1 H2. pose proof decode3_checked as H.
  rewrite forallb_forall in H. specialize (H s0 (allBytes_all s0)).
  rewrite H0 in H. cbn [Nat.eqb negb] in H.
  rewrite forallb_forall in H. specialize (H s1 (allBytes_all s1)).
  rewrite H1 in H. cbn [negb] in H.
  rewrite forallb_forall in H. specialize (H s2 (allBytes_all s2)).
  rewrite H2 in H. cbn [negb] in H. cbv zeta in H |- *.
  apply andb_true_iff in H as [[Ha%Z.leb_le Hb%Z.leb_le]%andb_true_iff Hc].
  split; [lia |]. intros Hs. rewrite Hs in Hc. exact Hc.
Qed.

Lemma lor_upper (a b : Z) : (0 <= a -> 0 <= b -> Z.lor a b <= a + b)%Z.
Proof.
  intros Ha Hb. pose proof (Z.add_lor_land a b).
  pose proof (proj2 (Z.land_nonneg a b) (or_introl Ha)). lia.
Qed.

Lemma lor_lower (a b k : Z) :
  (0 <= k -> 2 ^ k <= a -> 0 <= b -> 2 ^ k <= Z.lor a b)%Z.
Proof.
  intros Hk Ha Hb.
  assert (Hpos : (0 < 2 ^ k)%Z) by (apply Z.pow_pos_nonneg; lia).
  assert (Hl : (0 <= Z.lor a b)%Z) by (apply Z.lor_nonneg; lia).
  assert (Hlog : (k <= Z.log2 (Z.lor a b))%Z).
  { rewrite Z.log2_lor by lia.
    apply Z.le_trans with (Z.log2 a); [| apply Z.le_max_l].
    apply Z.log2_le_pow2; lia. }
  apply Z.log2_le_pow2; [| exact Hlog].
  destruct (Z.eq_dec (Z.lor a b) 0%Z) as [E | E]; [| lia].
  rewrite E in Hlog. change (Z.log2 0) with 0%Z in Hlog.
  assert (k = 0%Z) by lia. subst k.
  apply Z.lor_eq_0_iff in E as [-> _]. simpl in Ha. lia.
Qed.

Lemma low_63 (c : ascii) : (0 <= low 63 c <= 63)%Z.
Proof.
  unfold low. change 63%Z with (Z.ones 6). rewrite Z.land_ones by lia.
  pose proof (Z.mod_pos_bound (byteVal c) (2 ^ 6) eq_refl).
  change (Z.ones 6) with 63%Z. change (2 ^ 6)%Z with 64%Z in *. lia.
Qed.

Lemma decode4_rune (s0 s1 s2 s3 : ascii) :
  runeLen s0 = 4 -> acceptSecond s0 s1 = true ->
  let c := Z.lor (Z.lor (Z.lor (Z.shiftl (low 7 s0) 18)
                               (Z.shiftl (low 63 s1) 12))
                        (Z.shiftl (low 63 s2) 6))
                 (low 63 s3) in
  (65536 <= c <= MaxRune)%Z.
Proof.
  intros H0 H1. pose proof decode4_checked as H.
  rewrite forallb_forall in H. specialize (H s0 (allBytes_all s0)).
  rewrite H0 in H. cbn [Nat.eqb negb] in H.
  rewrite forallb_forall in H. specialize (H s1 (allBytes_all s1)).
  rewrite H1 in H. cbn [negb] in H. cbv zeta in H |- *.
  apply andb_true_iff in H as [Ha%Z.leb_le Hb%Z.leb_le].
  set (x := Z.lor (Z.shiftl (low 7 s0) 18) (Z.shiftl (low 63 s1) 12)) in *.
  pose proof (low_63 s2) as H2. pose proof (low_63 s3) as H3.
  rewrite (Z.shiftl_mul_pow2 (low 63 s2)) by lia. change (2 ^ 6)%Z with 64%Z.
  set (y := (low 63 s2 * 64)%Z). assert (Hy : (0 <= y <= 4032)%Z) by (unfold y; lia).
  split.
  - change 65536%Z with (2 ^ 16)%Z.
    apply lor_lower; [lia | | lia]. apply lor_lower; [lia | exact Ha | lia].
  - pose proof (lor_upper x y ltac:(lia) ltac:(lia)).
    assert (0 <= Z.lor x y)%Z by (apply Z.lor_nonneg; lia).
    pose proof (lor_upper (Z.lor x y) (low 63 s3) ltac:(lia) ltac:(lia)). lia.
Qed.

(** The first rune of a text: an ASCII byte, or a rune above ASCII which,
    when it is white space, is white space for the trimmer too. *)
Lemma decode_rune (s0 : ascii) (rest : list ascii) :
  ((s0 <? "128")%char = true
   /\ DecodeRuneInString (s0 :: rest) = (byteVal s0, 1))
  \/ ((128 <= fst (DecodeRuneInString (s0 :: rest)) <= MaxRune)%Z
      /\ (isSpaceRune (fst (DecodeRuneInString (s0 :: rest))) = true ->
          spaceWidth space2 space3 (s0 :: rest) <> 0)).
Proof.
  assert (Herr : (128 <= fst (RuneError, 1) <= MaxRune)%Z
                 /\ (isSpaceRune (fst (RuneError, 1)) = true ->
                     spaceWidth space2 space3 (s0 :: rest) <> 0)).
  { split; [vm_compute; split; discriminate | discriminate]. }
  unfold DecodeRuneInString.
  destruct (runeLen s0) as [|[|[|[|[|n]]]]] eqn:Hlen.
  - right. destruct rest; exact Herr.
  - left. split; [| reflexivity]. unfold runeLen in Hlen.
    destruct (s0 <? "128")%char; [reflexivity |].
    repeat match type of Hlen with
           | (if ?b then _ else _) = _ => destruct b
           end; discriminate Hlen.
  - right. destruct rest as [|s1 rest]; [exact Herr |].
    destruct (acceptSecond s0 s1) eqn:H1; [| exact Herr].
    destruct (decode2_rune s0 s1 Hlen H1) as [Hb Hs]. cbn [fst].
    split; [exact Hb |]. intros H%Hs. cbn [spaceWidth].
    destruct (asciiSpace s0); [discriminate |]. rewrite H. discriminate.
  - right. destruct rest as [|s1 [|s2 rest]]; [exact Herr | exact Herr |].
    destruct (acceptSecond s0 s1) eqn:H1; [| exact Herr].
    destruct (continuation s2) eqn:H2; [| exact Herr]. cbn [andb fst].
    destruct (decode3_rune s0 s1 s2 Hlen H1 H2) as [Hb Hs].
    split; [exact Hb |]. intros H%Hs. cbn [spaceWidth].
    destruct (asciiSpace s0); [discriminate |].
    destruct (space2 s0 s1); [discriminate |]. rewrite H. discriminate.
  - right.
    destruct rest as [|s1 [|s2 [|s3 rest]]];
      [exact Herr | exact Herr | exact Herr |].
    destruct (acceptSecond s0 s1) eqn:H1; [| exact Herr].
    destruct (continuation s2); [| exact Herr].
    destruct (continuation s3); [| exact Herr]. cbn [andb fst].
    pose proof (decode4_rune s0 s1 s2 s3 Hlen H1) as Hb. cbv zeta in Hb.
    split; [lia |]. intros H%isSpaceRune_small. lia.
  - right. destruct rest; exact Herr.
Qed.

Lemma lowerByte_plain (c : ascii) :
  (c <? "128")%char = true -> asciiSpace c = false -> plainByte (lowerByte c) = true.
Proof.
  destruct c as [[] [] [] [] [] [] [] []]; vm_compute; intros H1 H2;
    first [discriminate H1 | discriminate H2 | reflexivity].
Qed.

(** With a table that is safe for white space, lower-casing puts no white
    space at the front of a text that has none. *)
Lemma ToLower_front {tbl : CaseTable} (x y : list ascii) :
  spaceSafe tbl -> x <> [] ->
  spaceWidth space2 space3 (x ++ y) = 0 ->
  spaceWidth space2 space3 (ToLower x ++ y) = 0.
Proof.
  intros Hsafe Hx Hw. destruct x as [|s0 rest]; [congruence |].
  rewrite ToLower_Map. unfold Map. cbn [mapFrom].
  pose proof (spaceWidth_prefix space2 space3 _ _ Hw) as Hw0.
  destruct (decode_rune s0 rest) as [[Ha ->] | [Hb Hs]].
  - rewrite (out_ascii s0 Ha). cbn [app].
    apply (spaceWidth_app_plain space2 space3 space2_not_plain space3_not_plain
             [] _ (lowerByte s0)).
    apply lowerByte_plain; [exact Ha |].
    simpl in Hw0. destruct (asciiSpace s0); [discriminate Hw0 | reflexivity].
  - destruct (DecodeRuneInString (s0 :: rest)) as [c w]. cbn [fst] in Hb, Hs.
    assert (Hc : isSpaceRune c = false).
    { destruct (isSpaceRune c); [| reflexivity]. destruct (Hs eq_refl Hw0). }
    unfold unicodeToLower. rewrite (proj2 (Z.leb_gt c 127)) by lia.
    destruct (Hsafe c Hb Hc) as [Hr Hrs].
    rewrite (proj2 (Z.leb_le 0 (lowerTable c))) by lia. rewrite <- app_assoc.
    apply noSpaceFront_spec, AppendRune_noSpace; assumption.
Qed.

(** A trimmed text has no white space at its front. *)
Lemma trimmed_left (s : list ascii) : TrimSpace s = s -> TrimLeftSpace s = s.
Proof.
  intros H. unfold TrimLeftSpace. apply trimFront_fixed.
  unfold TrimSpace in H.
  destruct (TrimRightSpace_prefix (TrimLeftSpace s)) as [w Hw].
  rewrite H in Hw. apply spaceWidth_prefix with (q := w).
  fold (TrimLeftSpace s). rewrite <- Hw. apply spaceWidth_trimFront.
Qed.

(** So [normalizeScheme] keeps a trimmed text trimmed. *)
Lemma normalizeScheme_trimmed {tbl : CaseTable} (it : list ascii) :
  spaceSafe tbl -> it <> [] -> TrimSpace it = it ->
  normalizeScheme it <> [] /\ TrimSpace (normalizeScheme it) = normalizeScheme it.
Proof.
  intros Hsafe Hne Htrim. unfold normalizeScheme.
  destruct (Index it (str "://")) as [idx|] eqn:Hidx; [| auto].
  destruct (Index_Some _ _ _ Hidx) as (_ & Hocc & _).
  apply HasPrefix_spec in Hocc as [post Hpost].
  pose proof (trimmed_left it Htrim) as Hl.
  assert (Hw : spaceWidth space2 space3 it = 0).
  { rewrite <- Hl at 1. apply spaceWidth_trimFront. }
  assert (Hright : TrimRightSpace (str "//" ++ post) = str "//" ++ post).
  { unfold TrimSpace in Htrim. rewrite Hl in Htrim.
    rewrite <- (take_drop idx it), Hpost in Htrim.
    change (str "://" ++ post) with (":"%char :: (str "//" ++ post)) in Htrim.
    rewrite TrimRightSpace_plain in Htrim by reflexivity.
    apply app_inv_head in Htrim. congruence. }
  assert (Hleft : spaceWidth space2 space3 (ToLower (take idx it) ++ drop idx it) = 0).
  { destruct (take idx it) as [|c x] eqn:Ex.
    - assert (E : drop idx it = it)
        by (rewrite <- (take_drop idx it) at 2; rewrite Ex; reflexivity).
      rewrite E. exact Hw.
    - rewrite <- Ex. apply ToLower_front; [exact Hsafe | congruence |].
      rewrite take_drop. exact Hw. }
  split.
  - rewrite Hpost. intros E. apply app_eq_nil in E as [_ E]. discriminate E.
  - unfold TrimSpace, TrimLeftSpace. rewrite (trimFront_fixed _ _ _ Hleft).
    rewrite Hpost.
    change (str "://" ++ post) with (":"%char :: (str "//" ++ post)).
    rewrite TrimRightSpace_plain by reflexivity. rewrite Hright. reflexivity.
Qed.

(** ** More on the tail and on a run *)

Lemma buildLiteTail_suffix (normal : list (list ascii)) (n : Z) :
  exists front, normal = front ++ buildLiteTail normal n.
Proof.
  rewrite buildLiteTail_drop. eexists. symmetry. apply take_drop.
Qed.

(** X10: the tail of a list that has no more entries than the size asked
    for is the list itself; taking the tail twice is taking it once; and a
    tail has no repetition when the list has none. *)
Theorem X10_buildLiteTail_small_and_twice (normal : list (list ascii)) (n : Z) :
  let size := if (n <=? 0)%Z then 100%Z else n in
  ((Z.of_nat (length normal) <= size)%Z -> buildLiteTail normal n = normal)
  /\ buildLiteTail (buildLiteTail normal n) n = buildLiteTail normal n
  /\ (NoDup normal -> NoDup (buildLiteTail normal n)).
Proof.
  cbv zeta. split; [| split].
  - intros H. rewrite buildLiteTail_drop.
    replace (length normal - _) with 0 by lia. reflexivity.
  - rewrite (buildLiteTail_drop (buildLiteTail normal n)).
    replace (length (buildLiteTail normal n) - _) with 0; [reflexivity |].
    rewrite buildLiteTail_drop, length_drop. lia.
  - intros H. destruct (buildLiteTail_suffix normal n) as [front E].
    rewrite E in H. apply NoDup_app in H. tauto.
Qed.

Lemma X10_witness :
  buildLiteTail [str "a"; str "b"] 5 = [str "a"; str "b"]
  /\ NoDup (buildLiteTail [str "a"; str "b"; str "c"] 2).
Proof.
  split.
  - apply (proj1 (X10_buildLiteTail_small_and_twice [str "a"; str "b"] 5)).
    simpl. lia.
  - apply (proj2 (proj2 (X10_buildLiteTail_small_and_twice
                           [str "a"; str "b"; str "c"] 2))).
    repeat constructor; rewrite list_elem_of_In; vm_compute; intuition discriminate.
Defined.

(** *** Entries have no white space at their ends *)

(** With a table that is safe for white space, every entry of the filter
    is not empty and has no white space at its ends. *)
Lemma entry_trimmed {tbl : CaseTable} (b : list ascii)
    (allowed : gset (list ascii)) e :
  spaceSafe tbl ->
  e ∈ parseAndFilterLines b allowed ->
  e <> [] /\ TrimSpace e = e.
Proof.
  intros Hsafe (tok & piece & _ & _ & _ & Hf)%parseAndFilterLines_elem.
  destruct (filterItem_entry _ _ _ Hf) as (-> & Hne & _ & _).
  apply normalizeScheme_trimmed; [exact Hsafe | exact Hne | apply TrimSpace_idemp].
Qed.

Lemma processSource_normal_elem {tbl : CaseTable} (cfg : Config)
    (raw e : list ascii) :
  spaceSafe tbl ->
  e ∈ fst (processSource cfg raw)
  <-> e ∈ parseAndFilterLines (tryDecodeIfBase64 raw) (allowedSet cfg).
Proof.
  intros Hsafe.
  assert (Hent : forall x,
            x ∈ parseAndFilterLines (tryDecodeIfBase64 raw) (allowedSet cfg) ->
            x <> [] /\ TrimSpace x = x).
  { intros x Hx. exact (entry_trimmed _ _ x Hsafe Hx). }
  unfold processSource. simpl. rewrite dedupe_elem. split.
  - intros (_ & s & Hs & <-). destruct (Hent _ Hs) as [_ ->]. exact Hs.
  - intros He. destruct (Hent _ He) as [Hne Ht].
    split; [exact Hne |]. exists e. auto.
Qed.

(** The excerpt of the examples is safe for white space. *)
Lemma latinTable_spaceSafe : spaceSafe Scenario.latinTable.
Proof.
  intros r Hr Hs. unfold lowerTable, Scenario.latinTable, MaxRune in *.
  destruct (r =? 8490)%Z; [split; [lia | reflexivity] |].
  destruct (r =? 304)%Z; [split; [lia | reflexivity] |].
  destruct ((192 <=? r) && (r <=? 222) && negb (r =? 215))%Z eqn:E;
    [| split; [lia | exact Hs]].
  apply andb_true_iff in E as [[E1%Z.leb_le E2%Z.leb_le]%andb_true_iff _].
  split; [lia |].
  destruct (isSpaceRune (r + 32)) eqn:E; [| reflexivity].
  unfold isSpaceRune in E.
  rewrite !orb_true_iff, !andb_true_iff, !Z.eqb_eq, !Z.leb_le in E. lia.
Qed.

(** X11: in a run, the normal list has no repetition and holds exactly the
    entries the filter returned (for a lower-case table that, like Go's,
    gives no white space for a rune that is none); the lite list is a
    final segment of the normal list, so it has no repetition either, and
    it is the whole normal list when that has at most 100 entries. *)
Theorem X11_run_lists {tbl : CaseTable} (cfg : Config) (raw : list ascii) :
  let normal := fst (processSource cfg raw) in
  let lite := snd (processSource cfg raw) in
  NoDup normal
  /\ (spaceSafe tbl ->
      forall e, e ∈ normal
        <-> e ∈ parseAndFilterLines (tryDecodeIfBase64 raw) (allowedSet cfg))
  /\ (exists front, normal = front ++ lite)
  /\ NoDup lite
  /\ (length normal <= 100 -> lite = normal).
Proof.
  cbv zeta.
  assert (Hnd : NoDup (fst (processSource cfg raw))) by apply dedupe_NoDup.
  assert (Hsuf : exists front,
             fst (processSource cfg raw) = front ++ snd (processSource cfg raw))
    by apply buildLiteTail_suffix.
  split; [exact Hnd |].
  split; [intros Hsafe e; apply processSource_normal_elem, Hsafe |].
  split; [exact Hsuf |]. split.
  - destruct Hsuf as [front E]. rewrite E in Hnd. apply NoDup_app in Hnd. tauto.
  - intros H. unfold processSource in *. simpl in *.
    rewrite buildLiteTail_drop.
    replace (length _ - _) with 0; [reflexivity |].
    change (Z.to_nat (if (100 <=? 0)%Z then 100 else 100)%Z) with 100. lia.
Qed.

Lemma X11_witness :
  (str "ss://a" ∈ fst (processSource (tbl := Scenario.latinTable)
                         (loadConfig Scenario.cfgTailTwo) Scenario.threeEntries)
   <-> str "ss://a" ∈ parseAndFilterLines (tbl := Scenario.latinTable)
                        (tryDecodeIfBase64 Scenario.threeEntries)
                        (allowedSet (tbl := Scenario.latinTable)
                           (loadConfig Scenario.cfgTailTwo)))
  /\ snd (processSource (tbl := Scenario.latinTable)
            (loadConfig Scenario.cfgTailTwo) Scenario.threeEntries)
     = fst (processSource (tbl := Scenario.latinTable)
              (loadConfig Scenario.cfgTailTwo) Scenario.threeEntries).
Proof.
  split.
  - apply (proj1 (proj2 (X11_run_lists (tbl := Scenario.latinTable)
                           (loadConfig Scenario.cfgTailTwo)
                           Scenario.threeEntries))).
    exact latinTable_spaceSafe.
  - apply (proj2 (proj2 (proj2 (proj2
             (X11_run_lists (tbl := Scenario.latinTable)
                (loadConfig Scenario.cfgTailTwo) Scenario.threeEntries))))).
    vm_compute. lia.
Defined.

(** ** More on the two payloads *)

(** X12: the text written for the normal list depends on which entries the
    list has, not on their order. *)
Theorem X12_normal_payload_order_free (l1 l2 : list (list ascii)) :
  l1 ≡ₚ l2 ->
  sortedCopy l1 = sortedCopy l2
  /\ encodedPayload (sortedCopy l1) = encodedPayload (sortedCopy l2).
Proof.
  intros H.
  assert (E : sortedCopy l1 = sortedCopy l2).
  { apply sortedCopy_unique; [apply sortedCopy_Sorted |].
    rewrite sortedCopy_Permutation. exact H. }
  rewrite E. auto.
Qed.

Lemma X12_witness :
  encodedPayload (sortedCopy [str "ss://b"; str "ss://a"])
  = encodedPayload (sortedCopy [str "ss://a"; str "ss://b"]).
Proof.
  apply (X12_normal_payload_order_free [str "ss://b"; str "ss://a"]
           [str "ss://a"; str "ss://b"]).
  apply perm_swap.
Defined.

Lemma EncodeToString_length (src : list ascii) :
  length (EncodeToString src) = 4 * ((length src + 2) / 3).
Proof.
  induction src as [| a | a b | a b c r IH] using list_ind3.
  - reflexivity.
  - destruct a. reflexivity.
  - destruct a, b. reflexivity.
  - destruct a, b, c. rewrite EncodeToString_3. simpl length. rewrite IH.
    replace (S (S (S (length r))) + 2) with (length r + 2 + 1 * 3) by lia.
    rewrite Nat.div_add by discriminate. lia.
Qed.

Lemma EncodeToString_alphabet (src : list ascii) :
  forallb (fun c => b64Class c && negb (isNewline c)) (EncodeToString src) = true.
Proof.
  pose proof (DecodeString_class _ _ (DecodeString_EncodeToString src)) as H1.
  pose proof (EncodeToString_no_newline src) as H2.
  rewrite forallb_forall in *. intros c Hc.
  rewrite (H1 c Hc), (H2 c Hc). reflexivity.
Qed.

(** X13: the text written for a list holds only letters, digits, '+', '/'
    and '=', no line break, and has four characters for every three bytes
    of the joined lines, rounded up. *)
Theorem X13_payload_shape (lines : list (list ascii)) :
  forallb (fun c => b64Class c && negb (isNewline c)) (encodedPayload lines) = true
  /\ length (encodedPayload lines) = 4 * ((length (Join lines [LF]) + 2) / 3).
Proof.
  split; [apply EncodeToString_alphabet | apply EncodeToString_length].
Qed.

Lemma EncodeToString_inj (x y : list ascii) :
  EncodeToString x = EncodeToString y -> x = y.
Proof.
  intros H. apply (f_equal DecodeString) in H.
  rewrite !DecodeString_EncodeToString in H. congruence.
Qed.

(** X14: two lists written alike have the same joined text; when both are
    not empty and their strings hold no '\n', they are the same list. *)
Theorem X14_payload_injective (l1 l2 : list (list ascii)) :
  encodedPayload l1 = encodedPayload l2 ->
  Join l1 [LF] = Join l2 [LF]
  /\ (l1 <> [] -> l2 <> [] -> Forall newlineFree l1 -> Forall newlineFree l2 ->
      l1 = l2).
Proof.
  intros H%EncodeToString_inj. split; [exact H |].
  intros N1 N2 F1 F2.
  rewrite <- (SplitLF_Join l1 N1 F1), <- (SplitLF_Join l2 N2 F2), H. reflexivity.
Qed.

Lemma X14_witness :
  Join [str "ss://a"; str "ss://b"] [LF] = Join [str "ss://a"; str "ss://b"] [LF].
Proof.
  apply (proj1 (X14_payload_injective [str "ss://a"; str "ss://b"]
                  [str "ss://a"; str "ss://b"] eq_refl)).
Defined.

(** ** More on the writer *)

(** Where the retry loop stands: the temporary file holds the new text and
    every file other than the target and the temporary one is as before. *)
Lemma renameLoop_others {tbl : CaseTable} (os : osAnswers) (tmp path p : list ascii)
    (todo i : nat) (fs : gmap (list ascii) (list ascii)) :
  p <> path -> p <> tmp ->
  forall st, st ∈ fst (renameLoop os tmp path i todo fs) -> st !! p = fs !! p.
Proof.
  intros Hp Ht. revert i fs. induction todo as [|todo IH]; intros i fs st.
  - simpl. intros ->%list_elem_of_singleton. apply removeTemp_other, Ht.
  - simpl.
    set (fs1 := if removeDone os i then delete path fs else fs).
    assert (H1 : fs1 !! p = fs !! p).
    { unfold fs1. destruct (removeDone os i); [| reflexivity].
      apply lookup_delete_ne. congruence. }
    destruct (renameError os i) as [err|].
    + destruct (isBusy err && _).
      * specialize (IH (S i) fs1).
        destruct (renameLoop os tmp path (S i) todo fs1) as [states res].
        simpl in *. intros [-> | Hin]%elem_of_cons; [exact H1 |].
        rewrite (IH st Hin). exact H1.
      * simpl. intros [-> | ->%list_elem_of_singleton]%elem_of_cons; [exact H1 |].
        rewrite removeTemp_other by exact Ht. exact H1.
    + simpl. intros [-> | ->%list_elem_of_singleton]%elem_of_cons; [exact H1 |].
      unfold rename. destruct (fs1 !! tmp); [| exact H1].
      rewrite lookup_insert_ne, lookup_delete_ne by congruence. exact H1.
Qed.

Lemma removeTemp_tmp (os : osAnswers) (tmp : list ascii)
    (fs : gmap (list ascii) (list ascii)) :
  is_Some (fs !! tmp) ->
  (removeTemp os tmp fs !! tmp = None <-> tmpRemoveDone os = true).
Proof.
  intros [c Hc]. unfold removeTemp. destruct (tmpRemoveDone os).
  - rewrite lookup_delete_eq. tauto.
  - rewrite Hc. split; discriminate.
Qed.

(** The temporary file at the end of the retry loop. *)
Lemma renameLoop_last_tmp {tbl : CaseTable} (os : osAnswers) (tmp path : list ascii)
    (todo i : nat) (fs : gmap (list ascii) (list ascii)) :
  tmp <> path ->
  is_Some (fs !! tmp) ->
  exists st, last (fst (renameLoop os tmp path i todo fs)) = Some st
             /\ (st !! tmp = None
                 <-> snd (renameLoop os tmp path i todo fs) = WriteOk
                     \/ tmpRemoveDone os = true).
Proof.
  intros Hne. revert i fs. induction todo as [|todo IH]; intros i fs Htmp.
  - simpl. eexists. split; [reflexivity |].
    rewrite (removeTemp_tmp os tmp fs Htmp). split; [auto |].
    intros [H | H]; [discriminate H | exact H].
  - simpl.
    set (fs1 := if removeDone os i then delete path fs else fs).
    assert (Htmp1 : is_Some (fs1 !! tmp)).
    { unfold fs1. destruct (removeDone os i); [| exact Htmp].
      rewrite lookup_delete_ne by congruence. exact Htmp. }
    destruct (renameError os i) as [err|].
    + destruct (isBusy err && _).
      * destruct (IH (S i) fs1 Htmp1) as (st & Hl & Hst).
        destruct (renameLoop os tmp path (S i) todo fs1) as [states res].
        simpl in *. exists st. split; [| exact Hst].
        destruct states; [discriminate Hl | exact Hl].
      * simpl. eexists. split; [reflexivity |].
        rewrite (removeTemp_tmp os tmp fs1 Htmp1). split; [auto |].
        intros [H | H]; [discriminate H | exact H].
    + simpl. eexists. split; [reflexivity |].
      unfold rename. destruct Htmp1 as [c ->].
      rewrite lookup_insert_ne by congruence. rewrite lookup_delete_eq.
      split; auto.
Qed.

Lemma writeBase64Atomic_first {tbl : CaseTable} (os : osAnswers) (path : list ascii)
    (lines : list (list ascii)) (fs : gmap (list ascii) (list ascii)) :
  exists rest, fst (writeBase64Atomic os path lines fs) = fs :: rest.
Proof.
  unfold writeBase64Atomic. cbv zeta.
  destruct (tempRandom os); [| eexists; reflexivity].
  destruct (bool_decide _); [eexists; reflexivity |].
  destruct (writeFails os || flushFails os); [eexists; reflexivity |].
  destruct (closeFails os); [eexists; reflexivity |].
  destruct (renameLoop _ _ _ _ _ _). eexists. reflexivity.
Qed.

(** X15: a write touches no file but the target and its own temporary
    file: every other path holds, in every state, what it held before. *)
Theorem X15_other_files_untouched {tbl : CaseTable} (os : osAnswers) (path : list ascii)
    (lines : list (list ascii)) (fs : gmap (list ascii) (list ascii))
    (p : list ascii) :
  p <> path ->
  (forall rnd, tempRandom os = Some rnd -> p <> tempPath path rnd) ->
  forall st, st ∈ fst (writeBase64Atomic os path lines fs) -> st !! p = fs !! p.
Proof.
  intros Hp Ht st. unfold writeBase64Atomic. cbv zeta.
  destruct (tempRandom os) as [rnd|];
    [| simpl; intros ->%list_elem_of_singleton; reflexivity].
  specialize (Ht rnd eq_refl). set (tmp := tempPath path rnd) in *.
  destruct (bool_decide _);
    [simpl; intros ->%list_elem_of_singleton; reflexivity |].
  set (enc := encodedPayload lines).
  set (fs1 := <[tmp := []]> fs).
  set (fs2 := <[tmp := take (flushed os) enc]> fs1).
  set (fs3 := <[tmp := enc]> fs2).
  assert (H1 : fs1 !! p = fs !! p) by (apply lookup_insert_ne; congruence).
  assert (H2 : fs2 !! p = fs !! p)
    by (unfold fs2; rewrite lookup_insert_ne by congruence; exact H1).
  assert (H3 : fs3 !! p = fs !! p)
    by (unfold fs3; rewrite lookup_insert_ne by congruence; exact H2).
  assert (Hd : forall m : gmap (list ascii) (list ascii),
             removeTemp os tmp m !! p = m !! p)
    by (intros m; apply removeTemp_other, Ht).
  destruct (writeFails os || flushFails os).
  { simpl. intros Hin.
    repeat (apply elem_of_cons in Hin as [-> | Hin]); rewrite ?Hd; auto.
    inversion Hin. }
  destruct (closeFails os).
  { simpl. intros Hin.
    repeat (apply elem_of_cons in Hin as [-> | Hin]); rewrite ?Hd; auto.
    inversion Hin. }
  pose proof (renameLoop_others os tmp path p maxRetries 0 fs3 Hp Ht) as Hloop.
  destruct (renameLoop os tmp path 0 maxRetries fs3) as [states res].
  simpl in *. intros Hin.
  repeat (apply elem_of_cons in Hin as [-> | Hin]); auto.
  rewrite (Hloop st Hin). exact H3.
Qed.

Lemma X15_witness :
  from_option (fun st => st !! str "export/k/lite") None
    (last (fst (writeBase64Atomic (tbl := Scenario.latinTable)
                  Scenario.osAlwaysBusy Scenario.target [str "ss://new"]
                  (<[str "export/k/lite" := str "eA=="]> Scenario.fsBefore))))
  = Some (str "eA==").
Proof.
  destruct (last _) as [st|] eqn:E.
  - simpl.
    rewrite (X15_other_files_untouched (tbl := Scenario.latinTable)
               Scenario.osAlwaysBusy Scenario.target
               [str "ss://new"]
               (<[str "export/k/lite" := str "eA=="]> Scenario.fsBefore)
               (str "export/k/lite")).
    + apply lookup_insert_eq.
    + vm_compute. discriminate.
    + intros rnd [= <-]. vm_compute. discriminate.
    + apply last_Some in E as [l' ->]. apply elem_of_app. right.
      apply list_elem_of_singleton. reflexivity.
  - apply last_None in E.
    destruct (writeBase64Atomic_first (tbl := Scenario.latinTable)
                Scenario.osAlwaysBusy Scenario.target
                [str "ss://new"]
                (<[str "export/k/lite" := str "eA=="]> Scenario.fsBefore))
      as [rest H].
    rewrite H in E. discriminate E.
Defined.

(** X16: when a write that has created its temporary file returns, that
    file is gone if the write succeeded, the file having been renamed, or
    if its removal worked; the error of the removal is dropped, so when the
    write fails and the removal fails too, the file stays behind. *)
Theorem X16_temporary_file_at_return {tbl : CaseTable} (os : osAnswers)
    (path rnd : list ascii) (lines : list (list ascii))
    (fs : gmap (list ascii) (list ascii)) :
  tempRandom os = Some rnd ->
  fs !! tempPath path rnd = None ->
  exists st, last (fst (writeBase64Atomic os path lines fs)) = Some st
             /\ (st !! tempPath path rnd = None
                 <-> snd (writeBase64Atomic os path lines fs) = WriteOk
                     \/ tmpRemoveDone os = true).
Proof.
  intros Hr Hfresh. unfold writeBase64Atomic. cbv zeta. rewrite Hr.
  pose proof (tempPath_neq path rnd) as Hne.
  set (tmp := tempPath path rnd) in *.
  rewrite bool_decide_eq_false_2 by (rewrite Hfresh; apply is_Some_None).
  assert (Hfail : forall (m : gmap (list ascii) (list ascii)) v,
            removeTemp os tmp (<[tmp := v]> m) !! tmp = None
            <-> WriteError = WriteOk \/ tmpRemoveDone os = true).
  { intros m v. rewrite removeTemp_tmp by (rewrite lookup_insert_eq; eauto).
    split; [auto |]. intros [H | H]; [discriminate H | exact H]. }
  destruct (writeFails os || flushFails os).
  { simpl. eexists. split; [reflexivity | apply Hfail]. }
  destruct (closeFails os).
  { simpl. eexists. split; [reflexivity | apply Hfail]. }
  set (fs3 := <[tmp := encodedPayload lines]> _).
  destruct (renameLoop_last_tmp os tmp path maxRetries 0 fs3 Hne)
    as (st & Hl & Hst).
  { unfold fs3. rewrite lookup_insert_eq. eauto. }
  destruct (renameLoop os tmp path 0 maxRetries fs3) as [states res].
  simpl in *. exists st. split; [| exact Hst].
  destruct states; [discriminate Hl | exact Hl].
Qed.

Lemma X16_witness :
  exists st,
    last (fst (writeBase64Atomic (tbl := Scenario.latinTable)
                 Scenario.osTempStuck Scenario.target [str "ss://new"]
                 Scenario.fsBefore)) = Some st
    /\ (st !! tempPath Scenario.target (str "123") = None
        <-> snd (writeBase64Atomic (tbl := Scenario.latinTable)
                   Scenario.osTempStuck Scenario.target [str "ss://new"]
                   Scenario.fsBefore) = WriteOk
            \/ tmpRemoveDone Scenario.osTempStuck = true).
Proof.
  apply X16_temporary_file_at_return; vm_compute; reflexivity.
Defined.

(** X17: a write that fails before the renaming (no temporary file, or an
    error while writing, flushing or closing it) never touches the target. *)
Theorem X17_early_failure_keeps_target {tbl : CaseTable} (os : osAnswers) (path : list ascii)
    (lines : list (list ascii)) (fs : gmap (list ascii) (list ascii)) :
  snd (writeBase64Atomic os path lines fs) = CreateTempError
  \/ snd (writeBase64Atomic os path lines fs) = WriteError ->
  forall st, st ∈ fst (writeBase64Atomic os path lines fs) ->
             st !! path = fs !! path.
Proof.
  unfold writeBase64Atomic. cbv zeta.
  destruct (tempRandom os) as [rnd|];
    [| simpl; intros _ st ->%list_elem_of_singleton; reflexivity].
  pose proof (tempPath_neq path rnd) as Hne.
  set (tmp := tempPath path rnd) in *.
  destruct (bool_decide _);
    [simpl; intros _ st ->%list_elem_of_singleton; reflexivity |].
  assert (Hi : forall (m : gmap (list ascii) (list ascii)) v,
             <[tmp := v]> m !! path = m !! path)
    by (intros m v; apply lookup_insert_ne; assumption).
  assert (Hd : forall m : gmap (list ascii) (list ascii),
             removeTemp os tmp m !! path = m !! path)
    by (intros m; apply removeTemp_other; congruence).
  destruct (writeFails os || flushFails os).
  { simpl. intros _ st Hin.
    repeat (apply elem_of_cons in Hin as [-> | Hin]); rewrite ?Hd, ?Hi; auto.
    inversion Hin. }
  destruct (closeFails os).
  { simpl. intros _ st Hin.
    repeat (apply elem_of_cons in Hin as [-> | Hin]); rewrite ?Hd, ?Hi; auto.
    inversion Hin. }
  assert (Hres : forall todo i m,
             snd (renameLoop os tmp path i todo m) <> CreateTempError
             /\ snd (renameLoop os tmp path i todo m) <> WriteError).
  { induction todo as [|todo IH]; intros i m; simpl; [split; discriminate |].
    destruct (renameError os i) as [err|]; [| split; discriminate].
    destruct (isBusy err && _); [| split; discriminate].
    specialize (IH (S i) (if removeDone os i then delete path m else m)).
    destruct (renameLoop _ _ _ _ _ _). exact IH. }
  match goal with
  | |- context [renameLoop os tmp path 0 maxRetries ?m] =>
      specialize (Hres maxRetries 0 m);
      destruct (renameLoop os tmp path 0 maxRetries m) as [states res]
  end.
  simpl in *. intros [H | H]; tauto.
Qed.

Lemma X17_witness :
  Scenario.fsBefore !! Scenario.target = Scenario.fsBefore !! Scenario.target.
Proof.
  apply (X17_early_failure_keeps_target (tbl := Scenario.latinTable)
           {| tempRandom := None; writeFails := false; flushFails := false;
              closeFails := false; flushed := 0; removeDone := fun _ => true;
              tmpRemoveDone := true; renameError := fun _ => None |}
           Scenario.target [str "ss://new"] Scenario.fsBefore
           ltac:(left; reflexivity) Scenario.fsBefore
           ltac:(apply list_elem_of_singleton; reflexivity)).
Defined.

(** X18: a write that reports success leaves the file system as it was
    before, but for the target, which holds the new text. *)
Theorem X18_success_replaces_target {tbl : CaseTable} (os : osAnswers) (path : list ascii)
    (lines : list (list ascii)) (fs : gmap (list ascii) (list ascii)) :
  snd (writeBase64Atomic os path lines fs) = WriteOk ->
  last (fst (writeBase64Atomic os path lines fs))
  = Some (<[path := encodedPayload lines]> fs).
Proof.
  unfold writeBase64Atomic. cbv zeta.
  destruct (tempRandom os) as [rnd|]; [| discriminate].
  pose proof (tempPath_neq path rnd) as Hne.
  set (tmp := tempPath path rnd) in *.
  destruct (bool_decide (is_Some (fs !! tmp))) eqn:Hb; [discriminate |].
  apply bool_decide_eq_false in Hb.
  assert (Hfresh : fs !! tmp = None).
  { destruct (fs !! tmp) eqn:E; [contradiction Hb; eauto | reflexivity]. }
  destruct (writeFails os || flushFails os); [discriminate |].
  destruct (closeFails os); [discriminate |].
  set (enc := encodedPayload lines).
  set (fs3 := <[tmp := enc]> _).
  assert (Htmp3 : fs3 !! tmp = Some enc) by apply lookup_insert_eq.
  assert (H3 : forall p, p <> tmp -> fs3 !! p = fs !! p).
  { intros p Hp. unfold fs3. rewrite !lookup_insert_ne by congruence. reflexivity. }
  pose proof (renameLoop_ok os tmp path enc maxRetries 0 fs3 Hne Htmp3) as Hok.
  pose proof (fun p Hp Ht => renameLoop_others os tmp path p maxRetries 0 fs3 Hp Ht)
    as Hoth.
  destruct (renameLoop os tmp path 0 maxRetries fs3) as [states res].
  cbn [fst snd] in *. intros Hres. destruct (Hok Hres) as (st & Hl & Hpath & Htmp).
  destruct states as [|s0 states']; [discriminate Hl |].
  change (last (s0 :: states') = Some (<[path := enc]> fs)).
  rewrite Hl. f_equal. apply map_eq. intros k.
  destruct (decide (k = path)) as [-> | Hk].
  - rewrite lookup_insert_eq. exact Hpath.
  - rewrite lookup_insert_ne by congruence.
    destruct (decide (k = tmp)) as [-> | Hk2]; [congruence |].
    rewrite (Hoth k Hk Hk2 st), H3; [reflexivity | exact Hk2 |].
    apply last_Some in Hl as [l' ->]. apply elem_of_app. right.
    apply list_elem_of_singleton. reflexivity.
Qed.

Lemma X18_witness :
  last (fst (writeBase64Atomic (tbl := Scenario.latinTable) Scenario.osAllGood
               Scenario.target [str "ss://new"] Scenario.fsBefore))
  = Some (<[Scenario.target := encodedPayload [str "ss://new"]]> Scenario.fsBefore).
Proof.
  apply X18_success_replaces_target. vm_compute. reflexivity.
Defined.

(** The result of the retry loop entered with all its attempts ahead. *)
Lemma renameLoop_result {tbl : CaseTable} (os : osAnswers) (tmp path : list ascii)
    (todo i : nat) (fs : gmap (list ascii) (list ascii)) :
  i + todo = maxRetries -> 0 < todo ->
  (forall j, j < i -> exists e, renameError os j = Some e /\ isBusy e = true) ->
  match snd (renameLoop os tmp path i todo fs) with
  | WriteOk =>
      exists k, k < maxRetries /\ renameError os k = None
                /\ forall j, j < k -> exists e, renameError os j = Some e
                                               /\ isBusy e = true
  | RenameError tries cause =>
      1 <= tries <= maxRetries
      /\ renameError os (tries - 1) = Some cause
      /\ (isBusy cause = false \/ tries = maxRetries)
      /\ forall j, j < tries - 1 -> exists e, renameError os j = Some e
                                             /\ isBusy e = true
  | _ => False
  end.
Proof.
  revert i fs. induction todo as [|todo IH]; intros i fs Hsum Hpos Hbusy; [lia |].
  unfold maxRetries in *.
  simpl. destruct (renameError os i) as [err|] eqn:Herr.
  - destruct (isBusy err && _) eqn:Hc.
    + apply andb_true_iff in Hc as [Hb Hlt]. apply Nat.ltb_lt in Hlt.
      specialize (IH (S i) (if removeDone os i then delete path fs else fs)).
      destruct (renameLoop os tmp path (S i) todo _) as [states res].
      cbn [snd] in *. apply IH; [lia | lia |].
      intros j Hj. destruct (decide (j = i)) as [-> | Hne]; [eauto |].
      apply Hbusy. lia.
    + cbn [snd]. replace (S i - 1) with i by lia.
      split; [lia |]. split; [exact Herr |]. split; [| exact Hbusy].
      apply andb_false_iff in Hc as [Hb | Hge]; [auto |].
      apply Nat.ltb_ge in Hge. right. lia.
  - cbn [snd]. exists i. split; [lia |]. split; [exact Herr | exact Hbusy].
Qed.

(** X19: a write that gets as far as the renaming ends in success or in a
    rename error, never in the fall-through after the loop.  It succeeds
    exactly after at most five busy renames followed by one that works; a
    rename error carries the number of tries, from 1 to 6, and the error of
    the last one, which was not a busy one unless it was the sixth. *)
Theorem X19_rename_outcome {tbl : CaseTable} (os : osAnswers) (path : list ascii)
    (lines : list (list ascii)) (fs : gmap (list ascii) (list ascii)) :
  match snd (writeBase64Atomic os path lines fs) with
  | WriteOk =>
      exists k, k < 6 /\ renameError os k = None
                /\ forall j, j < k -> exists e, renameError os j = Some e
                                               /\ isBusy e = true
  | RenameError tries cause =>
      1 <= tries <= 6
      /\ renameError os (tries - 1) = Some cause
      /\ (isBusy cause = false \/ tries = 6)
      /\ forall j, j < tries - 1 -> exists e, renameError os j = Some e
                                             /\ isBusy e = true
  | RenameExhausted => False
  | CreateTempError | WriteError => True
  end.
Proof.
  unfold writeBase64Atomic. cbv zeta.
  destruct (tempRandom os) as [rnd|]; [| exact I].
  destruct (bool_decide _); [exact I |].
  destruct (writeFails os || flushFails os); [exact I |].
  destruct (closeFails os); [exact I |].
  match goal with
  | |- context [renameLoop os ?t path 0 maxRetries ?m] =>
      pose proof (renameLoop_result os t path maxRetries 0 m eq_refl
                    ltac:(unfold maxRetries; lia)
                    ltac:(intros j Hj; lia)) as H;
      destruct (renameLoop os t path 0 maxRetries m) as [states res]
  end.
  simpl in *. destruct res; auto.
Qed.

Lemma X19_witness :
  1 <= 6 <= 6
  /\ renameError Scenario.osAlwaysBusy (6 - 1) = Some (str "Access is denied.")
  /\ (isBusy (tbl := Scenario.latinTable) (str "Access is denied.") = false
      \/ 6 = 6)
  /\ forall j, j < 6 - 1 ->
       exists e, renameError Scenario.osAlwaysBusy j = Some e
                 /\ isBusy (tbl := Scenario.latinTable) e = true.
Proof.
  assert (E : snd (writeBase64Atomic (tbl := Scenario.latinTable)
                     Scenario.osAlwaysBusy Scenario.target [str "ss://new"]
                     Scenario.fsBefore)
              = RenameError 6 (str "Access is denied."))
    by (vm_compute; reflexivity).
  pose proof (X19_rename_outcome (tbl := Scenario.latinTable)
                Scenario.osAlwaysBusy Scenario.target [str "ss://new"]
                Scenario.fsBefore) as H.
  rewrite E in H. exact H.
Defined.

(** X26: in every state the file system goes through during a write, the
    target holds what it held before, or does not exist, or holds the whole
    new text, never a part of it; and after a write that reports success it
    holds the new text. *)
Theorem X26_target_never_partial {tbl : CaseTable} (os : osAnswers)
    (path : list ascii)
    (lines : list (list ascii)) (fs : gmap (list ascii) (list ascii)) :
  (forall st, st ∈ fst (writeBase64Atomic os path lines fs) ->
     st !! path = fs !! path \/ st !! path = None
     \/ st !! path = Some (encodedPayload lines))
  /\ (snd (writeBase64Atomic os path lines fs) = WriteOk ->
      exists st, last (fst (writeBase64Atomic os path lines fs)) = Some st
                 /\ st !! path = Some (encodedPayload lines)).
Proof.
  unfold writeBase64Atomic. cbv zeta.
  set (enc := encodedPayload lines).
  destruct (tempRandom os) as [rnd|].
  2:{ split; [| discriminate]. simpl. intros st ->%list_elem_of_singleton. auto. }
  pose proof (tempPath_neq path rnd) as Hne.
  set (tmp := tempPath path rnd) in *.
  destruct (bool_decide (is_Some (fs !! tmp))).
  { split; [| discriminate]. simpl. intros st ->%list_elem_of_singleton. auto. }
  set (fs1 := <[tmp := []]> fs).
  set (fs2 := <[tmp := take (flushed os) enc]> fs1).
  set (fs3 := <[tmp := enc]> fs2).
  assert (H1 : fs1 !! path = fs !! path)
    by (unfold fs1; apply lookup_insert_ne; assumption).
  assert (H2 : fs2 !! path = fs !! path)
    by (unfold fs2; rewrite lookup_insert_ne by assumption; exact H1).
  assert (H3 : fs3 !! path = fs !! path)
    by (unfold fs3; rewrite lookup_insert_ne by assumption; exact H2).
  assert (Hd : forall m : gmap (list ascii) (list ascii),
             removeTemp os tmp m !! path = m !! path)
    by (intros m; apply removeTemp_other; congruence).
  destruct (writeFails os || flushFails os).
  { split; [| discriminate]. simpl. intros st Hin.
    repeat (apply elem_of_cons in Hin as [-> | Hin]); rewrite ?Hd; auto.
    apply elem_of_nil in Hin. contradiction. }
  destruct (closeFails os).
  { split; [| discriminate]. simpl. intros st Hin.
    repeat (apply elem_of_cons in Hin as [-> | Hin]); rewrite ?Hd; auto.
    apply elem_of_nil in Hin. contradiction. }
  assert (Htmp3 : fs3 !! tmp = Some enc) by apply lookup_insert_eq.
  pose proof (renameLoop_states os tmp path enc (fs !! path) maxRetries 0 fs3
                Hne Htmp3 (or_introl H3)) as Hloop.
  pose proof (renameLoop_ok os tmp path enc maxRetries 0 fs3 Hne Htmp3) as Hok.
  destruct (renameLoop os tmp path 0 maxRetries fs3) as [states res].
  simpl in *. split.
  - intros st Hin.
    repeat (apply elem_of_cons in Hin as [-> | Hin]); auto.
    apply (Hloop st Hin).
  - intros Hres. destruct (Hok Hres) as (st & Hl & Hp & _).
    exists st. split; [| exact Hp].
    destruct states; [discriminate Hl | exact Hl].
Qed.

Lemma X26_witness :
  (exists st,
     last (fst (writeBase64Atomic (tbl := Scenario.latinTable) Scenario.osAllGood
                  Scenario.target [str "ss://new"] Scenario.fsBefore)) = Some st
     /\ st !! Scenario.target = Some (encodedPayload [str "ss://new"])).
Proof.
  apply (proj2 (X26_target_never_partial (tbl := Scenario.latinTable)
                  Scenario.osAllGood Scenario.target [str "ss://new"]
                  Scenario.fsBefore)).
  vm_compute. reflexivity.
Defined.

(** ** Configuration, allowed schemes and directory names *)

(** X20: after [loadConfig] the two sizes of the lite block are positive:
    each is kept when it is positive and replaced by 100 when it is not;
    nothing else changes, and loading twice is loading once. *)
Theorem X20_loadConfig_defaults (cfg : Config) :
  (0 < N (Lite (loadConfig cfg)))%Z
  /\ (0 < MaxTotal (Lite (loadConfig cfg)))%Z
  /\ N (Lite (loadConfig cfg))
     = (if (0 <? N (Lite cfg))%Z then N (Lite cfg) else 100%Z)
  /\ MaxTotal (Lite (loadConfig cfg))
     = (if (0 <? MaxTotal (Lite cfg))%Z then MaxTotal (Lite cfg) else 100%Z)
  /\ Strategy (Lite (loadConfig cfg)) = Strategy (Lite cfg)
  /\ PerHostLimit (Lite (loadConfig cfg)) = PerHostLimit (Lite cfg)
  /\ AllowedSchemes (loadConfig cfg) = AllowedSchemes cfg
  /\ Subscriptions (loadConfig cfg) = Subscriptions cfg
  /\ loadConfig (loadConfig cfg) = loadConfig cfg.
Proof.
  destruct cfg as [schemes [strategy maxTotal perHost n] subs].
  unfold loadConfig. simpl.
  destruct (Z.leb_spec maxTotal 0), (Z.leb_spec n 0), (Z.ltb_spec 0 n),
           (Z.ltb_spec 0 maxTotal);
    simpl; repeat split; try lia;
    repeat match goal with
      | |- context [(?a <=? 0)%Z] =>
          destruct (Z.leb_spec a 0); try lia
      end; reflexivity.
Qed.

Lemma list_to_set_nil_iff (l : list (list ascii)) :
  size (list_to_set l : gset (list ascii)) = 0 <-> l = [].
Proof.
  split.
  - intros H%size_empty_inv. destruct l as [|x l]; [reflexivity |].
    assert (Hx : x ∈ (list_to_set (x :: l) : gset (list ascii)))
      by (apply elem_of_list_to_set, elem_of_cons; auto).
    rewrite H in Hx. apply elem_of_empty in Hx. contradiction.
  - intros ->. reflexivity.
Qed.

(** X21: the allowed set is never empty.  With no scheme configured it is
    vless, vmess and ss; otherwise it holds the configured schemes, trimmed
    and lower-cased, and nothing else: a configured scheme of ASCII bytes is
    there with its letters in lower case, and a configuration of blank
    schemes gives the empty scheme alone, not the three defaults. *)
Theorem X21_allowedSet {tbl : CaseTable} (cfg : Config) :
  allowedSet cfg <> ∅
  /\ (AllowedSchemes cfg = [] ->
      allowedSet cfg = list_to_set [str "vless"; str "vmess"; str "ss"])
  /\ (AllowedSchemes cfg <> [] ->
      forall sch, sch ∈ allowedSet cfg
                  <-> exists s, s ∈ AllowedSchemes cfg
                                /\ sch = ToLower (TrimSpace s))
  /\ (forall s, s ∈ AllowedSchemes cfg -> isASCII s = true ->
                lowerASCII (TrimSpace s) ∈ allowedSet cfg)
  /\ (AllowedSchemes cfg <> [] ->
      (forall s, s ∈ AllowedSchemes cfg -> TrimSpace s = []) ->
      allowedSet cfg = {[ [] ]}).
Proof.
  assert (Hmem : AllowedSchemes cfg <> [] ->
            forall sch, sch ∈ allowedSet cfg
                        <-> exists s, s ∈ AllowedSchemes cfg
                                      /\ sch = ToLower (TrimSpace s)).
  { unfold allowedSet. cbv zeta.
    set (l := List.map (fun s => ToLower (TrimSpace s)) (AllowedSchemes cfg)).
    intros Hne sch.
    destruct (Nat.eqb_spec (size (list_to_set l : gset (list ascii))) 0) as [E | E].
    - apply list_to_set_nil_iff in E. contradiction Hne.
      unfold l in E. destruct (AllowedSchemes cfg); [reflexivity | discriminate E].
    - rewrite elem_of_list_to_set. unfold l.
      change (List.map ?f ?x) with (f <$> x). rewrite list_elem_of_fmap.
      split; intros (s & H1 & H2); exists s; auto. }
  assert (Hdef : AllowedSchemes cfg = [] ->
            allowedSet cfg = list_to_set [str "vless"; str "vmess"; str "ss"]).
  { intros E. unfold allowedSet. rewrite E. reflexivity. }
  split; [| split; [exact Hdef |]; split; [exact Hmem |]; split].
  - destruct (AllowedSchemes cfg) as [|s l] eqn:E.
    + rewrite (Hdef eq_refl). intros H.
      assert (Hin : str "ss" ∈ (list_to_set [str "vless"; str "vmess"; str "ss"]
                                : gset (list ascii)))
        by (rewrite elem_of_list_to_set, !elem_of_cons; auto).
      rewrite H in Hin. apply elem_of_empty in Hin. contradiction.
    + intros H.
      assert (Hin : ToLower (TrimSpace s) ∈ allowedSet cfg).
      { apply Hmem; [discriminate |]. exists s. split; [| reflexivity].
        rewrite ?E. apply elem_of_cons. auto. }
      rewrite H in Hin. apply elem_of_empty in Hin. contradiction.
  - intros s Hs Ha. apply Hmem.
    + intros E. rewrite E in Hs. inversion Hs.
    + exists s. split; [exact Hs |]. symmetry. apply ToLower_isASCII.
      unfold isASCII in *. rewrite forallb_forall in *.
      intros c Hc. apply Ha, list_elem_of_In, TrimSpace_elem, list_elem_of_In, Hc.
  - intros Hne Hblank. apply set_eq. intros sch.
    rewrite (Hmem Hne), elem_of_singleton. split.
    + intros (s & Hs & ->). rewrite (Hblank s Hs). reflexivity.
    + intros ->. destruct (AllowedSchemes cfg) as [|s l] eqn:E; [congruence |].
      exists s. assert (Hs : s ∈ s :: l) by (apply elem_of_cons; auto).
      split; [exact Hs |]. rewrite (Hblank s Hs). reflexivity.
Qed.

Lemma X21_witness :
  allowedSet (tbl := Scenario.latinTable) Scenario.cfgTailTwo
  = list_to_set [str "vless"; str "vmess"; str "ss"]
  /\ lowerASCII (TrimSpace (str " Trojan "))
     ∈ allowedSet (tbl := Scenario.latinTable)
         {| AllowedSchemes := [str " Trojan "]; Lite := Lite Scenario.cfgTailTwo;
            Subscriptions := [] |}
  /\ allowedSet (tbl := Scenario.latinTable)
       {| AllowedSchemes := [str "  "]; Lite := Lite Scenario.cfgTailTwo;
          Subscriptions := [] |}
     = {[ [] ]}.
Proof.
  split; [| split].
  - apply (proj1 (proj2 (X21_allowedSet (tbl := Scenario.latinTable)
                           Scenario.cfgTailTwo))).
    reflexivity.
  - apply (proj1 (proj2 (proj2 (proj2
             (X21_allowedSet (tbl := Scenario.latinTable)
                {| AllowedSchemes := [str " Trojan "];
                   Lite := Lite Scenario.cfgTailTwo; Subscriptions := [] |}))))).
    + apply list_elem_of_singleton. reflexivity.
    + reflexivity.
  - apply (proj2 (proj2 (proj2 (proj2
             (X21_allowedSet (tbl := Scenario.latinTable)
                {| AllowedSchemes := [str "  "];
                   Lite := Lite Scenario.cfgTailTwo; Subscriptions := [] |}))))).
    + discriminate.
    + intros s ->%list_elem_of_singleton. vm_compute. reflexivity.
Defined.

Lemma replaceByte_valid (c : ascii) : invalidFileChar (replaceByte c) = false.
Proof.
  unfold replaceByte. destruct (invalidFileChar c) eqn:E; [reflexivity | exact E].
Qed.

Lemma replaceByte_idemp (c : ascii) : replaceByte (replaceByte c) = replaceByte c.
Proof. unfold replaceByte at 1. rewrite replaceByte_valid. reflexivity. Qed.

(** A replaced byte is a white-space byte only if it was one. *)
Lemma replaceByte_asciiSpace (c : ascii) :
  asciiSpace (replaceByte c) = true -> asciiSpace c = true.
Proof.
  unfold replaceByte. destruct (invalidFileChar c); [discriminate | auto].
Qed.

Lemma replaceByte_high (c k : ascii) :
  ("128" <=? k)%char = true -> replaceByte c = k -> c = k.
Proof.
  unfold replaceByte. destruct (invalidFileChar c); [| auto].
  intros H <-. discriminate H.
Qed.

Lemma space2_high c1 c2 :
  space2 c1 c2 = true -> ("128" <=? c1)%char = true /\ ("128" <=? c2)%char = true.
Proof.
  unfold space2. rewrite andb_true_iff, orb_true_iff, !Ascii.eqb_eq.
  intros [-> [-> | ->]]; split; reflexivity.
Qed.

Lemma space3_high c1 c2 c3 :
  space3 c1 c2 c3 = true ->
  ("128" <=? c1)%char = true /\ ("128" <=? c2)%char = true
  /\ ("128" <=? c3)%char = true.
Proof.
  unfold space3.
  rewrite !orb_true_iff, !andb_true_iff, !orb_true_iff, !andb_true_iff,
    !Ascii.eqb_eq.
  intros [[[H | H] | H] | H].
  - destruct H as [[-> ->] ->]. repeat split; reflexivity.
  - destruct H as [[-> ->] H]. split; [reflexivity |]. split; [reflexivity |].
    destruct H as [[[[H _] | ->] | ->] | ->]; [exact H | | |]; reflexivity.
  - destruct H as [[-> ->] ->]. repeat split; reflexivity.
  - destruct H as [[-> ->] ->]. repeat split; reflexivity.
Qed.

Section TrimReplaced.
Variable sp2 : ascii -> ascii -> bool.
Variable sp3 : ascii -> ascii -> ascii -> bool.
Hypothesis sp2_high :
  forall c1 c2, sp2 c1 c2 = true ->
    ("128" <=? c1)%char = true /\ ("128" <=? c2)%char = true.
Hypothesis sp3_high :
  forall c1 c2 c3, sp3 c1 c2 c3 = true ->
    ("128" <=? c1)%char = true /\ ("128" <=? c2)%char = true
    /\ ("128" <=? c3)%char = true.

(** Replacing bytes puts no white space at the front. *)
Lemma spaceWidth_replaced (s : list ascii) :
  spaceWidth sp2 sp3 s = 0 ->
  spaceWidth sp2 sp3 (List.map replaceByte s) = 0.
Proof.
  destruct s as [|c1 r1]; [reflexivity |]. simpl.
  destruct (asciiSpace c1) eqn:S1; [discriminate |].
  destruct (asciiSpace (replaceByte c1)) eqn:S1'.
  { apply replaceByte_asciiSpace in S1'. congruence. }
  destruct r1 as [|c2 r2]; [reflexivity |]. simpl.
  destruct (sp2 c1 c2) eqn:S2; [discriminate |].
  destruct (sp2 (replaceByte c1) (replaceByte c2)) eqn:S2'.
  { destruct (sp2_high _ _ S2') as [H1 H2].
    rewrite (replaceByte_high c1 _ H1 eq_refl) in S2.
    rewrite (replaceByte_high c2 _ H2 eq_refl) in S2. congruence. }
  destruct r2 as [|c3 r3]; [reflexivity |]. simpl.
  destruct (sp3 c1 c2 c3) eqn:S3; [discriminate |].
  destruct (sp3 (replaceByte c1) (replaceByte c2) (replaceByte c3)) eqn:S3';
    [| reflexivity].
  destruct (sp3_high _ _ _ S3') as (H1 & H2 & H3).
  rewrite (replaceByte_high c1 _ H1 eq_refl) in S3.
  rewrite (replaceByte_high c2 _ H2 eq_refl) in S3.
  rewrite (replaceByte_high c3 _ H3 eq_refl) in S3. congruence.
Qed.
End TrimReplaced.

Lemma TrimSpace_replaceInvalid (s : list ascii) :
  TrimSpace (replaceInvalid (TrimSpace s)) = replaceInvalid (TrimSpace s).
Proof.
  set (t := TrimSpace s).
  assert (Hfront : spaceWidth space2 space3 t = 0).
  { unfold t, TrimSpace.
    destruct (TrimRightSpace_prefix (TrimLeftSpace s)) as [w Hw].
    apply spaceWidth_prefix with (q := w). rewrite <- Hw.
    apply spaceWidth_trimFront. }
  assert (Hback : spaceWidth (fun c1 c2 => space2 c2 c1)
                    (fun c1 c2 c3 => space3 c3 c2 c1) (rev t) = 0).
  { unfold t, TrimSpace, TrimRightSpace. rewrite rev_involutive.
    apply spaceWidth_trimFront. }
  change (replaceInvalid t) with (List.map replaceByte t).
  unfold TrimSpace, TrimLeftSpace, TrimRightSpace.
  rewrite (trimFront_fixed space2 space3 (List.map replaceByte t))
    by (apply spaceWidth_replaced; [apply space2_high | apply space3_high | exact Hfront]).
  rewrite <- List.map_rev, trimFront_fixed; [rewrite List.map_rev; apply rev_involutive |].
  apply spaceWidth_replaced; [| | exact Hback].
  - intros c1 c2 H. apply space2_high in H. tauto.
  - intros c1 c2 c3 H. apply space3_high in H. tauto.
Qed.

(** X22: the directory name made from a key is never empty and holds none
    of the bytes the program replaces, so no slash and no backslash; making
    a name from a name changes nothing. *)
Theorem X22_sanitizeFileName (name : list ascii) :
  sanitizeFileName name <> []
  /\ forallb (fun c => negb (invalidFileChar c)) (sanitizeFileName name) = true
  /\ sanitizeFileName (sanitizeFileName name) = sanitizeFileName name.
Proof.
  assert (Hcases :
    (sanitizeFileName name = str "default")
    \/ (sanitizeFileName name = replaceInvalid (TrimSpace name)
        /\ replaceInvalid (TrimSpace name) <> [])).
  { unfold sanitizeFileName. cbv zeta.
    destruct (isEmpty (replaceInvalid (TrimSpace name))) eqn:E; [auto |].
    right. apply isEmpty_false in E. auto. }
  destruct Hcases as [-> | [-> Hne]].
  - split; [discriminate |]. split; vm_compute; reflexivity.
  - split; [exact Hne |]. split.
    + apply forallb_forall. intros c Hc. unfold replaceInvalid in Hc.
      apply in_map_iff in Hc as (d & <- & _).
      apply negb_true_iff, (replaceByte_valid d).
    + unfold sanitizeFileName. cbv zeta. rewrite TrimSpace_replaceInvalid.
      assert (Hid : replaceInvalid (replaceInvalid (TrimSpace name))
                    = replaceInvalid (TrimSpace name)).
      { unfold replaceInvalid. rewrite List.map_map.
        apply List.map_ext. intros c. apply replaceByte_idemp. }
      rewrite Hid. apply isEmpty_false in Hne. rewrite Hne. reflexivity.
Qed.

(** ** Occurrences of "://" *)













(** *** Counting *)









(** *** Lines with more than one "://" *)

Lemma colon_plain : plainByte ":" = true.
Proof. reflexivity. Qed.

Lemma slash_plain : plainByte "/" = true.
Proof. reflexivity. Qed.

Lemma TrimSpace_separator (t : list ascii) :
  TrimSpace (str "://" ++ t) = str "://" ++ TrimRightSpace t.
Proof.
  unfold TrimSpace. change (str "://" ++ t) with (":"%char :: "/"%char :: "/"%char :: t).
  rewrite (TrimLeftSpace_plain _ _ colon_plain).
  apply (TrimRightSpace_plain [":"; "/"]%char t "/" slash_plain).
Qed.

(** A piece that starts with "://" is kept only by an allowed scheme that
    is empty or starts with a colon. *)
Lemma filterItem_separator {tbl : CaseTable} (allowed : gset (list ascii))
    (p : list ascii) :
  (forall sch, sch ∈ allowed -> exists c t, sch = c :: t /\ c <> ":"%char) ->
  HasPrefix p (str "://") = true ->
  filterItem allowed p = None.
Proof.
  intros Hall [t ->]%HasPrefix_spec.
  destruct (filterItem allowed (str "://" ++ t)) as [e|] eqn:E; [| reflexivity].
  destruct (filterItem_entry _ _ _ E) as (_ & _ & _ & Hsch).
  apply schemeAllowed_spec in Hsch as (sch & Hin & Hpre).
  destruct (Hall sch Hin) as (c & u & -> & Hc).
  rewrite TrimSpace_separator in Hpre.
  rewrite (ToLower_ascii_head (str "://") _ eq_refl) in Hpre.
  change (lowerASCII (str "://")) with (str "://") in Hpre. simpl in Hpre.
  apply andb_true_iff in Hpre as [Hpre _]. apply Ascii.eqb_eq in Hpre.
  exfalso. apply Hc, Hpre.
Qed.

Lemma splitLoop_after_first (fuel : nat) (cur : list ascii) :
  HasPrefix cur (str "://") = true ->
  Forall (fun p => HasPrefix p (str "://") = true) (splitLoop fuel cur).
Proof.
  revert cur. induction fuel as [|fuel IH]; intros cur Hcur; [constructor |].
  assert (Hkeep : forall x, HasPrefix x (str "://") = true ->
                            HasPrefix (TrimSpace x) (str "://") = true).
  { intros x [t ->]%HasPrefix_spec. rewrite TrimSpace_separator.
    apply HasPrefix_app. }
  cbn [splitLoop].
  assert (Hidx : Index cur (str "://") = Some 0).
  { destruct cur; cbn [Index]; rewrite Hcur; reflexivity. }
  rewrite Hidx. simpl schemeStart. rewrite drop_0.
  destruct (Index (drop 3 cur) (str "://")) as [next|] eqn:Hn.
  - destruct (Index_Some _ _ _ Hn) as (_ & Hocc & _).
    rewrite drop_drop in Hocc. replace (3 + next) with (next + 3) in Hocc by lia.
    constructor; [| apply IH, Hocc].
    apply Hkeep. apply HasPrefix_spec in Hcur as [t ->].
    apply HasPrefix_spec. exists (take next t).
    change (str "://" ++ t) with (":"%char :: "/"%char :: "/"%char :: t).
    replace (next + 3) with (S (S (S next))) by lia. reflexivity.
  - constructor; [apply Hkeep, Hcur | constructor].
Qed.

Lemma omap_all_None {A B} (f : A -> option B) (l : list A) :
  Forall (fun x => f x = None) l -> omap f l = [].
Proof. induction 1 as [|x l Hx _ IH]; simpl; [| rewrite Hx]; auto. Qed.

(** X24: a line with more than one "://" gives one entry at most, whatever
    it holds (schemes that are empty or start with a colon set aside): of
    the pieces it is cut into, all but the first start with "://". *)
Theorem X24_multi_uri_line_one_entry {tbl : CaseTable}
    (allowed : gset (list ascii))
    (text : list ascii) :
  (forall sch, sch ∈ allowed -> exists c t, sch = c :: t /\ c <> ":"%char) ->
  1 < Count (TrimSpace text) (str "://") ->
  length (filterLine allowed text) <= 1.
Proof.
  intros Hall Hc. unfold filterLine. cbv zeta.
  destruct (isEmpty (TrimSpace text) || reCommentLine (TrimSpace text));
    [simpl; lia |].
  unfold splitPossible. rewrite (proj2 (Nat.leb_gt _ _) Hc).
  set (line := TrimSpace text).
  destruct (length line) as [|fuel]; [simpl; lia |].
  cbn [splitLoop].
  destruct (Index line (str "://")) as [idx|]; [| simpl; lia].
  set (rest := drop (schemeStart line idx) line).
  destruct (Index (drop 3 rest) (str "://")) as [next|] eqn:Hn.
  - destruct (Index_Some _ _ _ Hn) as (_ & Hocc & _).
    rewrite drop_drop in Hocc. replace (3 + next) with (next + 3) in Hocc by lia.
    pose proof (splitLoop_after_first fuel _ Hocc) as Hrest.
    change (omap ?f (?x :: ?l)) with (omap f ([x] ++ l)).
    rewrite omap_app, (omap_all_None _ (splitLoop fuel _)).
    + rewrite app_nil_r. simpl. destruct (filterItem allowed _); simpl; lia.
    + eapply Forall_impl; [exact Hrest |].
      intros p Hp. apply filterItem_separator; assumption.
  - simpl. destruct (filterItem allowed _); simpl; lia.
Qed.

Lemma X24_witness :
  length (filterLine (tbl := Scenario.latinTable)
            (list_to_set [str "vless"; str "vmess"; str "ss"])
            (str "ss://A ss://B ss://C")) <= 1.
Proof.
  apply X24_multi_uri_line_one_entry.
  - intros sch Hin. apply elem_of_list_to_set in Hin.
    repeat (apply elem_of_cons in Hin as [-> | Hin]);
      [eexists _, _; split; [reflexivity | discriminate] ..
      | inversion Hin].
  - vm_compute. lia.
Defined.

(** ** Reading back the program's own output *)













(** ** Sample runs *)

Example base64_vectors :
  List.map EncodeToString [str ""; str "f"; str "fo"; str "foo"; str "foob";
                           str "fooba"; str "foobar"]
  = [str ""; str "Zg=="; str "Zm8="; str "Zm9v"; str "Zm9vYg=="; str "Zm9vYmE=";
     str "Zm9vYmFy"]
  /\ List.map DecodeString
       [str "Zm9vYg=="; str "Zm9vYg="; str "Zm9v" ++ [CR; LF] ++ str "Yg==";
        str "Zm9vY"; str "Zm9v Yg=="]
     = [Some (str "foob"); None; Some (str "foob"); None; None].
Proof. vm_compute. split; reflexivity. Qed.

Example TrimSpace_samples :
  TrimSpace ([" "; "009"; "194"; "160"] ++ str "a b" ++ ["226"; "128"; "131"; LF])%char
  = str "a b"
  /\ TrimSpace (str " " ++ ["194"; "065"]%char) = ["194"; "065"]%char.
Proof. vm_compute. split; reflexivity. Qed.

(** The example of section 8 of the specification. *)
Example pipeline_sample :
  let lines := str "ss://abc" ++ [LF] ++ str "# comment" ++ [LF] ++ [LF]
               ++ str "VMESS://xyz" in
  let normal := dedupe (parseAndFilterLines (tbl := Scenario.latinTable) lines
                          (list_to_set [str "ss"; str "vmess"])) in
  normal = [str "ss://abc"; str "vmess://xyz"]
  /\ sortedCopy normal = [str "ss://abc"; str "vmess://xyz"].
Proof. vm_compute. split; reflexivity. Qed.

Example scanLines_sample :
  scanLines 5 (str "ab" ++ [CR; LF] ++ str "cdef" ++ [LF] ++ str "ghijk"
               ++ [LF] ++ str "l")
  = ([str "ab"; str "cdef"], true).
Proof. vm_compute. reflexivity. Qed.

(** Two "ss" URIs on one line: the cut falls before the second "://". *)
Example splitPossible_sample :
  splitPossible (str "ss://A ss://B") = [str "ss://A ss"; str "://B"]
  /\ splitPossible (str "ss://A") = [str "ss://A"].
Proof. vm_compute. split; reflexivity. Qed.

(** Lower-casing goes rune by rune once a byte is not ASCII: the Kelvin
    sign (E2 84 AA) becomes k, a byte that starts no rune becomes U+FFFD
    (EF BF BD), and the dotted capital I (C4 B0) becomes i. *)
Example ToLower_samples :
  ToLower (tbl := Scenario.latinTable)
    (str "SOC" ++ ["226"; "132"; "170"]%char ++ str "S://Host")
  = str "socks://host"
  /\ filterItem (tbl := Scenario.latinTable) (list_to_set [str "socks"])
       (str "SOC" ++ ["226"; "132"; "170"]%char ++ str "S://Host")
     = Some (str "socks://Host")
  /\ normalizeScheme (tbl := Scenario.latinTable) (["255"]%char ++ str "A://x")
     = ["239"; "191"; "189"]%char ++ str "a://x"
  /\ ToLower (tbl := Scenario.latinTable) ["195"; "137"]%char = ["195"; "169"]%char
  /\ isBusy (tbl := Scenario.latinTable)
       (str "Access " ++ ["196"; "176"]%char ++ str "s denied.")
     = true.
Proof. vm_compute. repeat split; reflexivity. Qed.

Example DecodeRuneInString_samples :
  List.map DecodeRuneInString
    [str "a"; ["195"; "169"]%char; ["226"; "132"; "170"]%char;
     ["240"; "159"; "152"; "128"]%char; ["226"; "132"]%char; ["192"; "128"]%char;
     ["237"; "160"; "128"]%char]
  = [(97%Z, 1); (233%Z, 2); (8490%Z, 3); (128512%Z, 4); (65533%Z, 1);
     (65533%Z, 1); (65533%Z, 1)].
Proof. vm_compute. reflexivity. Qed.
